(** * Interactive search: worker, cache, key handling and conversation viewer

    A shallow embedding of
      - [src/interactive_search/enhanced_search.py]  (class [EnhancedSearch])
      - [src/interactive_search/conversation_viewer.py] (class [ConversationViewer])
      - [print_centered] of [src/interactive_ui.py]
    and the properties of the search cache, the debounced worker, the result
    selection and the viewer's scrolling that the specification states.

    Conventions.
      - Python [int] is [Z]; [len] is [Z.of_nat (length _)].
      - [time.time()] is an input of the functions that read the clock; the
        unit is the millisecond, so [debounce_delay = 0.3] seconds is [300].
      - a [dict] keyed by strings is a [gmap string _].
      - a call that may raise returns a sum: the value, or the exception. *)

From stdpp Require Import gmap strings list fin_maps.
From Stdlib Require Import ZArith Lia String Ascii Sorted.

Set Warnings "-register-all".

Local Open Scope string_scope.
Local Open Scope Z_scope.

(** ** Python primitives used by the sources *)

Module Py.

Definition len {A : Type} (l : list A) : Z := Z.of_nat (List.length l).

Definition str_len (s : string) : Z := Z.of_nat (String.length s).

(** [k.startswith(q)] *)
Definition startswith (k q : string) : bool := String.prefix q k.

(** Bound of a slice: a negative bound counts from the end, and every
    bound is clipped to [0 .. n]. *)
Definition slice_bound (n i : Z) : nat :=
  Z.to_nat (if i <? 0 then Z.max 0 (n + i) else Z.min i n).

(** [s[:i]] *)
Definition slice_to (s : string) (i : Z) : string :=
  String.substring 0 (slice_bound (str_len s) i) s.

(** [s[i:]] *)
Definition slice_from (s : string) (i : Z) : string :=
  let k := slice_bound (str_len s) i in
  String.substring k (String.length s - k)%nat s.

(** [l[i]]: [None] stands for [IndexError]. *)
Definition index {A : Type} (l : list A) (i : Z) : option A :=
  if (0 <=? i) && (i <? len l) then nth_error l (Z.to_nat i)
  else if (i <? 0) && (- len l <=? i) then nth_error l (Z.to_nat (len l + i))
  else None.

(** [a % n] for [n > 0]: the result has the sign of the divisor, as
    [Z.modulo] has. *)
Definition mod_ (a n : Z) : Z := a mod n.

End Py.

(** ** enhanced_search.py *)

(** Modelled from the spec: [SearchResult] is declared in
    [search_conversations.py], which is not among the sources; section 3 of
    the specification lists its fields.  The code under study never looks
    inside a result except for [file_path], so the score and the time stamp
    are left out. *)
Record SearchResult : Type := mkResult {
  file_path : string;
  speaker : string;
  matched_content : string;
  context : string
}.

(** Modelled from the spec: [SearchState] is declared in [realtime_search.py],
    which is not among the sources; the fields are those of section 3 and the
    defaults those that [tests/test_realtime_search_comprehensive.py] checks. *)
Record SearchState : Type := mkSearchState {
  query : string;
  cursor_pos : Z;
  results : list SearchResult;
  selected_index : Z;
  last_update : Z;
  is_searching : bool
}.

Definition SearchState_default : SearchState :=
  {| query := ""; cursor_pos := 0; results := []; selected_index := 0;
     last_update := 0; is_searching := false |}.

(** What the worker does besides updating the state: probes and updates of
    [results_cache], calls of [searcher.search], lines printed. *)
Inductive effect : Type :=
  | CacheProbe (q : string)
  | CacheRead (q : string)
  | CacheStore (q : string)
  | SearchCall (q : string)
  | Printed (msg : string).

(** The part of an [EnhancedSearch] object that the search view touches. *)
Record EnhancedSearch : Type := mkEnhancedSearch {
  search_state : SearchState;
  results_cache : gmap string (list SearchResult);
  show_preview : bool;
  worker_log : list effect
}.

Definition debounce_delay : Z := 300.

(** [EnhancedSearch.__init__] *)
Definition EnhancedSearch_init : EnhancedSearch :=
  {| search_state := SearchState_default;
     results_cache := ∅;
     show_preview := true;
     worker_log := [] |}.

Definition with_state (f : SearchState -> SearchState) (es : EnhancedSearch)
  : EnhancedSearch :=
  {| search_state := f (search_state es);
     results_cache := results_cache es;
     show_preview := show_preview es;
     worker_log := worker_log es |}.

Definition with_cache (c : gmap string (list SearchResult)) (es : EnhancedSearch)
  : EnhancedSearch :=
  {| search_state := search_state es;
     results_cache := c;
     show_preview := show_preview es;
     worker_log := worker_log es |}.

Definition log (e : effect) (es : EnhancedSearch) : EnhancedSearch :=
  {| search_state := search_state es;
     results_cache := results_cache es;
     show_preview := show_preview es;
     worker_log := worker_log es ++ [e] |}.

Definition set_query (q : string) (c : Z) (s : SearchState) : SearchState :=
  {| query := q; cursor_pos := c; results := results s;
     selected_index := selected_index s; last_update := last_update s;
     is_searching := is_searching s |}.

Definition set_cursor_pos (c : Z) (s : SearchState) : SearchState :=
  set_query (query s) c s.

Definition set_results (rs : list SearchResult) (s : SearchState) : SearchState :=
  {| query := query s; cursor_pos := cursor_pos s; results := rs;
     selected_index := selected_index s; last_update := last_update s;
     is_searching := is_searching s |}.

Definition set_selected_index (i : Z) (s : SearchState) : SearchState :=
  {| query := query s; cursor_pos := cursor_pos s; results := results s;
     selected_index := i; last_update := last_update s;
     is_searching := is_searching s |}.

Definition set_pending (now : Z) (b : bool) (s : SearchState) : SearchState :=
  {| query := query s; cursor_pos := cursor_pos s; results := results s;
     selected_index := selected_index s; last_update := now;
     is_searching := b |}.

Definition clear_is_searching (s : SearchState) : SearchState :=
  set_pending (last_update s) false s.

(** *** trigger_search *)

(** [[k for k in self.results_cache.keys() if not k.startswith(query)]] *)
Definition keys_to_remove (q : string) (c : gmap string (list SearchResult))
  : list string :=
  List.filter (fun k => negb (Py.startswith k q)) ((map_to_list c).*1).

(** [for k in keys_to_remove: del self.results_cache[k]].  The keys come from
    the dictionary itself and are pairwise different, so [del] never raises. *)
Definition delete_keys (ks : list string) (c : gmap string (list SearchResult))
  : gmap string (list SearchResult) :=
  foldl (fun m k => delete k m) c ks.

Definition trigger_search (now : Z) (es : EnhancedSearch) : EnhancedSearch :=
  let es1 := with_state (set_pending now true) es in
  with_cache
    (delete_keys (keys_to_remove (query (search_state es1)) (results_cache es1))
                 (results_cache es1))
    es1.

(** *** The search worker *)

(** Outcome of the [try] statement around
    [self.searcher.search(query=query, mode="smart", max_results=20,
    case_sensitive=False)], as far as it depends on the searcher and the
    terminal:
      - [Returned rs]: the call returns the list [rs];
      - [Raised msg]: the call raises an exception that [except Exception]
        catches, and the handler prints ["Search error: "] followed by its
        message [msg];
      - [Escaped exn]: an exception leaves the [try] statement: the call
        raises one that [except Exception] does not catch
        ([KeyboardInterrupt], [SystemExit], any other [BaseException]), or
        the handler's [print(f"Search error: {e}")] raises itself (in
        [str(e)], or in the write to the terminal). *)
Inductive search_outcome : Type :=
  | Returned (rs : list SearchResult)
  | Raised (msg : string)
  | Escaped (exn : string).

(** How a call ends: it returns, or an exception leaves it. *)
Inductive call_result : Type :=
  | Return (b : bool) (es : EnhancedSearch)
  | Propagate (exn : string) (es : EnhancedSearch).

(** What [_process_search_request] is about to write when it takes the lock
    for the second time. *)
Inductive pending : Type :=
  | PendEmpty
  | PendCached
  | PendFresh (rs : list SearchResult)
  | PendFailed.

(** How the code between the two locked blocks ends: ready to write, or
    with an exception on its way out of the call. *)
Inductive computed : Type :=
  | Ready (p : pending)
  | Uncaught (exn : string).

(** Where the worker thread is.  [WSnapshot q] and [WPublish q _] carry the
    local variable [query] of the running call. *)
Inductive worker_pc : Type :=
  | WIdle
  | WSnapshot (q : string)
  | WPublish (q : string) (p : pending)
  | WCrashed.

(** How [search_worker] ends. *)
Inductive worker_exit : Type :=
  | Stopped (es : EnhancedSearch)
  | Died (exn : string) (es : EnhancedSearch).

Section Worker.

(** The collaborator [self.searcher], as a function of the query. *)
Variable searcher : string -> search_outcome.

(** First [with self.search_lock] block of [_process_search_request]:
    [None] is [return False]; otherwise the snapshot of the query, with
    [is_searching] cleared. *)
Definition begin_request (now : Z) (es : EnhancedSearch)
  : option (string * EnhancedSearch) :=
  let st := search_state es in
  if negb (is_searching st) then None
  else if now - last_update st <? debounce_delay then None
  else Some (query st, with_state clear_is_searching es).

(** The code between the first and the second locked block: the test
    [if not query], the cache probe, the call of the searcher with the
    store into the cache, or the handler's [print].  An exception that
    escapes leaves the call here: nothing is stored and nothing is
    written. *)
Definition compute (q : string) (es : EnhancedSearch)
  : computed * EnhancedSearch :=
  if String.eqb q "" then (Ready PendEmpty, es)
  else
    let es1 := log (CacheProbe q) es in
    match results_cache es1 !! q with
    | Some _ => (Ready PendCached, es1)
    | None =>
        let es2 := log (SearchCall q) es1 in
        match searcher q with
        | Returned rs =>
            (Ready (PendFresh rs),
             log (CacheStore q)
                 (with_cache (<[q := rs]> (results_cache es2)) es2))
        | Raised msg =>
            (Ready PendFailed, log (Printed ("Search error: " ++ msg)) es2)
        | Escaped exn => (Uncaught exn, es2)
        end
    end.

(** The second locked block, one per branch.  On the cache branch the
    dictionary is read again, [self.results_cache[query]], and a missing
    key raises [KeyError] outside any [try]. *)
Definition publish (q : string) (p : pending) (es : EnhancedSearch)
  : call_result :=
  match p with
  | PendEmpty => Return true (with_state (set_results []) es)
  | PendCached =>
      let es1 := log (CacheRead q) es in
      match results_cache es1 !! q with
      | Some rs => Return true (with_state (set_results rs) es1)
      | None => Propagate "KeyError" es1
      end
  | PendFresh rs =>
      Return true
        (with_state (fun s => set_selected_index 0 (set_results rs s)) es)
  | PendFailed => Return true (with_state (set_results []) es)
  end.

(** [_process_search_request], run without interference. *)
Definition process_search_request (now : Z) (es : EnhancedSearch)
  : call_result :=
  match begin_request now es with
  | None => Return false es
  | Some (q, es1) =>
      match compute q es1 with
      | (Ready p, es2) => publish q p es2
      | (Uncaught exn, es2) => Propagate exn es2
      end
  end.

(** [search_worker]: one iteration per clock reading in [polls], until the
    stop event is set (the end of the list); nothing in the loop catches
    an exception. *)
Fixpoint search_worker (polls : list Z) (es : EnhancedSearch) : worker_exit :=
  match polls with
  | [] => Stopped es
  | now :: polls' =>
      match process_search_request now es with
      | Return _ es' => search_worker polls' es'
      | Propagate exn es' => Died exn es'
      end
  end.

(** The list that a cycle for [q] is meant to show: nothing for the empty
    query, the searcher's answer otherwise, nothing when it raises.  (When
    the exception escapes, the cycle writes no list at all.) *)
Definition search_result_for (q : string) : list SearchResult :=
  if String.eqb q "" then []
  else match searcher q with
       | Returned rs => rs
       | Raised _ | Escaped _ => []
       end.

End Worker.

(** *** handle_search_input *)

(** The value [handle_search_input] returns: ["exit"], ["redraw"], or what
    [open_conversation] returns for the path of the selected result. *)
Inductive action : Type :=
  | Exit
  | Redraw
  | OpenConversation (path : string).

(** [len(key) == 1 and ord(key) >= 32 and ord(key) < 127] *)
Definition printable (key : string) : bool :=
  match key with
  | String c EmptyString =>
      let n := Z.of_nat (nat_of_ascii c) in (32 <=? n) && (n <? 127)
  | _ => false
  end.

Definition nonempty {A : Type} (l : list A) : bool :=
  match l with [] => false | _ :: _ => true end.

Definition toggle_preview (es : EnhancedSearch) : EnhancedSearch :=
  {| search_state := search_state es;
     results_cache := results_cache es;
     show_preview := negb (show_preview es);
     worker_log := worker_log es |}.

(** [handle_search_input] up to its call of [trigger_search]: the new state,
    whether [trigger_search] is called next, and the value returned. *)
Definition key_effect (key : string) (es : EnhancedSearch)
  : EnhancedSearch * bool * option action :=
  let st := search_state es in
  if String.eqb key "" then (es, false, None)
  else if String.eqb key "ESC" then (es, false, Some Exit)
  else if String.eqb key "ENTER" then
    if nonempty (results st) && (0 <=? selected_index st)
       && (selected_index st <? Py.len (results st))
    then match Py.index (results st) (selected_index st) with
         | Some r => (es, false, Some (OpenConversation (file_path r)))
         | None => (es, false, None)
         end
    else (es, false, None)
  else if String.eqb key "TAB" then (toggle_preview es, false, Some Redraw)
  else if String.eqb key "UP" then
    if nonempty (results st)
    then (with_state (set_selected_index (Z.max 0 (selected_index st - 1))) es,
          false, Some Redraw)
    else (es, false, None)
  else if String.eqb key "DOWN" then
    if nonempty (results st)
    then let max_index := Z.min 9 (Py.len (results st) - 1) in
         (with_state
            (set_selected_index (Z.min max_index (selected_index st + 1))) es,
          false, Some Redraw)
    else (es, false, None)
  else if String.eqb key "LEFT" then
    (with_state (set_cursor_pos (Z.max 0 (cursor_pos st - 1))) es,
     false, Some Redraw)
  else if String.eqb key "RIGHT" then
    (with_state
       (set_cursor_pos (Z.min (Py.str_len (query st)) (cursor_pos st + 1))) es,
     false, Some Redraw)
  else if String.eqb key "BACKSPACE" then
    if 0 <? cursor_pos st
    then (with_state
            (set_query (Py.slice_to (query st) (cursor_pos st - 1)
                        ++ Py.slice_from (query st) (cursor_pos st))
                       (cursor_pos st - 1)) es,
          true, Some Redraw)
    else (es, false, None)
  else if printable key then
    (with_state
       (set_query (Py.slice_to (query st) (cursor_pos st) ++ key
                   ++ Py.slice_from (query st) (cursor_pos st))
                  (cursor_pos st + 1)) es,
     true, Some Redraw)
  else (es, false, None).

Definition handle_search_input (now : Z) (key : string) (es : EnhancedSearch)
  : EnhancedSearch * option action :=
  let '(es1, triggers, ret) := key_effect key es in
  (if triggers then trigger_search now es1 else es1, ret).

(** *** The two threads

    The session controller (keys) and the worker run side by side.  A step
    is a locked block, or the code of one thread between two locked blocks;
    [handle_search_input] changes [query] first and takes the lock only
    inside [trigger_search], so the edit and the trigger are two steps. *)
Record System : Type := mkSystem {
  app : EnhancedSearch;
  worker : worker_pc;
  trigger_due : bool
}.

Inductive event : Type :=
  | UiKey (key : string)
  | UiTrigger (now : Z)
  | WorkerPoll (now : Z)
  | WorkerCompute
  | WorkerPublish.

Definition System_init : System :=
  {| app := EnhancedSearch_init; worker := WIdle; trigger_due := false |}.

Section Threads.

Variable searcher : string -> search_outcome.

(** One step; [None] when the thread is not at that point of its code. *)
Definition step (e : event) (s : System) : option System :=
  match e with
  | UiKey key =>
      if trigger_due s then None
      else let '(es1, triggers, _) := key_effect key (app s) in
           Some {| app := es1; worker := worker s; trigger_due := triggers |}
  | UiTrigger now =>
      if trigger_due s
      then Some {| app := trigger_search now (app s); worker := worker s;
                   trigger_due := false |}
      else None
  | WorkerPoll now =>
      match worker s with
      | WIdle =>
          match begin_request now (app s) with
          | None => Some s
          | Some (q, es1) =>
              Some {| app := es1; worker := WSnapshot q;
                      trigger_due := trigger_due s |}
          end
      | _ => None
      end
  | WorkerCompute =>
      match worker s with
      | WSnapshot q =>
          match compute searcher q (app s) with
          | (Ready p, es1) =>
              Some {| app := es1; worker := WPublish q p;
                      trigger_due := trigger_due s |}
          | (Uncaught _, es1) =>
              Some {| app := es1; worker := WCrashed;
                      trigger_due := trigger_due s |}
          end
      | _ => None
      end
  | WorkerPublish =>
      match worker s with
      | WPublish q p =>
          match publish q p (app s) with
          | Return _ es1 =>
              Some {| app := es1; worker := WIdle;
                      trigger_due := trigger_due s |}
          | Propagate _ es1 =>
              Some {| app := es1; worker := WCrashed;
                      trigger_due := trigger_due s |}
          end
      | _ => None
      end
  end.

Fixpoint run (evs : list event) (s : System) : option System :=
  match evs with
  | [] => Some s
  | e :: evs' =>
      match step e s with
      | Some s' => run evs' s'
      | None => None
      end
  end.

(** The query snapshots of the cycles that start while [evs] runs. *)
Definition snapshot_taken (e : event) (s s' : System) : list string :=
  match e, worker s, worker s' with
  | WorkerPoll _, WIdle, WSnapshot q => [q]
  | _, _, _ => []
  end.

Fixpoint snapshots (evs : list event) (s : System) : list string :=
  match evs with
  | [] => []
  | e :: evs' =>
      match step e s with
      | Some s' => snapshot_taken e s s' ++ snapshots evs' s'
      | None => []
      end
  end.

(** The worker has written [results] in the step from [s] to [s']. *)
Definition wrote_results (s s' : System) : Prop :=
  step WorkerPublish s = Some s' /\ worker s' = WIdle.

(** "Whenever the worker writes the results, the list written is the
    search result for the value the query holds at that moment". *)
Definition writes_for_current_query : Prop :=
  forall evs s s',
    run evs System_init = Some s ->
    wrote_results s s' ->
    results (search_state (app s'))
    = search_result_for searcher (query (search_state (app s'))).

End Threads.

Definition is_ui_trigger (e : event) : bool :=
  match e with UiTrigger _ => true | _ => false end.

Definition is_worker_event (e : event) : bool :=
  match e with
  | WorkerPoll _ | WorkerCompute | WorkerPublish => true
  | _ => false
  end.

(** The clock reading of a poll is at most [t]. *)
Definition polled_by (t : Z) (e : event) : Prop :=
  match e with WorkerPoll now => now <= t | _ => True end.

Definition is_poll_from (t : Z) (e : event) : bool :=
  match e with WorkerPoll now => t <=? now | _ => false end.

(** The bound that the specification gives for [selected_index]. *)
Definition selection_in_bounds (st : SearchState) : Prop :=
  match results st with
  | [] => selected_index st = 0
  | _ :: _ =>
      0 <= selected_index st <= Z.min 9 (Py.len (results st) - 1)
  end.

(** *** A small corpus to run the code on *)

Definition demo_corpus : list string :=
  ["alpha"; "abacus"; "apple"; "avocado"; "anchor"].

Definition contains (q m : string) : bool :=
  match String.index 0 q m with Some _ => true | None => false end.

(** Raises on ["boom"]; otherwise one result per message of the corpus that
    contains the query. *)
Definition demo_searcher (q : string) : search_outcome :=
  if String.eqb q "boom" then Raised "boom"
  else Returned
         (List.map (fun m => mkResult "demo.jsonl" "human" m "")
                   (List.filter (contains q) demo_corpus)).

Fixpoint press (now : Z) (keys : list string) (es : EnhancedSearch)
  : EnhancedSearch :=
  match keys with
  | [] => es
  | k :: keys' => press now keys' (fst (handle_search_input now k es))
  end.

Definition after_call (r : call_result) : EnhancedSearch :=
  match r with Return _ es => es | Propagate _ es => es end.

(** The user types [keys] at time [t0]; the worker polls at [t1]. *)
Definition type_and_search (t0 t1 : Z) (keys : list string) (es : EnhancedSearch)
  : EnhancedSearch :=
  after_call (process_search_request demo_searcher t1 (press t0 keys es)).

(** ["error"] has been typed and searched. *)
Definition searched_error : EnhancedSearch :=
  type_and_search 0 1000 ["e"; "r"; "r"; "o"; "r"] EnhancedSearch_init.

(** ["err"] has been typed and searched. *)
Definition searched_err : EnhancedSearch :=
  type_and_search 0 1000 ["e"; "r"; "r"] EnhancedSearch_init.

(** ** conversation_viewer.py *)

(** A decoded JSON value.  Numbers are kept as integers: the loader never
    looks at one. *)
Inductive json : Type :=
  | JNull
  | JBool (b : bool)
  | JNumber (n : Z)
  | JString (s : string)
  | JArray (items : list json)
  | JObject (fields : list (string * json)).

(** One turn of the loop [for line in f].  The read of the next line
    yields a line, of which [json.loads(line.strip())] makes a value
    ([Decoded]), [json.JSONDecodeError] ([Malformed]) or another exception
    ([LoadsRaised]: [RecursionError] on a value nested too deep,
    [ValueError] on an integer of too many digits); or the read itself
    raises ([ReadRaised]: [UnicodeDecodeError] on bytes that are not UTF-8,
    [OSError]).  The text layer decodes the file a chunk at a time, so the
    read that raises may come before lines that stand before the offending
    bytes in the file: a short file with one such byte is the single turn
    [ReadRaised "UnicodeDecodeError"]. *)
Inductive decoded : Type :=
  | Malformed
  | Decoded (v : json)
  | LoadsRaised (exn : string)
  | ReadRaised (exn : string).

(** [entry.get(key)] on a [dict] built from the fields in their order in the
    text: the last binding of a repeated key wins. *)
Fixpoint dict_get (key : string) (fields : list (string * json)) : option json :=
  match fields with
  | [] => None
  | (k, v) :: rest =>
      match dict_get key rest with
      | Some v' => Some v'
      | None => if String.eqb k key then Some v else None
      end
  end.

(** [entry.get("type") in ["user", "assistant"]] *)
Definition is_message (fields : list (string * json)) : bool :=
  match dict_get "type" fields with
  | Some (JString t) => String.eqb t "user" || String.eqb t "assistant"
  | _ => false
  end.

(** How the loop over the lines ends: at the end of the file, or at an
    exception that the outer [except Exception] catches. *)
Inductive load_result : Type :=
  | Loaded (conv : list json)
  | Aborted (exn : string) (conv : list json).

(** The [for line in f] loop of [load_conversation]; [conv] is
    [self.state.conversation].  On a value that is not a [dict],
    [entry.get] raises [AttributeError], which the inner handler does not
    catch; nor does it catch what the read raises, or what [json.loads]
    raises besides [json.JSONDecodeError]. *)
Fixpoint read_lines (lines : list decoded) (conv : list json) : load_result :=
  match lines with
  | [] => Loaded conv
  | Malformed :: rest => read_lines rest conv
  | Decoded (JObject fields) :: rest =>
      if is_message fields
      then read_lines rest (conv ++ [JObject fields])
      else read_lines rest conv
  | Decoded _ :: rest => Aborted "AttributeError" conv
  | LoadsRaised exn :: rest => Aborted exn conv
  | ReadRaised exn :: rest => Aborted exn conv
  end.

Definition conversation_of (r : load_result) : list json :=
  match r with Loaded conv => conv | Aborted _ conv => conv end.

(** [load_conversation]: the file is [None] when [open] raises, and
    otherwise the turns its loop takes.  What the outer handler prints,
    and whether that [print] succeeds, is left out: the conversation is
    the same either way. *)
Definition load_conversation (file : option (list decoded)) : load_result :=
  match file with
  | None => Aborted "OSError" []
  | Some lines => read_lines lines []
  end.

(** A line that is a message record. *)
Definition message_line (d : decoded) : bool :=
  match d with
  | Decoded (JObject fields) => is_message fields
  | _ => false
  end.

(** The exception with which a turn of the loop ends the loading, if it
    does: a line that decodes to something that is not an object, a line
    on which [json.loads] raises something else than
    [json.JSONDecodeError], a read that raises. *)
Definition ends_loading (d : decoded) : option string :=
  match d with
  | Malformed => None
  | Decoded (JObject _) => None
  | Decoded _ => Some "AttributeError"
  | LoadsRaised exn => Some exn
  | ReadRaised exn => Some exn
  end.

Definition decoded_value (d : decoded) : list json :=
  match d with Decoded v => [v] | _ => [] end.

(** The message records of a file, in order. *)
Definition messages_of (lines : list decoded) : list json :=
  List.flat_map decoded_value (List.filter message_line lines).

Record ViewerState : Type := mkViewerState {
  conversation : list json;
  current_line : Z;
  total_lines : Z;
  search_query : string;
  search_results : list Z;
  search_index : Z;
  viewport_height : Z;
  viewport_width : Z
}.

(** [ViewerState()] once [__init__] has loaded the conversation, counted the
    formatted lines and read the terminal size. *)
Definition ViewerState_init (conv : list json) (total height width : Z)
  : ViewerState :=
  {| conversation := conv; current_line := 0; total_lines := total;
     search_query := ""; search_results := []; search_index := 0;
     viewport_height := height; viewport_width := width |}.

Definition set_current_line (n : Z) (v : ViewerState) : ViewerState :=
  {| conversation := conversation v; current_line := n;
     total_lines := total_lines v; search_query := search_query v;
     search_results := search_results v; search_index := search_index v;
     viewport_height := viewport_height v;
     viewport_width := viewport_width v |}.

Definition set_search (q : string) (hits : list Z) (i : Z) (v : ViewerState)
  : ViewerState :=
  {| conversation := conversation v; current_line := current_line v;
     total_lines := total_lines v; search_query := q;
     search_results := hits; search_index := i;
     viewport_height := viewport_height v;
     viewport_width := viewport_width v |}.

Definition set_search_index (i : Z) (v : ViewerState) : ViewerState :=
  set_search (search_query v) (search_results v) i v.

Definition max_scroll (v : ViewerState) : Z :=
  Z.max 0 (total_lines v - viewport_height v).

Definition scroll_up (lines : Z) (v : ViewerState) : ViewerState :=
  set_current_line (Z.max 0 (current_line v - lines)) v.

Definition scroll_down (lines : Z) (v : ViewerState) : ViewerState :=
  set_current_line (Z.min (max_scroll v) (current_line v + lines)) v.

Definition page_up (v : ViewerState) : ViewerState :=
  scroll_up (viewport_height v - 1) v.

Definition page_down (v : ViewerState) : ViewerState :=
  scroll_down (viewport_height v - 1) v.

Definition go_to_top (v : ViewerState) : ViewerState :=
  set_current_line 0 v.

Definition go_to_bottom (v : ViewerState) : ViewerState :=
  set_current_line (max_scroll v) v.

(** The six scrolling operations, [scroll_up] and [scroll_down] with their
    default argument as the key handler calls them. *)
Inductive scroll_op : Type :=
  | ScrollUp | ScrollDown | PageUp | PageDown | GoToTop | GoToBottom.

Definition scroll (op : scroll_op) (v : ViewerState) : ViewerState :=
  match op with
  | ScrollUp => scroll_up 1 v
  | ScrollDown => scroll_down 1 v
  | PageUp => page_up v
  | PageDown => page_down v
  | GoToTop => go_to_top v
  | GoToBottom => go_to_bottom v
  end.

Definition scroll_in_range (v : ViewerState) : Prop :=
  0 <= current_line v <= max_scroll v.

(** [self.state.search_index = (self.state.search_index + d) % len(...)]
    followed by [self.state.current_line = self.state.search_results[...]];
    [None] is the [IndexError] of the subscript. *)
Definition jump_search_result (d : Z) (v : ViewerState) : option ViewerState :=
  match search_results v with
  | [] => Some v
  | _ :: _ =>
      let i := Py.mod_ (search_index v + d) (Py.len (search_results v)) in
      match Py.index (search_results v) i with
      | Some line => Some (set_current_line line (set_search_index i v))
      | None => None
      end
  end.

Definition next_search_result (v : ViewerState) : option ViewerState :=
  jump_search_result 1 v.

Definition prev_search_result (v : ViewerState) : option ViewerState :=
  jump_search_result (-1) v.

Section ViewerSearch.

(** [query_lower in clean_line.lower()], where [clean_line] is the line
    without its colour codes: a test on the query and one line. *)
Variable line_matches : string -> string -> bool.

(** [self.formatted_lines] *)
Variable formatted_lines : list string.

(** [[i for i, line in enumerate(lines) if ...]], counting from [i]. *)
Fixpoint hits_from (i : Z) (q : string) (lines : list string) : list Z :=
  match lines with
  | [] => []
  | line :: rest =>
      if line_matches q line then i :: hits_from (i + 1) q rest
      else hits_from (i + 1) q rest
  end.

Definition search (q : string) (v : ViewerState) : ViewerState :=
  if String.eqb q "" then set_search "" [] 0 v
  else
    let hits := hits_from 0 q formatted_lines in
    match hits with
    | [] => set_search q [] (search_index v) v
    | first :: _ => set_current_line first (set_search q hits 0 v)
    end.

(** The states a viewer goes through: the one [__init__] leaves, and those
    its methods lead to. *)
Inductive viewer_state : ViewerState -> Prop :=
  | vs_init conv total height width :
      viewer_state (ViewerState_init conv total height width)
  | vs_scroll op v :
      viewer_state v -> viewer_state (scroll op v)
  | vs_search q v :
      viewer_state v -> viewer_state (search q v)
  | vs_next v v' :
      viewer_state v -> next_search_result v = Some v' -> viewer_state v'
  | vs_prev v v' :
      viewer_state v -> prev_search_result v = Some v' -> viewer_state v'.

End ViewerSearch.

(** The empty query is pending: ["a"] typed and deleted again. *)
Definition pending_empty_query : EnhancedSearch :=
  press 0 ["a"; "BACKSPACE"] EnhancedSearch_init.

(** ["boom"] has been typed and is pending. *)
Definition pending_boom : EnhancedSearch :=
  press 0 ["b"; "o"; "o"; "m"] EnhancedSearch_init.

(** ["ab"] is searched (one result), then the query is taken back to ["a"]
    and searched (five results); the selection is moved down four times and
    ["b"] is typed again, so that ["ab"] is pending and still cached. *)
Definition pending_cached_ab : EnhancedSearch :=
  press 4000 ["DOWN"; "DOWN"; "DOWN"; "DOWN"; "b"]
    (type_and_search 2000 3000 ["BACKSPACE"]
       (type_and_search 0 1000 ["a"; "b"] EnhancedSearch_init)).

(** The keys and the worker steps of a session: ["a"] is typed and searched,
    the selection goes down four times, the query is deleted and the worker
    runs again. *)
Definition session_clearing_query : list event :=
  [UiKey "a"; UiTrigger 0; WorkerPoll 300; WorkerCompute; WorkerPublish;
   UiKey "DOWN"; UiKey "DOWN"; UiKey "DOWN"; UiKey "DOWN";
   UiKey "BACKSPACE"; UiTrigger 1000;
   WorkerPoll 1300; WorkerCompute; WorkerPublish].

(** A key arrives while the worker is searching: ["a"] is typed, the worker
    takes its snapshot and searches, ["b"] is typed, and only then the
    worker writes. *)
Definition session_typing_during_search : list event :=
  [UiKey "a"; UiTrigger 0; WorkerPoll 300; WorkerCompute;
   UiKey "b"; UiTrigger 350].

(** The state a session ends in (the initial state if it cannot run). *)
Definition state_after (evs : list event) : System :=
  match run demo_searcher evs System_init with
  | Some s => s
  | None => System_init
  end.

(** *** What holds in every state of the two threads *)

Section ThreadInvariant.

Variable searcher : string -> search_outcome.

(** The cache holds answers of the searcher, under non-empty keys. *)
Definition cache_sound (c : gmap string (list SearchResult)) : Prop :=
  forall k rs, c !! k = Some rs -> k <> "" /\ searcher k = Returned rs.

(** The branch taken fits the snapshot. *)
Definition pending_sound (q : string) (p : pending) : Prop :=
  match p with
  | PendEmpty => q = ""
  | PendCached => q <> ""
  | PendFresh rs => q <> "" /\ searcher q = Returned rs
  | PendFailed => q <> "" /\ exists msg, searcher q = Raised msg
  end.

(** The query is still the snapshot [q], or a new search is pending, or
    the controller is about to call [trigger_search]. *)
Definition rearmed (q : string) (s : System) : Prop :=
  query (search_state (app s)) = q
  \/ is_searching (search_state (app s)) = true
  \/ trigger_due s = true.

(** [snaps] are the snapshots taken so far. *)
Definition worker_sound (snaps : list string) (s : System) : Prop :=
  match worker s with
  | WIdle | WCrashed => True
  | WSnapshot q => last snaps = Some q /\ rearmed q s
  | WPublish q p => last snaps = Some q /\ rearmed q s /\ pending_sound q p
  end.

Definition thread_invariant (snaps : list string) (s : System) : Prop :=
  cache_sound (results_cache (app s)) /\ worker_sound snaps s.

End ThreadInvariant.

(** A burst of typing: ["a"] has just been typed; [trigger_search] runs at
    time 0, the worker polls, ["b"] is typed, [trigger_search] runs at time
    100, and the worker goes on polling every 50 ms. *)
Definition burst_start : System := state_after [UiKey "a"].

Definition burst_between : list event :=
  [WorkerPoll 50; UiKey "b"; WorkerPoll 100].

Definition burst_after : list event :=
  [WorkerPoll 150; WorkerPoll 200; WorkerPoll 250; WorkerPoll 300;
   WorkerPoll 350; WorkerPoll 400; WorkerCompute; WorkerPublish;
   WorkerPoll 450; WorkerPoll 500].

(** *** A small transcript and a small viewer *)

Definition user_message (text : string) : json :=
  JObject [("type", JString "user"); ("content", JString text)].

Definition assistant_message (text : string) : json :=
  JObject [("type", JString "assistant"); ("content", JString text)].

(** Five lines: a message, a line that is not JSON, a message, a line that
    holds the number 42, a message. *)
Definition transcript_with_number_line : list decoded :=
  [Decoded (user_message "How do I use decorators?");
   Malformed;
   Decoded (assistant_message "Decorators wrap functions.");
   Decoded (JNumber 42);
   Decoded (user_message "Thanks.")].

(** Ten formatted lines, two of them with the word ["needle"]. *)
Definition demo_lines : list string :=
  ["zero"; "one"; "two"; "three"; "four"; "a needle"; "six"; "seven";
   "needle again"; "nine"].

(** A viewer of these ten lines in a window of twenty. *)
Definition demo_viewer : ViewerState := ViewerState_init [] 10 20 80.

(** The same after [search("needle")]: the view has jumped to line 5. *)
Definition demo_viewer_found : ViewerState :=
  search contains demo_lines "needle" demo_viewer.

(** The same lines in a terminal of five rows: the viewport height is 0. *)
Definition flat_viewer : ViewerState := ViewerState_init [] 10 0 80.

(** The search index is within the results, and the view is on the line of
    that result. *)
Definition on_search_result (v : ViewerState) : Prop :=
  0 <= search_index v <= Py.len (search_results v) - 1
  /\ Py.index (search_results v) (search_index v) = Some (current_line v).

(** ["ab"] is typed and searched, the query is taken back to ["a"] and
    searched, the selection goes down four times, ["b"] is typed again and
    the worker serves ["ab"] from the cache. *)
Definition session_cached_requery : list event :=
  [UiKey "a"; UiTrigger 0; UiKey "b"; UiTrigger 10;
   WorkerPoll 400; WorkerCompute; WorkerPublish;
   UiKey "BACKSPACE"; UiTrigger 1000;
   WorkerPoll 1300; WorkerCompute; WorkerPublish;
   UiKey "DOWN"; UiKey "DOWN"; UiKey "DOWN"; UiKey "DOWN";
   UiKey "b"; UiTrigger 2000;
   WorkerPoll 2300; WorkerCompute; WorkerPublish].

(** ** Further definitions *)

(** The cursor is within the query. *)
Definition cursor_in_query (st : SearchState) : Prop :=
  0 <= cursor_pos st <= Py.str_len (query st).

(** The search state at the end of [session_cached_requery]: one result,
    with the selection left at 4. *)
Definition state_after_cached_requery_app : EnhancedSearch :=
  app (state_after session_cached_requery).

(** ["err"] is searched, the query is taken back to ["er"] and searched,
    ["r"] is typed again and the worker finds ["err"] in the cache; before
    it takes the lock to read it, ["o"] is typed. *)
Definition session_before_eviction : list event :=
  [UiKey "e"; UiTrigger 0; UiKey "r"; UiTrigger 1; UiKey "r"; UiTrigger 2;
   WorkerPoll 400; WorkerCompute; WorkerPublish;
   UiKey "BACKSPACE"; UiTrigger 1000;
   WorkerPoll 1400; WorkerCompute; WorkerPublish;
   UiKey "r"; UiTrigger 2000;
   WorkerPoll 2400; WorkerCompute;
   UiKey "o"].

(** *** Drawing the results *)

(** Modelled from the spec: [TerminalDisplay] is declared in
    [realtime_search.py], which is not among the sources.  Of a display
    [_draw_enhanced_results] reads [header_lines] and [last_result_count],
    writes [last_result_count], and calls [move_cursor] and [clear_line]. *)
Record TerminalDisplay : Type := mkDisplay {
  header_lines : Z;
  last_result_count : Z
}.

(** What goes to the terminal: the calls of the display, and the prints.
    [PrintMarker true] is the print of the selection glyph and
    [PrintMarker false] that of the two spaces, both without a newline;
    [PrintInfo bold r] is the line with date, project and score of [r], in
    bold for the selected row; [PrintPreview t] is the dimmed preview [t]
    followed by three dots. *)
Inductive term_op : Type :=
  | MoveCursor (row col : Z)
  | ClearLine
  | PrintLine (text : string)
  | PrintMarker (selected : bool)
  | PrintInfo (bold : bool) (r : SearchResult)
  | PrintPreview (text : string).

Inductive draw_result : Type :=
  | Drawn (ops : list term_op) (display : TerminalDisplay)
  | DrawRaised (exn : string) (ops : list term_op).

(** [range(n)] *)
Definition range (n : Z) : list Z :=
  List.map Z.of_nat (seq 0 (Z.to_nat n)).

(** [enumerate(l)], counting from [i]. *)
Fixpoint enumerate_from {A : Type} (i : Z) (l : list A) : list (Z * A) :=
  match l with
  | [] => []
  | x :: l' => (i, x) :: enumerate_from (i + 1) l'
  end.

Definition newline : ascii := ascii_of_nat 10.

(** [s.replace("\n", " ")] *)
Fixpoint replace_newlines (s : string) : string :=
  match s with
  | EmptyString => EmptyString
  | String c s' =>
      String (if Ascii.eqb c newline then " "%char else c)
             (replace_newlines s')
  end.

(** [result.context[:80].replace("\n", " ")] *)
Definition preview_text (r : SearchResult) : string :=
  replace_newlines (Py.slice_to (context r) 80).

(** The loop that clears the rows of the previous frame. *)
Definition clear_previous (preview_lines : Z) (d : TerminalDisplay)
  : list term_op :=
  List.flat_map
    (fun i => [MoveCursor (header_lines d + i + 1) 1; ClearLine])
    (range (last_result_count d + preview_lines + 2)).

(** The body of the loop over the results, for row [i] with result [r]. *)
Definition draw_row (header selected : Z) (preview : bool)
    (row : Z * SearchResult) : list term_op :=
  let '(i, r) := row in
  ([MoveCursor (header + i * 2 + 1) 1;
    PrintMarker (i =? selected);
    PrintInfo (i =? selected) r]
   ++ (if (i =? selected) && preview
       then [MoveCursor (header + i * 2 + 2) 4; PrintPreview (preview_text r)]
       else []))%list.

(** [_draw_enhanced_results]; [preview_lines] is [self.preview_lines].  The
    last statement reads [max_results], which is assigned only on the branch
    with results. *)
Definition draw_enhanced_results (preview_lines : Z) (d : TerminalDisplay)
    (es : EnhancedSearch) : draw_result :=
  let st := search_state es in
  let cleared := clear_previous preview_lines d in
  match results st with
  | [] =>
      DrawRaised "UnboundLocalError"
        (cleared
         ++ [MoveCursor (header_lines d + 1) 1;
             PrintLine
               (if String.eqb (query st) ""
                then "Start typing to search..."
                else "No results found for '" ++ query st ++ "'")])%list
  | _ :: _ =>
      let max_results := Z.min 10 (Py.len (results st)) in
      Drawn
        (cleared
         ++ List.flat_map
              (draw_row (header_lines d) (selected_index st) (show_preview es))
              (enumerate_from 0
                 (firstn (Z.to_nat max_results) (results st))))%list
        {| header_lines := header_lines d;
           last_result_count :=
             if show_preview es then max_results * 2 else max_results |}
  end.





(** *** Navigation between the views *)

Record NavigationState : Type := mkNavigationState {
  current_view : string;
  history : list string;
  selected_file : option string;
  viewer : option ViewerState
}.

(** [NavigationState()] after [__post_init__]. *)
Definition NavigationState_init : NavigationState :=
  {| current_view := "search"; history := ["search"];
     selected_file := None; viewer := None |}.

Definition push_view (view : string) (ns : NavigationState) : NavigationState :=
  {| current_view := view; history := (history ns ++ [view])%list;
     selected_file := selected_file ns; viewer := viewer ns |}.

(** [pop_view]: the state afterwards; the value returned is its
    [current_view].  [None] is the [IndexError] of [self.history[-1]]. *)
Definition pop_view (ns : NavigationState) : option NavigationState :=
  if 1 <? Py.len (history ns)
  then let h := removelast (history ns) in
       match Py.index h (-1) with
       | Some view =>
           Some {| current_view := view; history := h;
                   selected_file := selected_file ns; viewer := viewer ns |}
       | None => None
       end
  else Some ns.

Definition set_viewer (v : ViewerState) (ns : NavigationState)
  : NavigationState :=
  {| current_view := current_view ns; history := history ns;
     selected_file := selected_file ns; viewer := Some v |}.

(** What the prompt of the key ["/"] does, [print("\033[999;1H")] followed
    by [input("Search in conversation: ")]: it returns the line typed, or
    it raises ([EOFError] at the end of the input, [KeyboardInterrupt],
    an error of the terminal). *)
Inductive prompt : Type :=
  | Typed (line : string)
  | PromptRaised (exn : string).

(** How [handle_viewer_input] ends: with the state and the value returned,
    or with an exception that leaves the call, and the state at that
    moment. *)
Inductive key_result : Type :=
  | Handled (ns : NavigationState) (ret : option string)
  | KeyRaised (exn : string) (ns : NavigationState).

Section ViewerKeys.

Variable line_matches : string -> string -> bool.
Variable formatted_lines : list string.

(** [handle_viewer_input]; [reply] is what the prompt does on the key
    ["/"].  Nothing in the function catches an exception. *)
Definition handle_viewer_input (reply : prompt) (key : string)
    (ns : NavigationState) : key_result :=
  match viewer ns with
  | None => Handled ns (Some "search")
  | Some v =>
      if String.eqb key "q" || String.eqb key "ESC" then
        match pop_view ns with
        | Some ns' => Handled ns' (Some "search")
        | None => KeyRaised "IndexError" ns
        end
      else if String.eqb key "a" then
        Handled (push_view "actions" ns) (Some "actions")
      else if String.eqb key "j" || String.eqb key "DOWN" then
        Handled (set_viewer (scroll_down 1 v) ns) (Some "redraw")
      else if String.eqb key "k" || String.eqb key "UP" then
        Handled (set_viewer (scroll_up 1 v) ns) (Some "redraw")
      else if String.eqb key "g" then
        Handled (set_viewer (go_to_top v) ns) (Some "redraw")
      else if String.eqb key "G" then
        Handled (set_viewer (go_to_bottom v) ns) (Some "redraw")
      else if String.eqb key " " then
        Handled (set_viewer (page_down v) ns) (Some "redraw")
      else if String.eqb key "b" then
        Handled (set_viewer (page_up v) ns) (Some "redraw")
      else if String.eqb key "/" then
        match reply with
        | Typed typed =>
            Handled (set_viewer
                       (if String.eqb typed "" then v
                        else search line_matches formatted_lines typed v) ns)
                    (Some "redraw")
        | PromptRaised exn => KeyRaised exn ns
        end
      else if String.eqb key "n" then
        match next_search_result v with
        | Some v' => Handled (set_viewer v' ns) (Some "redraw")
        | None => KeyRaised "IndexError" ns
        end
      else if String.eqb key "N" then
        match prev_search_result v with
        | Some v' => Handled (set_viewer v' ns) (Some "redraw")
        | None => KeyRaised "IndexError" ns
        end
      else Handled ns None
  end.

End ViewerKeys.

(** *** The viewer, further *)

(** [next_search_result] ([d = 1]) or [prev_search_result] ([d = -1]) called
    [k] times in a row. *)
Fixpoint repeat_jump (d : Z) (k : nat) (v : ViewerState) : option ViewerState :=
  match k with
  | O => Some v
  | S k' =>
      match jump_search_result d v with
      | Some v' => repeat_jump d k' v'
      | None => None
      end
  end.

(** [range(a, b)] *)
Definition range_between (a b : Z) : list Z :=
  List.map (fun k => a + Z.of_nat k) (seq 0 (Z.to_nat (b - a))).

(** [i in l] for a list of integers. *)
Definition mem_Z (i : Z) (l : list Z) : bool := existsb (Z.eqb i) l.

(** [line[: width - 3] + "..."] when the line is wider than [width]. *)
Definition truncate_line (width : Z) (line : string) : string :=
  if width <? Py.str_len line
  then Py.slice_to line (width - 3) ++ "..."
  else line.

Section DrawContent.

(** [_highlight_search_match], as a function of the search query and the
    line; [draw] calls it only with a query that is not empty. *)
Variable highlight : string -> string -> string.

Variable formatted_lines : list string.

(** The body of the loop of [draw] over the lines of the viewport: what is
    printed for line [i]; [None] is the [IndexError] of
    [self.formatted_lines[i]]. *)
Definition draw_line (v : ViewerState) (i : Z) : option (list string) :=
  if i <? Py.len formatted_lines
  then match Py.index formatted_lines i with
       | Some line =>
           Some [truncate_line (viewport_width v)
                   (if negb (String.eqb (search_query v) "")
                       && mem_Z i (search_results v)
                    then highlight (search_query v) line
                    else line)]
       | None => None
       end
  else Some [].

Fixpoint draw_lines (v : ViewerState) (indices : list Z)
  : option (list string) :=
  match indices with
  | [] => Some []
  | i :: rest =>
      match draw_line v i with
      | Some shown =>
          match draw_lines v rest with
          | Some more => Some (shown ++ more)%list
          | None => None
          end
      | None => None
      end
  end.

(** What [draw] prints between the header and the footer: the lines of the
    viewport, then the empty lines that fill it. *)
Definition draw_content (v : ViewerState) : option (list string) :=
  let start_line := current_line v in
  let end_line := Z.min (start_line + viewport_height v) (total_lines v) in
  match draw_lines v (range_between start_line end_line) with
  | Some shown =>
      let lines_shown := end_line - start_line in
      Some (shown
            ++ List.repeat "" (Z.to_nat (viewport_height v - lines_shown)))%list
  | None => None
  end.

End DrawContent.

(** A highlighter that wraps the line in brackets. *)
Definition demo_highlight (q line : string) : string := "[" ++ line ++ "]".

(** A viewer of a hundred lines in a window of twenty, on line 40. *)
Definition demo_tall_viewer : ViewerState :=
  set_current_line 40 (ViewerState_init [] 100 20 80).

(** The ten demo lines in a window of four rows and eight columns, after a
    search for ["needle"], which has put the view on line 5. *)
Definition demo_small_window : ViewerState :=
  search contains demo_lines "needle" (ViewerState_init [] 10 4 8).

(** *** Loading, extracting and wrapping text *)

(** The turns of the loop before the first one that ends the loading. *)
Fixpoint before_end (lines : list decoded) : list decoded :=
  match lines with
  | [] => []
  | d :: rest =>
      match ends_loading d with
      | Some _ => []
      | None => d :: before_end rest
      end
  end.

(** The exception of the first turn that ends the loading. *)
Fixpoint first_exception (lines : list decoded) : option string :=
  match lines with
  | [] => None
  | d :: rest =>
      match ends_loading d with
      | Some exn => Some exn
      | None => first_exception rest
      end
  end.

Definition newline_string : string := String newline "".

(** What the loop of [_extract_content] appends for one item of a content
    list: the [text] of a block of type ["text"] (the empty string when the
    key is missing), or the item itself when it is a string. *)
Definition text_parts (item : json) : list json :=
  match item with
  | JObject fields =>
      match dict_get "type" fields with
      | Some (JString t) =>
          if String.eqb t "text"
          then [match dict_get "text" fields with
                | Some v => v
                | None => JString ""
                end]
          else []
      | _ => []
      end
  | JString s => [JString s]
  | _ => []
  end.

(** The strings of a list of values; [None] when one is not a string, where
    ["\n".join] raises [TypeError]. *)
Fixpoint strings_of (parts : list json) : option (list string) :=
  match parts with
  | [] => Some []
  | JString s :: rest =>
      match strings_of rest with
      | Some ss => Some (s :: ss)
      | None => None
      end
  | _ :: _ => None
  end.

(** [_extract_content] on an entry given by its fields; [None] is the
    [TypeError] of the join. *)
Definition extract_content (entry : list (string * json)) : option string :=
  match dict_get "content" entry with
  | Some (JString s) => Some s
  | _ =>
      match dict_get "message" entry with
      | Some (JObject msg) =>
          match match dict_get "content" msg with
                | Some c => c
                | None => JString ""
                end with
          | JArray items =>
              match strings_of (List.flat_map text_parts items) with
              | Some ss => Some (String.concat newline_string ss)
              | None => None
              end
          | JString s => Some s
          | _ => Some ""
          end
      | _ => Some ""
      end
  end.

Definition is_string (v : json) : bool :=
  match v with JString _ => true | _ => false end.




(** [s * n] for strings. *)
Fixpoint repeat_string (s : string) (n : nat) : string :=
  match n with
  | O => ""
  | S n' => s ++ repeat_string s n'
  end.

Definition str_mul (s : string) (n : Z) : string := repeat_string s (Z.to_nat n).

(** [c.isspace()] for a character below 256. *)
Definition is_space (c : ascii) : bool :=
  let n := Z.of_nat (nat_of_ascii c) in
  ((9 <=? n) && (n <=? 13)) || ((28 <=? n) && (n <=? 32))
  || (n =? 133) || (n =? 160).

Definition flush_word (cur : string) : list string :=
  if String.eqb cur "" then [] else [cur].

(** [s.split()], with the word read so far in [cur]. *)
Fixpoint split_ws_from (cur : string) (s : string) : list string :=
  match s with
  | EmptyString => flush_word cur
  | String c rest =>
      if is_space c
      then (flush_word cur ++ split_ws_from "" rest)%list
      else split_ws_from (cur ++ String c "") rest
  end.

Definition split_ws (s : string) : list string := split_ws_from "" s.

(** [s.split("\n")], with the line read so far in [cur]. *)
Fixpoint split_lines_from (cur : string) (s : string) : list string :=
  match s with
  | EmptyString => [cur]
  | String c rest =>
      if Ascii.eqb c newline
      then cur :: split_lines_from "" rest
      else split_lines_from (cur ++ String c "") rest
  end.

Definition split_lines (s : string) : list string := split_lines_from "" s.

(** The loop of [_wrap_text] over the words of a paragraph, with the line
    built so far in [current_line], and the flush after the loop. *)
Fixpoint wrap_words (max_width indent : Z) (words : list string)
    (current_line : string) : list string :=
  match words with
  | [] =>
      if String.eqb current_line "" then []
      else [str_mul " " indent ++ current_line]
  | word :: rest =>
      if Py.str_len current_line + Py.str_len word + 1 <=? max_width
      then wrap_words max_width indent rest
             (if String.eqb current_line "" then word
              else current_line ++ " " ++ word)
      else ((if String.eqb current_line "" then []
             else [(str_mul " " indent ++ current_line)%string])
            ++ wrap_words max_width indent rest word)%list
  end.

Definition wrap_paragraph (max_width indent : Z) (paragraph : string)
  : list string :=
  if String.eqb paragraph "" then [""]
  else wrap_words max_width indent (split_ws paragraph) "".

(** [_wrap_text] for a viewport of the given width. *)
Definition wrap_text (viewport_width indent : Z) (text : string) : list string :=
  List.flat_map (wrap_paragraph (viewport_width - indent - 2) indent)
                (split_lines text).

(** [print_centered] of [interactive_ui.py]: the line printed. *)
Definition print_centered (terminal_width : Z) (text char : string) : string :=
  let padding := (terminal_width - Py.str_len text - 2) / 2 in
  str_mul char padding ++ " " ++ text ++ " " ++ str_mul char padding.

(** A word has a character and no white space. *)
Fixpoint no_space (s : string) : bool :=
  match s with
  | EmptyString => true
  | String c rest => negb (is_space c) && no_space rest
  end.

Definition is_word (s : string) : bool :=
  negb (String.eqb s "") && no_space s.

(** *** Further sessions *)

(** ["ab"] has been searched (one result) and the query taken back to
    ["a"], which is pending; the cache still holds ["ab"]. *)
Definition pending_requery : EnhancedSearch :=
  press 1000 ["BACKSPACE"]
    (type_and_search 0 400 ["a"; "b"] EnhancedSearch_init).

(** ["a"] is typed and searched (five results), the selection goes down
    four times, the query is deleted and ["boom"] is typed, on which the
    searcher raises; the worker runs its cycle. *)
Definition session_search_error : list event :=
  [UiKey "a"; UiTrigger 0; WorkerPoll 300; WorkerCompute; WorkerPublish;
   UiKey "DOWN"; UiKey "DOWN"; UiKey "DOWN"; UiKey "DOWN";
   UiKey "BACKSPACE"; UiTrigger 1000;
   UiKey "b"; UiTrigger 1010; UiKey "o"; UiTrigger 1020;
   UiKey "o"; UiTrigger 1030; UiKey "m"; UiTrigger 1040;
   WorkerPoll 1340; WorkerCompute; WorkerPublish].

(** As [demo_searcher], but a search for ["x"] ends the interpreter:
    [SystemExit] is not an [Exception]. *)
Definition exiting_searcher (q : string) : search_outcome :=
  if String.eqb q "x" then Escaped "SystemExit" else demo_searcher q.

(** ["a"] is typed and searched, the query is deleted and ["x"] is typed;
    the worker starts its cycle and calls the searcher. *)
Definition session_search_exit : list event :=
  [UiKey "a"; UiTrigger 0; WorkerPoll 300; WorkerCompute; WorkerPublish;
   UiKey "BACKSPACE"; UiTrigger 1000; UiKey "x"; UiTrigger 1010;
   WorkerPoll 1310; WorkerCompute].

(** ["ab"] is searched and the query taken back to ["a"]; while the worker
    searches ["a"], ["b"] is typed again, and the worker writes the
    results of ["a"] under the query ["ab"].  Its next cycle finds ["ab"]
    in the cache; before it reads the entry, ["c"] is typed. *)
Definition session_stale_then_dead : list event :=
  [UiKey "a"; UiTrigger 0; UiKey "b"; UiTrigger 10;
   WorkerPoll 400; WorkerCompute; WorkerPublish;
   UiKey "BACKSPACE"; UiTrigger 1000;
   WorkerPoll 1300; WorkerCompute;
   UiKey "b"; UiTrigger 1350;
   WorkerPublish;
   WorkerPoll 1650; WorkerCompute;
   UiKey "c"; UiTrigger 1700;
   WorkerPublish].

(** The queries for which the searcher has been called, in order. *)
Definition search_calls (l : list effect) : list string :=
  List.flat_map (fun e => match e with SearchCall q => [q] | _ => [] end) l.

(** The calls of the searcher that one cycle for [q] makes when the cache
    is [c] at its start: one, unless the query is empty or cached. *)
Definition calls_of_cycle (q : string) (c : gmap string (list SearchResult))
  : list string :=
  if String.eqb q "" then []
  else match c !! q with Some _ => [] | None => [q] end.

(** How far a worker that nothing interferes with has got with the one
    cycle that the state [es], with its search pending, lets it run:
    [started] tells whether that cycle has begun; [pc] is where the worker
    is and [es'] the state it has reached. *)
Definition cycle_stage (searcher : string -> search_outcome)
    (es : EnhancedSearch) (started : bool) (pc : worker_pc)
    (es' : EnhancedSearch) : Prop :=
  let q := query (search_state es) in
  let es1 := with_state clear_is_searching es in
  match pc with
  | WIdle =>
      if started
      then exists p es2,
             compute searcher q es1 = (Ready p, es2)
             /\ publish q p es2 = Return true es'
      else es' = es
  | WSnapshot q' => started = true /\ q' = q /\ es' = es1
  | WPublish q' p =>
      started = true /\ q' = q /\ compute searcher q es1 = (Ready p, es')
  | WCrashed =>
      started = true
      /\ exists exn, compute searcher q es1 = (Uncaught exn, es')
  end.

(** "If the query changes twice within the debounce window, exactly one
    search executes, for the value the query has when the window has
    elapsed": from the first of two calls of [trigger_search] that are
    less than the delay apart, the searcher is called at most once, and
    only for the query that the second call left. *)
Definition one_search_per_window (searcher : string -> search_outcome)
  : Prop :=
  forall (s s_end : System) (t1 t2 : Z) (between after : list event),
    t2 < t1 + debounce_delay ->
    forallb (fun e => negb (is_ui_trigger e)) between = true ->
    Forall (polled_by t2) between ->
    forallb is_worker_event after = true ->
    existsb (is_poll_from (t2 + debounce_delay)) after = true ->
    run searcher (UiTrigger t1 :: between ++ UiTrigger t2 :: after) s
    = Some s_end ->
    exists s2 calls,
      run searcher (UiTrigger t1 :: between ++ [UiTrigger t2]) s = Some s2
      /\ search_calls (worker_log (app s_end))
         = (search_calls (worker_log (app s)) ++ calls)%list
      /\ (calls = [] \/ calls = [query (search_state (app s2))]).

(** ["a"] is typed and triggered; ["b"] is typed, and before its
    [trigger_search] runs the worker polls, the delay since the first
    trigger having passed: it takes ["ab"] as its snapshot. *)
Definition session_poll_before_trigger : list event :=
  [UiKey "a"; UiTrigger 0; UiKey "b"; WorkerPoll 300].

(** Then [trigger_search] runs for ["b"] at 310, the worker searches and
    writes, ["c"] is typed and triggered at 400, and the worker runs the
    cycle that follows. *)
Definition window_between : list event :=
  [WorkerCompute; WorkerPublish; UiKey "c"].

Definition window_after : list event :=
  [WorkerPoll 700; WorkerCompute; WorkerPublish].

(** * Properties *)

(** ** The search cache *)

Section CacheFacts.

Implicit Types (c : gmap string (list SearchResult)) (k q : string).

Lemma lookup_delete_keys ks c k :
  delete_keys ks c !! k = if decide (k ∈ ks) then None else c !! k.
Proof.
  unfold delete_keys. revert c.
  induction ks as [|k0 ks IH]; intros c; simpl.
  - done.
  - rewrite IH. destruct (decide (k = k0)) as [->|Hne].
    + rewrite lookup_delete_eq.
      rewrite (decide_True (P := k0 ∈ k0 :: ks)); [|by constructor].
      by destruct (decide (k0 ∈ ks)).
    + rewrite lookup_delete_ne by done.
      destruct (decide (k ∈ ks)) as [Hin|Hin].
      * rewrite decide_True; [done | by constructor].
      * rewrite decide_False; [done|].
        intros [Heq|Hin']%elem_of_cons; contradiction.
Qed.

Lemma elem_of_keys_to_remove q c k :
  k ∈ keys_to_remove q c <-> Py.startswith k q = false /\ is_Some (c !! k).
Proof.
  unfold keys_to_remove.
  rewrite list_elem_of_In, filter_In, <- list_elem_of_In, negb_true_iff.
  rewrite list_elem_of_fmap. split.
  - intros [[[k' rs] [-> Hin]] Hpre]. simpl in *.
    apply elem_of_map_to_list in Hin. eauto.
  - intros [Hpre [rs Hrs]]. split; [|done].
    exists (k, rs). split; [done|]. by apply elem_of_map_to_list.
Qed.

Lemma lookup_trigger_search now es k :
  results_cache (trigger_search now es) !! k
  = if Py.startswith k (query (search_state es))
    then results_cache es !! k else None.
Proof.
  unfold trigger_search. simpl. rewrite lookup_delete_keys.
  case_decide as Hin.
  - apply elem_of_keys_to_remove in Hin as [-> _]. done.
  - destruct (Py.startswith k (query (search_state es))) eqn:Hpre; [done|].
    destruct (results_cache es !! k) as [rs|] eqn:Hk; [|done].
    exfalso. apply Hin, elem_of_keys_to_remove. eauto.
Qed.

End CacheFacts.

(** C1, as the code has it.  After [trigger_search] the cache holds exactly
    the entries whose key starts with the new query, each with the value it
    had: the new query is a prefix of every key kept, and every key that
    does not extend the new query is dropped.  So an entry for ["error"]
    survives the change of the query to ["err"], and an entry for ["err"]
    is dropped when the query becomes ["erro"]. *)
Theorem trigger_search_keeps_extensions_of_query :
  forall (now : Z) (es : EnhancedSearch) (k : string),
    results_cache (trigger_search now es) !! k
    = if String.prefix (query (search_state es)) k
      then results_cache es !! k else None.
Proof. intros now es k. apply lookup_trigger_search. Qed.

(** C1 as stated fails: keeping the keys that are a prefix of the new query
    is not what [trigger_search] does.  With ["error"] searched and the
    query taken back to ["err"], the entry for ["error"] is still there;
    with ["err"] searched and ["o"] typed, the entry for ["err"] is gone. *)
Lemma cache_keeps_prefixes_of_query_fails :
  ~ (forall (now : Z) (es : EnhancedSearch) (k : string),
       results_cache (trigger_search now es) !! k
       = if String.prefix k (query (search_state es))
         then results_cache es !! k else None)
  /\ (query (search_state (press 2000 ["BACKSPACE"; "BACKSPACE"] searched_error))
      = "err"
      /\ is_Some (results_cache
                    (press 2000 ["BACKSPACE"; "BACKSPACE"] searched_error)
                  !! "error"))
  /\ (is_Some (results_cache searched_err !! "err")
      /\ query (search_state (press 2000 ["o"] searched_err)) = "erro"
      /\ results_cache (press 2000 ["o"] searched_err) !! "err" = None).
Proof.
  split; [|split].
  - intros Hclaim.
    specialize
      (Hclaim 2000
         (fst (fst (key_effect "BACKSPACE"
                               (press 2000 ["BACKSPACE"] searched_error))))
         "error").
    rewrite lookup_trigger_search in Hclaim.
    vm_compute in Hclaim. discriminate.
  - split; [reflexivity|]. vm_compute. eauto.
  - split; [vm_compute; eauto|]. split; reflexivity.
Qed.

(** ** One worker cycle, run without interference *)

Section WorkerCycle.

Variable searcher : string -> search_outcome.

(** The first locked block starts a cycle exactly when a search is pending
    and the debounce delay has passed. *)
Lemma begin_request_Some now es q es1 :
  begin_request now es = Some (q, es1)
  <-> is_searching (search_state es) = true
      /\ debounce_delay <= now - last_update (search_state es)
      /\ q = query (search_state es)
      /\ es1 = with_state clear_is_searching es.
Proof.
  unfold begin_request.
  destruct (is_searching (search_state es)); simpl.
  - destruct (Z.ltb_spec (now - last_update (search_state es)) debounce_delay).
    + split; [discriminate|]. intros (_ & ? & _). lia.
    + split.
      * intros [= <- <-]. auto.
      * intros (_ & _ & -> & ->). reflexivity.
  - split; [discriminate|]. intros (? & _). discriminate.
Qed.

Lemma begin_request_due now es :
  is_searching (search_state es) = true ->
  debounce_delay <= now - last_update (search_state es) ->
  begin_request now es
  = Some (query (search_state es), with_state clear_is_searching es).
Proof. intros Hs Hd. apply begin_request_Some. auto. Qed.

(** The three ways through the code between the locked blocks. *)
Lemma compute_cases q es :
  (q = "" /\ compute searcher q es = (Ready PendEmpty, es))
  \/ (q <> ""
      /\ is_Some (results_cache es !! q)
      /\ compute searcher q es = (Ready PendCached, log (CacheProbe q) es))
  \/ (q <> ""
      /\ results_cache es !! q = None
      /\ compute searcher q es
         = let es2 := log (SearchCall q) (log (CacheProbe q) es) in
           match searcher q with
           | Returned rs =>
               (Ready (PendFresh rs),
                log (CacheStore q)
                    (with_cache (<[q := rs]> (results_cache es)) es2))
           | Raised msg =>
               (Ready PendFailed,
                log (Printed ("Search error: " ++ msg)) es2)
           | Escaped exn => (Uncaught exn, es2)
           end).
Proof.
  unfold compute. destruct (String.eqb_spec q "") as [->|Hq]; [by left|].
  right. cbn [log results_cache].
  destruct (results_cache es !! q) as [rs|] eqn:Hlook.
  - left. eauto.
  - right. split; [done|]. split; [done|]. by destruct (searcher q).
Qed.

Lemma compute_cache_hit q es c es1 :
  compute searcher q es = (c, es1) ->
  c = Ready PendCached ->
  is_Some (results_cache es1 !! q).
Proof.
  destruct (compute_cases q es)
    as [(_ & ->)|[(_ & Hhit & ->)|(_ & _ & ->)]].
  - intros [= <- <-]; discriminate.
  - intros [= <- <-] _. exact Hhit.
  - cbn zeta. destruct (searcher q); intros [= <- <-]; discriminate.
Qed.

(** A call that finds a search pending and the delay passed goes on to
    compute and publish. *)
Lemma process_due now es :
  is_searching (search_state es) = true ->
  debounce_delay <= now - last_update (search_state es) ->
  process_search_request searcher now es
  = match compute searcher (query (search_state es))
            (with_state clear_is_searching es) with
    | (Ready p, es2) => publish (query (search_state es)) p es2
    | (Uncaught exn, es2) => Propagate exn es2
    end.
Proof.
  intros Hs Hd. unfold process_search_request.
  by rewrite begin_request_due.
Qed.

(** A call that finds no search pending, or the delay not passed, returns
    [False] and changes nothing. *)
Lemma process_not_due now es :
  is_searching (search_state es) = false
  \/ now - last_update (search_state es) < debounce_delay ->
  process_search_request searcher now es = Return false es.
Proof.
  intros Hno. unfold process_search_request, begin_request.
  destruct (is_searching (search_state es)); [|done]. simpl.
  destruct (Z.ltb_spec (now - last_update (search_state es)) debounce_delay);
    [done|].
  destruct Hno; [discriminate|lia].
Qed.

(** What was computed can be published: the key probed is still there. *)
Lemma computed_cycle_returns q es1 p es2 :
  compute searcher q es1 = (Ready p, es2) ->
  exists es', publish q p es2 = Return true es'.
Proof.
  intros Hc. pose proof (compute_cache_hit _ _ _ _ Hc) as Hhit.
  destruct p; simpl; eauto.
  destruct (Hhit eq_refl) as [rs Hrs]. rewrite Hrs. eauto.
Qed.

(** The only exception that leaves the code between the locked blocks is
    one of the searcher that escapes, for a query that is neither empty
    nor cached; the state is then as it was, but for the record of the
    probe and the call. *)
Lemma compute_uncaught q es exn es2 :
  compute searcher q es = (Uncaught exn, es2) ->
  q <> "" /\ results_cache es !! q = None /\ searcher q = Escaped exn
  /\ es2 = log (SearchCall q) (log (CacheProbe q) es).
Proof.
  destruct (compute_cases q es)
    as [(_ & ->)|[(_ & _ & ->)|(Hq & Hnone & ->)]]; try discriminate.
  cbn zeta. destruct (searcher q); intros [= <- <-]; auto.
Qed.

End WorkerCycle.

(** C8.  When the worker picks up a pending search and the snapshot of the
    query is the empty string, the call returns [True] with the results set
    to the empty list; the searcher is not called and the cache is neither
    probed nor changed: nothing is added to the record of the worker's
    effects, and the outcome is the same whatever the searcher is. *)
Theorem empty_query_clears_results_without_search :
  forall (searcher : string -> search_outcome) (now : Z) (es : EnhancedSearch),
    is_searching (search_state es) = true ->
    debounce_delay <= now - last_update (search_state es) ->
    query (search_state es) = "" ->
    exists es',
      process_search_request searcher now es = Return true es'
      /\ results (search_state es') = []
      /\ is_searching (search_state es') = false
      /\ worker_log es' = worker_log es
      /\ results_cache es' = results_cache es
      /\ forall other : string -> search_outcome,
           process_search_request other now es = Return true es'.
Proof.
  intros searcher now es Hs Hd Hq.
  exists (with_state (set_results []) (with_state clear_is_searching es)).
  assert (Hrun : forall f, process_search_request f now es
            = Return true (with_state (set_results [])
                                      (with_state clear_is_searching es))).
  { intros f. unfold process_search_request.
    rewrite begin_request_due by assumption.
    rewrite Hq. reflexivity. }
  repeat split; auto.
Qed.

Lemma empty_query_clears_results_without_search_witness :
  query (search_state pending_empty_query) = ""
  /\ exists es',
       process_search_request demo_searcher 300 pending_empty_query
       = Return true es'
       /\ results (search_state es') = []
       /\ is_searching (search_state es') = false
       /\ worker_log es' = worker_log pending_empty_query
       /\ results_cache es' = results_cache pending_empty_query
       /\ forall other : string -> search_outcome,
            process_search_request other 300 pending_empty_query
            = Return true es'.
Proof.
  split; [reflexivity|].
  apply (empty_query_clears_results_without_search demo_searcher 300
           pending_empty_query).
  - reflexivity.
  - vm_compute. discriminate.
  - reflexivity.
Defined.

Section SearchError.

Variable searcher : string -> search_outcome.

(** The cycle of a query on which the searcher raises an exception that
    the handler catches: the call returns [True], the message is printed,
    the results become the empty list and the pending flag is cleared;
    every other field of the state, the selection among them, and the
    cache are as before. *)
Lemma caught_exception_clears_results now es msg :
  is_searching (search_state es) = true ->
  debounce_delay <= now - last_update (search_state es) ->
  query (search_state es) <> "" ->
  results_cache es !! query (search_state es) = None ->
  searcher (query (search_state es)) = Raised msg ->
  exists es',
    process_search_request searcher now es = Return true es'
    /\ search_state es'
       = set_results [] (clear_is_searching (search_state es))
    /\ selected_index (search_state es') = selected_index (search_state es)
    /\ results_cache es' = results_cache es
    /\ worker_log es'
       = (worker_log es
          ++ [CacheProbe (query (search_state es));
              SearchCall (query (search_state es));
              Printed ("Search error: " ++ msg)])%list.
Proof.
  intros Hs Hd Hq Hc Hraise. rewrite (process_due searcher) by assumption.
  destruct (compute_cases searcher (query (search_state es))
              (with_state clear_is_searching es))
    as [(He & _)|[(_ & [rs Hhit] & _)|(_ & _ & ->)]].
  - contradiction.
  - simpl in Hhit. congruence.
  - rewrite Hraise. cbn zeta. eexists. split; [reflexivity|].
    cbn. repeat split. by rewrite <- !app_assoc.
Qed.

(** The cycle of a query for which the exception of the searcher escapes:
    the call raises, with the results as they were and the pending flag
    cleared, and [search_worker] ends there. *)
Lemma escaping_exception_ends_worker now es exn polls :
  is_searching (search_state es) = true ->
  debounce_delay <= now - last_update (search_state es) ->
  query (search_state es) <> "" ->
  results_cache es !! query (search_state es) = None ->
  searcher (query (search_state es)) = Escaped exn ->
  exists es',
    process_search_request searcher now es = Propagate exn es'
    /\ search_state es' = clear_is_searching (search_state es)
    /\ results_cache es' = results_cache es
    /\ search_worker searcher (now :: polls) es = Died exn es'.
Proof.
  intros Hs Hd Hq Hc Hesc. cbn [search_worker].
  rewrite (process_due searcher) by assumption.
  destruct (compute_cases searcher (query (search_state es))
              (with_state clear_is_searching es))
    as [(He & _)|[(_ & [rs Hhit] & _)|(_ & _ & ->)]].
  - contradiction.
  - simpl in Hhit. congruence.
  - rewrite Hesc. cbn zeta. eexists. split; [reflexivity|]. auto.
Qed.

End SearchError.

(** C4 at the failing inputs.  In [session_search_error] the searcher
    raises on ["boom"]; the handler catches the exception and prints it,
    the results become the empty list and the worker is idle again, but
    the selection is still 4, outside its bound, and the next frame cannot
    be drawn: [_draw_enhanced_results] raises on the empty results.  The
    selection is left alone whenever the handler runs.  In
    [session_search_exit] the exception is not one that
    [except Exception] catches: the worker thread ends with the five
    results of ["a"] still shown for the query ["x"], nothing pending and
    no worker step possible any more. *)
Theorem searcher_exception_leaves_state_inconsistent :
  (exists s,
     run demo_searcher session_search_error System_init = Some s
     /\ query (search_state (app s)) = "boom"
     /\ demo_searcher "boom" = Raised "boom"
     /\ worker s = WIdle
     /\ last (worker_log (app s)) = Some (Printed "Search error: boom")
     /\ results (search_state (app s)) = []
     /\ selected_index (search_state (app s)) = 4
     /\ ~ selection_in_bounds (search_state (app s))
     /\ forall (preview_lines : Z) (d : TerminalDisplay),
          exists ops,
            draw_enhanced_results preview_lines d (app s)
            = DrawRaised "UnboundLocalError" ops)
  /\ (forall (searcher : string -> search_outcome) (now : Z)
             (es : EnhancedSearch) (msg : string),
        is_searching (search_state es) = true ->
        debounce_delay <= now - last_update (search_state es) ->
        query (search_state es) <> "" ->
        results_cache es !! query (search_state es) = None ->
        searcher (query (search_state es)) = Raised msg ->
        exists es',
          process_search_request searcher now es = Return true es'
          /\ results (search_state es') = []
          /\ selected_index (search_state es')
             = selected_index (search_state es))
  /\ (exists s,
        run exiting_searcher session_search_exit System_init = Some s
        /\ query (search_state (app s)) = "x"
        /\ exiting_searcher "x" = Escaped "SystemExit"
        /\ worker s = WCrashed
        /\ List.length (results (search_state (app s))) = 5%nat
        /\ is_searching (search_state (app s)) = false
        /\ forall e, is_worker_event e = true ->
                     step exiting_searcher e s = None).
Proof.
  split; [|split].
  - eexists. split; [vm_compute; reflexivity|].
    repeat (split; [reflexivity|]).
    split; [unfold selection_in_bounds; simpl; discriminate|].
    intros preview_lines d. eexists. reflexivity.
  - intros searcher now es msg Hs Hd Hq Hc Hraise.
    destruct (caught_exception_clears_results searcher now es msg)
      as (es' & Hret & Hst & Hsel & _); try assumption.
    exists es'. split; [exact Hret|]. split; [by rewrite Hst|exact Hsel].
  - eexists. split; [vm_compute; reflexivity|].
    repeat (split; [reflexivity|]).
    intros [key|t|t| |] He; try discriminate; reflexivity.
Qed.

(** ** The selection after a worker cycle *)

Section Selection.

Variable searcher : string -> search_outcome.

(** A cycle that calls the searcher and gets an answer resets the
    selection. *)
Lemma fresh_search_resets_selection now es rs :
  is_searching (search_state es) = true ->
  debounce_delay <= now - last_update (search_state es) ->
  query (search_state es) <> "" ->
  results_cache es !! query (search_state es) = None ->
  searcher (query (search_state es)) = Returned rs ->
  exists es',
    process_search_request searcher now es = Return true es'
    /\ results (search_state es') = rs
    /\ selected_index (search_state es') = 0.
Proof.
  intros Hs Hd Hq Hc Hret.
  unfold process_search_request.
  rewrite begin_request_due by assumption.
  unfold compute.
  destruct (String.eqb_spec (query (search_state es)) "") as [He|_];
    [contradiction|].
  simpl. rewrite Hc, Hret. simpl. eauto.
Qed.

(** A cycle served from the cache writes the cached list and leaves the
    selection where it was. *)
Lemma cache_hit_keeps_selection now es rs :
  is_searching (search_state es) = true ->
  debounce_delay <= now - last_update (search_state es) ->
  query (search_state es) <> "" ->
  results_cache es !! query (search_state es) = Some rs ->
  exists es',
    process_search_request searcher now es = Return true es'
    /\ results (search_state es') = rs
    /\ selected_index (search_state es') = selected_index (search_state es)
    /\ results_cache es' = results_cache es.
Proof.
  intros Hs Hd Hq Hc.
  unfold process_search_request.
  rewrite begin_request_due by assumption.
  unfold compute.
  destruct (String.eqb_spec (query (search_state es)) "") as [He|_];
    [contradiction|].
  simpl. rewrite Hc. simpl. rewrite Hc. eauto.
Qed.

Lemma key_effect_up es :
  key_effect "UP" es
  = if nonempty (results (search_state es))
    then (with_state
            (set_selected_index
               (Z.max 0 (selected_index (search_state es) - 1))) es,
          false, Some Redraw)
    else (es, false, None).
Proof. reflexivity. Qed.

Lemma key_effect_down es :
  key_effect "DOWN" es
  = if nonempty (results (search_state es))
    then (with_state
            (set_selected_index
               (Z.min (Z.min 9 (Py.len (results (search_state es)) - 1))
                      (selected_index (search_state es) + 1))) es,
          false, Some Redraw)
    else (es, false, None).
Proof. reflexivity. Qed.

(** [UP] and [DOWN] keep a selection that is within the bound within it. *)
Lemma up_down_keep_selection_in_bounds key es :
  key = "UP" \/ key = "DOWN" ->
  selection_in_bounds (search_state es) ->
  selection_in_bounds (search_state (fst (fst (key_effect key es)))).
Proof.
  unfold selection_in_bounds.
  intros [-> | ->]; [rewrite key_effect_up | rewrite key_effect_down];
    destruct (results (search_state es)) as [|r rs] eqn:Hr; simpl;
    rewrite Hr; try done; unfold Py.len; simpl length; lia.
Qed.

End Selection.

(** C5 at the failing input.  With ["ab"] pending and cached and the
    selection at 4, the worker cycle is served from the cache: the searcher
    is not called, the single cached result is written, and the selection
    stays at 4 instead of going back to 0. *)
Theorem cache_hit_cycle_leaves_selected_index :
  query (search_state pending_cached_ab) = "ab"
  /\ selected_index (search_state pending_cached_ab) = 4
  /\ exists es',
       process_search_request demo_searcher 4300 pending_cached_ab
       = Return true es'
       /\ worker_log es'
          = (worker_log pending_cached_ab
             ++ [CacheProbe "ab"; CacheRead "ab"])%list
       /\ results (search_state es')
          = [mkResult "demo.jsonl" "human" "abacus" ""]
       /\ selected_index (search_state es') = 4.
Proof.
  split; [reflexivity|]. split; [reflexivity|].
  eexists. split; [vm_compute; reflexivity|].
  split; [reflexivity|]. split; reflexivity.
Qed.

(** C6 at the failing inputs.  Both sessions run from the initial state.
    At the end of [session_clearing_query] the results are empty and the
    selection is still 4; at the end of [session_cached_requery] there is
    one result, written from the cache, and the selection is still 4.  In
    both states the selection is outside the bound. *)
Theorem worker_cycles_leave_selection_out_of_bounds :
  (exists s,
     run demo_searcher session_clearing_query System_init = Some s
     /\ results (search_state (app s)) = []
     /\ selected_index (search_state (app s)) = 4
     /\ ~ selection_in_bounds (search_state (app s)))
  /\ (exists s,
        run demo_searcher session_cached_requery System_init = Some s
        /\ results (search_state (app s))
           = [mkResult "demo.jsonl" "human" "abacus" ""]
        /\ selected_index (search_state (app s)) = 4
        /\ ~ selection_in_bounds (search_state (app s))).
Proof.
  split.
  - eexists. split; [vm_compute; reflexivity|].
    split; [reflexivity|]. split; [reflexivity|].
    unfold selection_in_bounds. simpl. discriminate.
  - eexists. split; [vm_compute; reflexivity|].
    split; [reflexivity|]. split; [reflexivity|].
    unfold selection_in_bounds. simpl. unfold Py.len. simpl. lia.
Qed.

(** ** The two threads side by side *)

Section KeyEffect.

(** A key changes neither the cache nor the pending flag nor the time of
    the last update, and it changes the query only when [trigger_search]
    is called next. *)
Lemma key_effect_frame key es es1 triggers ret :
  key_effect key es = (es1, triggers, ret) ->
  results_cache es1 = results_cache es
  /\ worker_log es1 = worker_log es
  /\ is_searching (search_state es1) = is_searching (search_state es)
  /\ last_update (search_state es1) = last_update (search_state es)
  /\ (triggers = false ->
      query (search_state es1) = query (search_state es)).
Proof.
  unfold key_effect. intros Hk.
  repeat case_match; simplify_eq; simpl; auto 10; repeat split; discriminate.
Qed.

Lemma trigger_search_state now es :
  search_state (trigger_search now es)
  = set_pending now true (search_state es).
Proof. reflexivity. Qed.

End KeyEffect.

Section Interleavings.

Variable searcher : string -> search_outcome.

Lemma cache_sound_trigger_search now es :
  cache_sound searcher (results_cache es) ->
  cache_sound searcher (results_cache (trigger_search now es)).
Proof.
  intros Hc k rs. rewrite lookup_trigger_search.
  destruct (Py.startswith k _); [apply Hc | discriminate].
Qed.

Lemma compute_sound q es c es1 :
  compute searcher q es = (c, es1) ->
  cache_sound searcher (results_cache es) ->
  search_state es1 = search_state es
  /\ cache_sound searcher (results_cache es1)
  /\ match c with
     | Ready p => pending_sound searcher q p
     | Uncaught exn => searcher q = Escaped exn
     end.
Proof.
  unfold compute. destruct (String.eqb_spec q "") as [->|Hq].
  - intros [= <- <-] Hc. split; [|split]; done.
  - simpl. destruct (results_cache es !! q) as [rs|] eqn:Hlook.
    + intros [= <- <-] Hc. split; [|split]; done.
    + destruct (searcher q) as [rs|msg|exn] eqn:Hs; intros [= <- <-] Hc; simpl.
      * split; [|split]; [done| |done].
        intros k rs'. rewrite lookup_insert. case_decide as Hk.
        -- intros [= <-]. subst k. auto.
        -- apply Hc.
      * split; [|split]; [done|done|]. split; eauto.
      * split; [|split]; done.
Qed.

Lemma publish_sound q p es :
  cache_sound searcher (results_cache es) ->
  pending_sound searcher q p ->
  match publish q p es with
  | Return _ es1 =>
      results (search_state es1) = search_result_for searcher q
      /\ query (search_state es1) = query (search_state es)
      /\ is_searching (search_state es1) = is_searching (search_state es)
      /\ results_cache es1 = results_cache es
  | Propagate _ es1 =>
      search_state es1 = search_state es
      /\ results_cache es1 = results_cache es
  end.
Proof.
  intros Hc Hp. unfold search_result_for.
  destruct p as [| |rs|]; simpl in *.
  - subst q. auto.
  - destruct (results_cache es !! q) as [rs|] eqn:Hlook; simpl; [|auto].
    destruct (Hc _ _ Hlook) as [Hq Hs]. rewrite Hs.
    destruct (String.eqb_spec q ""); [contradiction|auto].
  - destruct Hp as [Hq Hs]. rewrite Hs.
    destruct (String.eqb_spec q ""); [contradiction|auto].
  - destruct Hp as [Hq [msg Hs]]. rewrite Hs.
    destruct (String.eqb_spec q ""); [contradiction|auto].
Qed.

Lemma step_invariant snaps e s s' :
  thread_invariant searcher snaps s ->
  step searcher e s = Some s' ->
  thread_invariant searcher (snaps ++ snapshot_taken e s s') s'.
Proof.
  intros [Hc Hw]. unfold thread_invariant, worker_sound, rearmed in *.
  destruct e as [key|now|now| |]; simpl.
  - destruct (trigger_due s) eqn:Hdue; [discriminate|].
    destruct (key_effect key (app s)) as [[es1 triggers] ret] eqn:Hk.
    intros [= <-]. simpl.
    destruct (key_effect_frame _ _ _ _ _ Hk) as (-> & _ & -> & _ & Hquery).
    rewrite app_nil_r. split; [assumption|].
    destruct (worker s); auto;
      (destruct triggers; [intuition | rewrite Hquery by reflexivity;
                                       intuition congruence]).
  - destruct (trigger_due s) eqn:Hdue; [|discriminate].
    intros [= <-]. cbn [app worker trigger_due snapshot_taken].
    rewrite app_nil_r.
    split; [by apply cache_sound_trigger_search|].
    rewrite trigger_search_state. simpl.
    destruct (worker s); intuition.
  - destruct (worker s) eqn:Hpc; try discriminate.
    destruct (begin_request now (app s)) as [[q es1]|] eqn:Hb.
    + intros [= <-]. simpl.
      apply begin_request_Some in Hb as (_ & _ & -> & ->). simpl.
      rewrite last_snoc. auto.
    + intros [= <-]. rewrite Hpc. auto.
  - destruct (worker s) as [|q|q p|] eqn:Hpc; try discriminate.
    destruct (compute searcher q (app s)) as [[p|exn] es1] eqn:Hcomp;
      intros [= <-]; cbn [snapshot_taken worker app trigger_due];
      rewrite ?app_nil_r;
      destruct (compute_sound _ _ _ _ Hcomp Hc) as (Hst & Hc1 & Hp);
      rewrite ?Hst; intuition.
  - destruct (worker s) as [|q|q p|] eqn:Hpc; try discriminate.
    destruct Hw as (_ & _ & Hp).
    pose proof (publish_sound q p (app s) Hc Hp) as Hpub.
    destruct (publish q p (app s)) as [b es1|exn es1];
      intros [= <-]; simpl; rewrite ?app_nil_r.
    + destruct Hpub as (_ & _ & _ & ->). auto.
    + destruct Hpub as (_ & ->). auto.
Qed.

Lemma run_invariant evs : forall snaps s s',
  thread_invariant searcher snaps s ->
  run searcher evs s = Some s' ->
  thread_invariant searcher (snaps ++ snapshots searcher evs s) s'.
Proof.
  induction evs as [|e evs IH]; intros snaps s s' Hinv; simpl.
  - intros [= <-]. by rewrite app_nil_r.
  - destruct (step searcher e s) as [s1|] eqn:Hstep; [|discriminate].
    intros Hrun. rewrite app_assoc.
    eapply IH; [|exact Hrun]. by apply step_invariant.
Qed.

Lemma init_invariant : thread_invariant searcher [] System_init.
Proof.
  split; [|exact I]. intros k rs. simpl. by rewrite lookup_empty.
Qed.

End Interleavings.

(** C2, as the code has it.  In every interleaving of key strokes and worker
    steps, when the worker writes the results, the list written is the
    search result for the query it took as its snapshot when the cycle
    started; and if the query is no longer that snapshot, a new search is
    pending, or the controller is just about to call [trigger_search].
    Whether a later cycle replaces the list is another matter: see
    [stale_results_stay_when_worker_dies]. *)
Theorem worker_writes_result_of_its_snapshot :
  forall (searcher : string -> search_outcome) (evs : list event)
         (s s' : System),
    run searcher evs System_init = Some s ->
    wrote_results searcher s s' ->
    exists q,
      last (snapshots searcher evs System_init) = Some q
      /\ results (search_state (app s')) = search_result_for searcher q
      /\ (query (search_state (app s')) = q
          \/ is_searching (search_state (app s')) = true
          \/ trigger_due s' = true).
Proof.
  intros searcher evs s s' Hrun [Hstep Hidle].
  pose proof (run_invariant searcher evs [] System_init s
                (init_invariant searcher) Hrun) as [Hc Hw].
  simpl in Hw. unfold worker_sound, rearmed in Hw.
  simpl in Hstep. destruct (worker s) as [|q|q p|]; try discriminate.
  destruct Hw as (Hlast & Hre & Hp).
  pose proof (publish_sound searcher q p (app s) Hc Hp) as Hpub.
  destruct (publish q p (app s)) as [b es1|exn es1];
    injection Hstep as <-; simpl in *; [|discriminate].
  destruct Hpub as (Hres & Hq & Hs & _).
  exists q. rewrite Hq, Hs. auto.
Qed.

Lemma worker_writes_result_of_its_snapshot_witness :
  exists q,
    last (snapshots demo_searcher session_typing_during_search System_init)
    = Some q
    /\ results (search_state (app (state_after
                 (session_typing_during_search ++ [WorkerPublish]))))
       = search_result_for demo_searcher q
    /\ (query (search_state (app (state_after
                 (session_typing_during_search ++ [WorkerPublish])))) = q
        \/ is_searching (search_state (app (state_after
                 (session_typing_during_search ++ [WorkerPublish])))) = true
        \/ trigger_due (state_after
                 (session_typing_during_search ++ [WorkerPublish])) = true).
Proof.
  apply (worker_writes_result_of_its_snapshot demo_searcher
           session_typing_during_search
           (state_after session_typing_during_search)
           (state_after (session_typing_during_search ++ [WorkerPublish]))).
  - vm_compute. reflexivity.
  - split; vm_compute; reflexivity.
Defined.

(** C2 as stated fails.  In [session_typing_during_search] the worker has
    taken ["a"] as its snapshot and searched when ["b"] is typed; it then
    writes the five results for ["a"] while the query is ["ab"], whose
    search result is the single message with ["ab"]. *)
Lemma stale_results_overwrite_newer_query :
  query (search_state (app (state_after
           (session_typing_during_search ++ [WorkerPublish])))) = "ab"
  /\ List.length (results (search_state (app (state_after
           (session_typing_during_search ++ [WorkerPublish]))))) = 5%nat
  /\ search_result_for demo_searcher "ab"
     = [mkResult "demo.jsonl" "human" "abacus" ""]
  /\ ~ writes_for_current_query demo_searcher.
Proof.
  split; [reflexivity|]. split; [reflexivity|]. split; [reflexivity|].
  intros Hclaim.
  specialize (Hclaim session_typing_during_search
                (state_after session_typing_during_search)
                (state_after (session_typing_during_search ++ [WorkerPublish]))).
  assert (Hrun : run demo_searcher session_typing_during_search System_init
                 = Some (state_after session_typing_during_search))
    by (vm_compute; reflexivity).
  assert (Hwrote : wrote_results demo_searcher
                     (state_after session_typing_during_search)
                     (state_after
                        (session_typing_during_search ++ [WorkerPublish])))
    by (split; vm_compute; reflexivity).
  specialize (Hclaim Hrun Hwrote). vm_compute in Hclaim. discriminate.
Qed.

Section DeadWorker.

Variable searcher : string -> search_outcome.

(** No key changes the results. *)
Lemma key_effect_results key es es1 triggers ret :
  key_effect key es = (es1, triggers, ret) ->
  results (search_state es1) = results (search_state es).
Proof.
  unfold key_effect. intros Hk.
  repeat case_match; simplify_eq; reflexivity.
Qed.

(** Once the worker thread has ended, nothing writes the results any
    more. *)
Lemma dead_worker_keeps_results evs : forall s s',
  worker s = WCrashed ->
  run searcher evs s = Some s' ->
  worker s' = WCrashed
  /\ results (search_state (app s')) = results (search_state (app s)).
Proof.
  induction evs as [|e evs IH]; intros s s' Hdead; simpl.
  - intros [= <-]. auto.
  - destruct (step searcher e s) as [s1|] eqn:Hstep; [|discriminate].
    intros Hrun.
    assert (worker s1 = WCrashed
            /\ results (search_state (app s1))
               = results (search_state (app s))) as [Hdead1 Hres1].
    { destruct e as [key|now|now| |]; simpl in Hstep;
        try (rewrite Hdead in Hstep; discriminate).
      - destruct (trigger_due s); [discriminate|].
        destruct (key_effect key (app s)) as [[es1 tr] ret] eqn:Hk.
        injection Hstep as <-. simpl.
        split; [exact Hdead|]. exact (key_effect_results _ _ _ _ _ Hk).
      - destruct (trigger_due s); [|discriminate].
        injection Hstep as <-. auto. }
    destruct (IH s1 s' Hdead1 Hrun) as [Hdead' Hres'].
    split; [exact Hdead'|]. congruence.
Qed.

End DeadWorker.

(** No later cycle need follow a stale write.  In
    [session_stale_then_dead] the worker writes the five results of
    ["a"] while the query is ["ab"]; its next cycle dies of the
    [KeyError] of the second cache read.  The results of ["a"] then stay
    for good, under the query ["abc"] and whatever is typed later, with
    the search pending for ever. *)
Lemma stale_results_stay_when_worker_dies :
  exists s,
    run demo_searcher session_stale_then_dead System_init = Some s
    /\ worker s = WCrashed
    /\ query (search_state (app s)) = "abc"
    /\ is_searching (search_state (app s)) = true
    /\ results (search_state (app s)) = search_result_for demo_searcher "a"
    /\ List.length (results (search_state (app s))) = 5%nat
    /\ search_result_for demo_searcher "abc" = []
    /\ forall evs s',
         run demo_searcher evs s = Some s' ->
         worker s' = WCrashed
         /\ results (search_state (app s')) = results (search_state (app s)).
Proof.
  eexists. split; [vm_compute; reflexivity|].
  repeat (split; [reflexivity|]).
  intros evs s'. by apply dead_worker_keeps_results.
Qed.

(** ** Debounce *)

Section Debounce.

Variable searcher : string -> search_outcome.

Lemma run_app evs1 evs2 s :
  run searcher (evs1 ++ evs2) s
  = match run searcher evs1 s with
    | Some s1 => run searcher evs2 s1
    | None => None
    end.
Proof.
  revert s. induction evs1 as [|e evs1 IH]; intros s; simpl; [done|].
  destruct (step searcher e s); [apply IH | done].
Qed.

Lemma snapshots_app evs1 evs2 s s1 :
  run searcher evs1 s = Some s1 ->
  snapshots searcher (evs1 ++ evs2) s
  = (snapshots searcher evs1 s ++ snapshots searcher evs2 s1)%list.
Proof.
  revert s. induction evs1 as [|e evs1 IH]; intros s; simpl.
  - by intros [= ->].
  - destruct (step searcher e s) as [s'|]; [|discriminate].
    intros Hrun. by rewrite (IH _ Hrun), app_assoc.
Qed.

Lemma compute_state q es c es1 :
  compute searcher q es = (c, es1) -> search_state es1 = search_state es.
Proof.
  unfold compute. repeat case_match; intros [= <- <-]; reflexivity.
Qed.

Lemma publish_frame q p es :
  query (search_state (after_call (publish q p es))) = query (search_state es)
  /\ is_searching (search_state (after_call (publish q p es)))
     = is_searching (search_state es)
  /\ last_update (search_state (after_call (publish q p es)))
     = last_update (search_state es).
Proof. unfold publish. repeat case_match; simpl; auto. Qed.

(** Computing and publishing leave the query, the pending flag and the
    time of the last update alone, and start no cycle. *)
Lemma worker_step_frame e s s' :
  e = WorkerCompute \/ e = WorkerPublish ->
  step searcher e s = Some s' ->
  query (search_state (app s')) = query (search_state (app s))
  /\ is_searching (search_state (app s'))
     = is_searching (search_state (app s))
  /\ last_update (search_state (app s')) = last_update (search_state (app s))
  /\ snapshot_taken e s s' = [].
Proof.
  intros [-> | ->]; simpl.
  - destruct (worker s) as [|q|q p|]; try discriminate.
    destruct (compute searcher q (app s)) as [[p|exn] es1] eqn:Hc;
      intros [= <-]; simpl; by rewrite (compute_state _ _ _ _ Hc).
  - destruct (worker s) as [|q|q p|]; try discriminate.
    pose proof (publish_frame q p (app s)) as Hf.
    destruct (publish q p (app s)); intros [= <-]; simpl in *; intuition.
Qed.

(** A poll either does nothing or starts the cycle for the current query. *)
Lemma poll_step now s s' :
  step searcher (WorkerPoll now) s = Some s' ->
  (s' = s /\ snapshot_taken (WorkerPoll now) s s' = []
   /\ (is_searching (search_state (app s)) = false
       \/ now - last_update (search_state (app s)) < debounce_delay))
  \/ (is_searching (search_state (app s)) = true
      /\ debounce_delay <= now - last_update (search_state (app s))
      /\ is_searching (search_state (app s')) = false
      /\ snapshot_taken (WorkerPoll now) s s'
         = [query (search_state (app s))]).
Proof.
  simpl. destruct (worker s) eqn:Hpc; try discriminate.
  destruct (begin_request now (app s)) as [[q es1]|] eqn:Hb.
  - intros [= <-]. right.
    apply begin_request_Some in Hb as (Hs & Hd & -> & ->).
    simpl. auto.
  - intros [= <-]. left. rewrite ?Hpc. split; [done|]. split; [done|].
    unfold begin_request in Hb.
    destruct (is_searching (search_state (app s))); [|auto].
    simpl in Hb. right.
    destruct (Z.ltb_spec (now - last_update (search_state (app s)))
                         debounce_delay); [done|discriminate].
Qed.

(** While a search is pending and every poll reads a clock less than the
    debounce delay after the last update, no cycle starts. *)
Lemma no_cycle_within_window t evs : forall s s',
  is_searching (search_state (app s)) = true ->
  t < last_update (search_state (app s)) + debounce_delay ->
  forallb (fun e => negb (is_ui_trigger e)) evs = true ->
  Forall (polled_by t) evs ->
  run searcher evs s = Some s' ->
  snapshots searcher evs s = [].
Proof.
  induction evs as [|e evs IH]; intros s s' Hs Ht Hnt Hpoll; simpl; [done|].
  destruct (step searcher e s) as [s1|] eqn:Hstep; [|discriminate].
  simpl in Hnt. apply andb_prop in Hnt as [Hne Hnt].
  inversion Hpoll as [|? ? He Hpoll']; subst.
  intros Hrun.
  assert (snapshot_taken e s s1 = []
          /\ is_searching (search_state (app s1)) = true
          /\ last_update (search_state (app s1))
             = last_update (search_state (app s))) as (-> & Hs1 & Hl1).
  { destruct e as [key|now|now| |]; try discriminate.
    - simpl in Hstep. destruct (trigger_due s); [discriminate|].
      destruct (key_effect key (app s)) as [[es1 tr] ret] eqn:Hk.
      injection Hstep as <-. simpl.
      destruct (key_effect_frame _ _ _ _ _ Hk) as (_ & _ & -> & -> & _).
      auto.
    - simpl in He.
      destruct (poll_step _ _ _ Hstep) as [(-> & -> & _)|(_ & Hd & _)];
        [auto|lia].
    - destruct (worker_step_frame WorkerCompute s s1) as (_ & -> & -> & ->);
        auto.
    - destruct (worker_step_frame WorkerPublish s s1) as (_ & -> & -> & ->);
        auto. }
  simpl. eapply IH; eauto. by rewrite Hl1.
Qed.

(** Once the pending flag is cleared, worker steps start no cycle. *)
Lemma no_cycle_when_not_pending evs : forall s,
  is_searching (search_state (app s)) = false ->
  forallb is_worker_event evs = true ->
  snapshots searcher evs s = [].
Proof.
  induction evs as [|e evs IH]; intros s Hs Hw; simpl; [done|].
  destruct (step searcher e s) as [s1|] eqn:Hstep; [|done].
  simpl in Hw. apply andb_prop in Hw as [He Hw].
  destruct e as [key|now|now| |]; try discriminate.
  - destruct (poll_step _ _ _ Hstep) as [(-> & -> & _)|(Hs' & _)];
      [|congruence].
    simpl. by apply IH.
  - destruct (worker_step_frame WorkerCompute s s1) as (_ & Hs1 & _ & ->);
      auto. simpl. apply IH; congruence.
  - destruct (worker_step_frame WorkerPublish s s1) as (_ & Hs1 & _ & ->);
      auto. simpl. apply IH; congruence.
Qed.

(** With a search pending since [t], the first poll that reads a clock at
    least the debounce delay after [t] starts the only cycle, for the
    query as it is then. *)
Lemma one_cycle_after_window t evs : forall s s',
  is_searching (search_state (app s)) = true ->
  last_update (search_state (app s)) = t ->
  forallb is_worker_event evs = true ->
  existsb (is_poll_from (t + debounce_delay)) evs = true ->
  run searcher evs s = Some s' ->
  snapshots searcher evs s = [query (search_state (app s))].
Proof.
  induction evs as [|e evs IH]; intros s s' Hs Ht Hw Hex; simpl;
    [discriminate|].
  destruct (step searcher e s) as [s1|] eqn:Hstep; [|discriminate].
  simpl in Hw, Hex. apply andb_prop in Hw as [He Hw].
  intros Hrun.
  destruct e as [key|now|now| |]; try discriminate.
  - destruct (poll_step _ _ _ Hstep)
      as [(-> & -> & Hno)|(_ & _ & Hs1 & ->)].
    + simpl. eapply IH; eauto.
      simpl in Hex. destruct (Z.leb_spec (t + debounce_delay) now);
        [|exact Hex].
      exfalso. destruct Hno as [Hno|Hno]; [congruence|lia].
    + by rewrite (no_cycle_when_not_pending evs s1 Hs1 Hw).
  - destruct (worker_step_frame WorkerCompute s s1) as (<- & Hs1 & Hl & ->);
      auto. simpl. eapply IH; eauto; congruence.
  - destruct (worker_step_frame WorkerPublish s s1) as (<- & Hs1 & Hl & ->);
      auto. simpl. eapply IH; eauto; congruence.
Qed.

(** While a search is pending and every poll reads a clock less than the
    debounce delay after the last update, an idle worker stays idle and
    records nothing. *)
Lemma idle_within_window t evs : forall s s',
  worker s = WIdle ->
  is_searching (search_state (app s)) = true ->
  t < last_update (search_state (app s)) + debounce_delay ->
  forallb (fun e => negb (is_ui_trigger e)) evs = true ->
  Forall (polled_by t) evs ->
  run searcher evs s = Some s' ->
  worker s' = WIdle /\ worker_log (app s') = worker_log (app s).
Proof.
  induction evs as [|e evs IH]; intros s s' Hidle Hs Ht Hnt Hpoll; simpl.
  - intros [= <-]. auto.
  - destruct (step searcher e s) as [s1|] eqn:Hstep; [|discriminate].
    simpl in Hnt. apply andb_prop in Hnt as [Hne Hnt].
    inversion Hpoll as [|? ? He Hpoll']; subst.
    intros Hrun.
    assert (worker s1 = WIdle
            /\ worker_log (app s1) = worker_log (app s)
            /\ is_searching (search_state (app s1)) = true
            /\ last_update (search_state (app s1))
               = last_update (search_state (app s)))
      as (Hidle1 & Hlog1 & Hs1 & Hl1).
    { destruct e as [key|now|now| |]; try discriminate.
      - simpl in Hstep. destruct (trigger_due s); [discriminate|].
        destruct (key_effect key (app s)) as [[es1 tr] ret] eqn:Hk.
        injection Hstep as <-. simpl.
        destruct (key_effect_frame _ _ _ _ _ Hk) as (_ & -> & -> & -> & _).
        auto.
      - simpl in He.
        destruct (poll_step _ _ _ Hstep) as [(-> & _ & _)|(_ & Hd & _)];
          [auto|lia].
      - simpl in Hstep. rewrite Hidle in Hstep. discriminate.
      - simpl in Hstep. rewrite Hidle in Hstep. discriminate. }
    rewrite <- Hlog1. eapply IH; eauto. by rewrite Hl1.
Qed.

Lemma search_calls_app l1 l2 :
  search_calls (l1 ++ l2) = (search_calls l1 ++ search_calls l2)%list.
Proof. unfold search_calls. apply flat_map_app. Qed.

(** The code between the locked blocks calls the searcher once, for its
    snapshot, unless the snapshot is empty or cached. *)
Lemma compute_search_calls q es c es1 :
  compute searcher q es = (c, es1) ->
  search_calls (worker_log es1)
  = (search_calls (worker_log es) ++ calls_of_cycle q (results_cache es))%list.
Proof.
  unfold calls_of_cycle.
  destruct (compute_cases searcher q es)
    as [(-> & ->)|[(Hq & [rs Hhit] & ->)|(Hq & Hnone & ->)]].
  - intros [= <- <-]. simpl. by rewrite app_nil_r.
  - intros [= <- <-]. destruct (String.eqb_spec q ""); [contradiction|].
    rewrite Hhit. cbn [log worker_log]. rewrite search_calls_app.
    reflexivity.
  - destruct (String.eqb_spec q ""); [contradiction|]. rewrite Hnone.
    cbn zeta. destruct (searcher q); intros [= <- <-];
      cbn [log worker_log with_cache]; rewrite !search_calls_app;
      cbn; by rewrite <- ?app_assoc, ?app_nil_r.
Qed.

(** Writing the results calls no searcher. *)
Lemma publish_search_calls q p es :
  search_calls (worker_log (after_call (publish q p es)))
  = search_calls (worker_log es).
Proof.
  destruct p; cbn [publish]; try reflexivity.
  destruct (results_cache (log (CacheRead q) es) !! q);
    cbn [after_call with_state log worker_log];
    rewrite search_calls_app; cbn; by rewrite app_nil_r.
Qed.

(** A stage of the cycle started has the pending flag cleared. *)
Lemma cycle_stage_not_pending es es' :
  cycle_stage searcher es true WIdle es' ->
  is_searching (search_state es') = false.
Proof.
  intros (p & es2 & Hc & Hp).
  pose proof (publish_frame (query (search_state es)) p es2) as (_ & Hs & _).
  rewrite Hp in Hs. simpl in Hs.
  by rewrite Hs, (compute_state _ _ _ _ Hc).
Qed.

(** With a search pending since [t] and only the worker running, the
    worker runs one cycle, for the query as it is, and nothing else; the
    cycle has begun once a poll has read a clock at least the debounce delay
    after [t]. *)
Lemma worker_runs_one_cycle t es evs : forall started s s',
  is_searching (search_state es) = true ->
  last_update (search_state es) = t ->
  forallb is_worker_event evs = true ->
  cycle_stage searcher es started (worker s) (app s) ->
  run searcher evs s = Some s' ->
  exists started',
    cycle_stage searcher es started' (worker s') (app s')
    /\ (started = true -> started' = true)
    /\ (existsb (is_poll_from (t + debounce_delay)) evs = true ->
        started' = true).
Proof.
  induction evs as [|e evs IH]; intros started s s' Hs Ht Hw Hstage; simpl.
  - intros [= <-]. exists started. split; [exact Hstage|].
    split; [auto|discriminate].
  - destruct (step searcher e s) as [s1|] eqn:Hstep; [|discriminate].
    simpl in Hw. apply andb_prop in Hw as [He Hw]. intros Hrun.
    assert (exists started1,
              cycle_stage searcher es started1 (worker s1) (app s1)
              /\ (started = true -> started1 = true)
              /\ (is_poll_from (t + debounce_delay) e = true ->
                  started1 = true))
      as (started1 & Hstage1 & Hmono & Hpoll).
    { destruct e as [key|now|now| |]; try discriminate.
      - (* a poll *)
        simpl in Hstep. destruct (worker s) eqn:Hpc; try discriminate.
        destruct started.
        + pose proof (cycle_stage_not_pending _ _ Hstage) as Hno.
          unfold begin_request in Hstep. rewrite Hno in Hstep.
          injection Hstep as <-. exists true. rewrite Hpc. auto.
        + simpl in Hstage. rewrite Hstage in Hstep.
          destruct (begin_request now es) as [[q es1]|] eqn:Hb.
          * injection Hstep as <-.
            apply begin_request_Some in Hb as (_ & _ & -> & ->).
            exists true. simpl. auto.
          * injection Hstep as <-. exists false. rewrite Hpc.
            split; [exact Hstage|]. split; [auto|].
            simpl. intros Hdue. exfalso.
            apply Z.leb_le in Hdue.
            rewrite begin_request_due in Hb; [discriminate|assumption|lia].
      - (* the code between the locked blocks *)
        simpl in Hstep. destruct (worker s) as [|q| |] eqn:Hpc;
          try discriminate.
        destruct Hstage as (-> & -> & Happ). rewrite Happ in Hstep.
        destruct (compute searcher (query (search_state es))
                    (with_state clear_is_searching es))
          as [[p|exn] es2] eqn:Hc; injection Hstep as <-;
          exists true; simpl; eauto 10.
      - (* the second locked block *)
        simpl in Hstep. destruct (worker s) as [| |q p|] eqn:Hpc;
          try discriminate.
        destruct Hstage as (-> & -> & Hc).
        destruct (computed_cycle_returns searcher _ _ _ _ Hc) as [es3 Hp].
        rewrite Hp in Hstep. injection Hstep as <-.
        exists true. simpl. eauto 10. }
    destruct (IH started1 s1 s' Hs Ht Hw Hstage1 Hrun)
      as (started' & Hstage' & Hmono' & Hpoll').
    exists started'. split; [exact Hstage'|]. split; [auto|].
    intros Hex. apply orb_prop in Hex as [Hex|Hex]; auto.
Qed.

(** What a stage of the cycle started has recorded of calls of the
    searcher. *)
Lemma cycle_stage_search_calls es pc es' :
  cycle_stage searcher es true pc es' ->
  search_calls (worker_log es')
  = (search_calls (worker_log es)
     ++ match pc with
        | WSnapshot _ => []
        | _ => calls_of_cycle (query (search_state es)) (results_cache es)
        end)%list.
Proof.
  destruct pc as [|q|q p|]; simpl.
  - intros (p & es2 & Hc & Hp).
    pose proof (publish_search_calls (query (search_state es)) p es2) as Hpub.
    rewrite Hp in Hpub. simpl in Hpub. rewrite Hpub.
    exact (compute_search_calls _ _ _ _ Hc).
  - intros (_ & _ & ->). simpl. by rewrite app_nil_r.
  - intros (_ & _ & Hc). exact (compute_search_calls _ _ _ _ Hc).
  - intros (_ & exn & Hc). exact (compute_search_calls _ _ _ _ Hc).
Qed.

End Debounce.

(** C3, as the code has it.  Two calls of [trigger_search], at [t1] and at
    [t2], less than the debounce delay apart, with the worker idle at the
    first; between them the worker polls (its clock reads at most [t2])
    and the controller may edit the query; afterwards only the worker
    runs, and it polls at least once when the delay has passed since
    [t2].  Then up to the second call the worker records nothing; exactly
    one cycle starts in the whole run, and its snapshot is the query as
    the second call left it; the run of the worker is that one cycle, as
    far as it has got, on the state the second call left; and the
    searcher is called at most once, for that query: once the code between
    the locked blocks has run, exactly once unless the query is empty or
    cached.  When the worker is idle again, the whole run has had the
    effect of one call of [_process_search_request]. *)
Theorem debounce_runs_one_search_for_latest_query :
  forall (searcher : string -> search_outcome) (s s_end : System)
         (t1 t2 : Z) (between after : list event),
    worker s = WIdle ->
    t2 < t1 + debounce_delay ->
    forallb (fun e => negb (is_ui_trigger e)) between = true ->
    Forall (polled_by t2) between ->
    forallb is_worker_event after = true ->
    existsb (is_poll_from (t2 + debounce_delay)) after = true ->
    run searcher (UiTrigger t1 :: between ++ UiTrigger t2 :: after) s
    = Some s_end ->
    exists s2,
      run searcher (UiTrigger t1 :: between ++ [UiTrigger t2]) s = Some s2
      /\ is_searching (search_state (app s2)) = true
      /\ last_update (search_state (app s2)) = t2
      /\ worker_log (app s2) = worker_log (app s)
      /\ snapshots searcher
           (UiTrigger t1 :: between ++ UiTrigger t2 :: after) s
         = [query (search_state (app s2))]
      /\ cycle_stage searcher (app s2) true (worker s_end) (app s_end)
      /\ search_calls (worker_log (app s_end))
         = (search_calls (worker_log (app s))
            ++ match worker s_end with
               | WSnapshot _ => []
               | _ => calls_of_cycle (query (search_state (app s2)))
                                     (results_cache (app s2))
               end)%list
      /\ (worker s_end = WIdle ->
          process_search_request searcher (t2 + debounce_delay) (app s2)
          = Return true (app s_end)).
Proof.
  intros searcher s s_end t1 t2 between after Hidle Ht Hnt Hpoll Hw Hex Hrun.
  cbn [run snapshots] in *.
  destruct (step searcher (UiTrigger t1) s) as [sa|] eqn:Hstep1;
    [|discriminate].
  assert (Hsa : is_searching (search_state (app sa)) = true
                /\ last_update (search_state (app sa)) = t1
                /\ worker sa = WIdle
                /\ worker_log (app sa) = worker_log (app s)).
  { simpl in Hstep1. destruct (trigger_due s); [|discriminate].
    injection Hstep1 as <-. auto. }
  destruct Hsa as (Hsa & Hla & Hidlea & Hloga).
  assert (Htaken1 : snapshot_taken (UiTrigger t1) s sa = []) by reflexivity.
  rewrite Htaken1. cbn [app].
  rewrite run_app in Hrun. rewrite run_app.
  destruct (run searcher between sa) as [sb|] eqn:Hmid; [|discriminate].
  cbn [run] in *.
  destruct (step searcher (UiTrigger t2) sb) as [s2|] eqn:Hstep2;
    [|discriminate].
  destruct (idle_within_window searcher t2 between sa sb)
    as [Hidleb Hlogb]; auto; [rewrite Hla; exact Ht|].
  assert (Hs2 : is_searching (search_state (app s2)) = true
                /\ last_update (search_state (app s2)) = t2
                /\ worker s2 = WIdle
                /\ worker_log (app s2) = worker_log (app sb)).
  { simpl in Hstep2. destruct (trigger_due sb); [|discriminate].
    injection Hstep2 as <-. auto. }
  destruct Hs2 as (Hs2 & Hl2 & Hidle2 & Hlog2).
  assert (Hlog : worker_log (app s2) = worker_log (app s)) by congruence.
  destruct (worker_runs_one_cycle searcher t2 (app s2) after false s2 s_end)
    as (started & Hstage & _ & Hstarted); auto;
    [rewrite Hidle2; reflexivity|].
  rewrite (Hstarted Hex) in Hstage.
  exists s2. split; [reflexivity|]. split; [assumption|]. split; [assumption|].
  split; [assumption|]. split; [|split; [exact Hstage|split]].
  - rewrite (snapshots_app searcher between _ sa sb Hmid).
    rewrite (no_cycle_within_window searcher t2 between sa sb); auto;
      [|rewrite Hla; exact Ht].
    cbn [snapshots]. rewrite Hstep2.
    assert (Htaken2 : snapshot_taken (UiTrigger t2) sb s2 = [])
      by reflexivity.
    rewrite Htaken2. cbn [app].
    eapply one_cycle_after_window; eauto.
  - rewrite <- Hlog. by apply (cycle_stage_search_calls searcher).
  - intros Hend. rewrite Hend in Hstage. destruct Hstage as (p & es2 & Hc & Hp).
    rewrite (process_due searcher) by (try assumption; lia).
    by rewrite Hc.
Qed.

Lemma debounce_runs_one_search_for_latest_query_witness :
  exists s2,
    run demo_searcher (UiTrigger 0 :: burst_between ++ [UiTrigger 100])
        burst_start = Some s2
    /\ is_searching (search_state (app s2)) = true
    /\ last_update (search_state (app s2)) = 100
    /\ worker_log (app s2) = worker_log (app burst_start)
    /\ snapshots demo_searcher
         (UiTrigger 0 :: burst_between ++ UiTrigger 100 :: burst_after)
         burst_start
       = [query (search_state (app s2))]
    /\ cycle_stage demo_searcher (app s2) true
         (worker (state_after
                    (UiKey "a" :: UiTrigger 0
                       :: burst_between ++ UiTrigger 100 :: burst_after)))
         (app (state_after
                 (UiKey "a" :: UiTrigger 0
                    :: burst_between ++ UiTrigger 100 :: burst_after)))
    /\ search_calls
         (worker_log
            (app (state_after
                    (UiKey "a" :: UiTrigger 0
                       :: burst_between ++ UiTrigger 100 :: burst_after))))
       = (search_calls (worker_log (app burst_start))
          ++ match worker (state_after
                             (UiKey "a" :: UiTrigger 0
                                :: burst_between
                                   ++ UiTrigger 100 :: burst_after)) with
             | WSnapshot _ => []
             | _ => calls_of_cycle (query (search_state (app s2)))
                                   (results_cache (app s2))
             end)%list
    /\ (worker (state_after
                  (UiKey "a" :: UiTrigger 0
                     :: burst_between ++ UiTrigger 100 :: burst_after))
        = WIdle ->
        process_search_request demo_searcher (100 + debounce_delay) (app s2)
        = Return true
            (app (state_after
                    (UiKey "a" :: UiTrigger 0
                       :: burst_between ++ UiTrigger 100 :: burst_after)))).
Proof.
  apply (debounce_runs_one_search_for_latest_query demo_searcher burst_start
           (state_after
              (UiKey "a" :: UiTrigger 0
                 :: burst_between ++ UiTrigger 100 :: burst_after))
           0 100 burst_between burst_after).
  - reflexivity.
  - reflexivity.
  - reflexivity.
  - repeat constructor; simpl; lia.
  - reflexivity.
  - reflexivity.
  - vm_compute. reflexivity.
Defined.

(** C3 as stated fails when a cycle is under way at the first of the two
    calls.  In [session_poll_before_trigger] the worker has taken the
    snapshot ["ab"] after ["b"] was typed and before its [trigger_search]
    ran.  The calls of [trigger_search] for ["b"] and for ["c"] follow at
    310 and at 400; between them the worker calls the searcher for ["ab"]
    and writes its results; after the delay it runs the one cycle that
    starts in the window, for ["abc"].  So the searcher is called twice
    from the first of the two calls on, once for the intermediate
    query. *)
Lemma search_for_intermediate_query_runs_in_window :
  (exists s,
     run demo_searcher session_poll_before_trigger System_init = Some s
     /\ worker s = WSnapshot "ab"
     /\ 400 < 310 + debounce_delay
     /\ forallb (fun e => negb (is_ui_trigger e)) window_between = true
     /\ Forall (polled_by 400) window_between
     /\ forallb is_worker_event window_after = true
     /\ existsb (is_poll_from (400 + debounce_delay)) window_after = true
     /\ exists s_end,
          run demo_searcher
            (UiTrigger 310 :: window_between ++ UiTrigger 400 :: window_after)
            s = Some s_end
          /\ snapshots demo_searcher
               (UiTrigger 310
                  :: window_between ++ UiTrigger 400 :: window_after) s
             = ["abc"]
          /\ query (search_state (app s_end)) = "abc"
          /\ search_calls (worker_log (app s)) = []
          /\ search_calls (worker_log (app s_end)) = ["ab"; "abc"])
  /\ ~ one_search_per_window demo_searcher.
Proof.
  split.
  - eexists. split; [vm_compute; reflexivity|].
    split; [reflexivity|]. split; [reflexivity|]. split; [reflexivity|].
    split; [repeat constructor|]. split; [reflexivity|].
    split; [reflexivity|].
    eexists. split; [vm_compute; reflexivity|].
    repeat split; reflexivity.
  - intros Hclaim.
    destruct (Hclaim (state_after session_poll_before_trigger)
                (state_after
                   (session_poll_before_trigger
                      ++ UiTrigger 310
                         :: window_between ++ UiTrigger 400 :: window_after))
                310 400 window_between window_after)
      as (s2 & calls & Hrun2 & Hcalls & Hor).
    + reflexivity.
    + reflexivity.
    + repeat constructor.
    + reflexivity.
    + reflexivity.
    + vm_compute. reflexivity.
    + vm_compute in Hrun2. injection Hrun2 as <-.
      vm_compute in Hcalls. subst calls.
      destruct Hor as [Hor|Hor]; vm_compute in Hor; discriminate.
Qed.

(** ** Loading a conversation *)

Section Loading.

Lemma read_lines_to_the_end lines : forall conv,
  first_exception lines = None ->
  read_lines lines conv = Loaded (conv ++ messages_of lines).
Proof.
  unfold messages_of.
  induction lines as [|d lines IH]; intros conv Hok; simpl.
  - by rewrite app_nil_r.
  - simpl in Hok.
    destruct d as [|v|exn|exn]; [by apply IH| |discriminate|discriminate].
    destruct v; try discriminate. simpl.
    destruct (is_message fields); simpl; [|by apply IH].
    rewrite IH by assumption. by rewrite <- app_assoc.
Qed.

(** In a file that is read to its end and whose lines are objects or not
    JSON at all, every message line is loaded, in order, whatever the
    lines around it. *)
Lemma load_conversation_skips_malformed_lines lines :
  first_exception lines = None ->
  load_conversation (Some lines) = Loaded (messages_of lines).
Proof. intros Hok. simpl. by rewrite read_lines_to_the_end. Qed.

End Loading.

(** C7 at the failing input.  The fourth line of the transcript is valid
    JSON but not an object; [entry.get] raises on it, the outer handler
    ends the loading, and the message on the fifth line is not loaded. *)
Theorem number_line_aborts_loading :
  load_conversation (Some transcript_with_number_line)
  = Aborted "AttributeError"
      [user_message "How do I use decorators?";
       assistant_message "Decorators wrap functions."]
  /\ messages_of transcript_with_number_line
     = [user_message "How do I use decorators?";
        assistant_message "Decorators wrap functions.";
        user_message "Thanks."]
  /\ message_line (Decoded (user_message "Thanks.")) = true
  /\ ~ In (user_message "Thanks.")
         (conversation_of
            (load_conversation (Some transcript_with_number_line))).
Proof.
  split; [reflexivity|]. split; [reflexivity|]. split; [reflexivity|].
  simpl. intros [H|[H|[]]]; discriminate.
Qed.

(** ** Scrolling *)

(** C9, as the code has it.  [go_to_top] and [go_to_bottom] put the current
    line within [0 .. max(0, total_lines - viewport_height)] from every
    start.  [scroll_up(lines)] clamps from below only: it ends within the
    range exactly when [current_line - lines] is at most the upper end;
    [scroll_down(lines)] clamps from above only: it ends within the range
    exactly when [current_line + lines] is at least 0.  [page_up] and
    [page_down] are these with [lines = viewport_height - 1].  So a step
    that is not negative takes [scroll_down] into the range from every
    start at or above 0, one above the range included, and [scroll_up]
    from every start at or below the upper end, a negative one included.
    The key handler calls [scroll_up] and [scroll_down] with [lines = 1]. *)
Theorem scrolling_stays_in_range :
  forall (v : ViewerState) (lines : Z),
    scroll_in_range (go_to_top v)
    /\ scroll_in_range (go_to_bottom v)
    /\ (scroll_in_range (scroll_up lines v)
        <-> current_line v - lines <= max_scroll v)
    /\ (scroll_in_range (scroll_down lines v)
        <-> 0 <= current_line v + lines)
    /\ (scroll_in_range (page_up v)
        <-> current_line v - (viewport_height v - 1) <= max_scroll v)
    /\ (scroll_in_range (page_down v)
        <-> 0 <= current_line v + (viewport_height v - 1))
    /\ (0 <= lines -> 0 <= current_line v ->
        scroll_in_range (scroll_down lines v))
    /\ (0 <= lines -> current_line v <= max_scroll v ->
        scroll_in_range (scroll_up lines v)).
Proof.
  intros v lines.
  unfold scroll_in_range, page_up, page_down, scroll_up, scroll_down,
    go_to_top, go_to_bottom, max_scroll.
  cbn [current_line total_lines viewport_height set_current_line].
  repeat split; lia.
Qed.

(** C9 as stated fails.  After a search the viewer is on line 5 of ten lines
    in a window of twenty, where the range is [0 .. 0], and [scroll_up]
    leaves it on line 4.  With a viewport height of 0, [page_down] takes
    the line from 0 to -1. *)
Lemma scrolling_leaves_range :
  viewer_state contains demo_lines demo_viewer_found
  /\ current_line demo_viewer_found = 5
  /\ max_scroll (scroll ScrollUp demo_viewer_found) = 0
  /\ current_line (scroll ScrollUp demo_viewer_found) = 4
  /\ ~ scroll_in_range (scroll ScrollUp demo_viewer_found)
  /\ scroll_in_range flat_viewer
  /\ current_line (scroll PageDown flat_viewer) = -1
  /\ ~ (forall (op : scroll_op) (v : ViewerState),
          scroll_in_range (scroll op v)).
Proof.
  split; [apply vs_search, vs_init|].
  split; [reflexivity|]. split; [reflexivity|]. split; [reflexivity|].
  split; [vm_compute; intros [_ H]; apply H; reflexivity|].
  split; [vm_compute; split; discriminate|].
  split; [reflexivity|].
  intros Hclaim. specialize (Hclaim ScrollUp demo_viewer_found).
  vm_compute in Hclaim. destruct Hclaim as [_ H]. apply H. reflexivity.
Qed.

(** ** Moving between the search results of the viewer *)

Section SearchResults.

Lemma index_in_range {A : Type} (l : list A) (i : Z) :
  0 <= i < Py.len l -> is_Some (Py.index l i).
Proof.
  intros [Hlo Hhi]. unfold Py.index.
  destruct (Z.leb_spec 0 i); [|lia].
  destruct (Z.ltb_spec i (Py.len l)); [|lia]. simpl.
  destruct (nth_error l (Z.to_nat i)) as [x|] eqn:Hnth; [eauto|].
  apply nth_error_None in Hnth. unfold Py.len in Hhi. lia.
Qed.

Lemma len_nonempty {A : Type} (l : list A) : l <> [] -> 0 < Py.len l.
Proof. destruct l; [done|]. unfold Py.len. simpl. lia. Qed.

(** A jump by [d] among non-empty results: where it lands. *)
Lemma jump_lands d v :
  search_results v <> [] ->
  exists v',
    jump_search_result d v = Some v'
    /\ search_results v' = search_results v
    /\ search_index v'
       = (search_index v + d) mod Py.len (search_results v)
    /\ on_search_result v'.
Proof.
  intros Hne. pose proof (len_nonempty _ Hne) as Hlen.
  unfold jump_search_result, Py.mod_.
  destruct (search_results v) as [|r rs] eqn:Hres; [done|].
  set (n := Py.len (r :: rs)) in *.
  pose proof (Z.mod_pos_bound (search_index v + d) n Hlen) as Hmod.
  destruct (index_in_range (r :: rs) _ Hmod) as [line Hline].
  fold n in Hline. rewrite Hline.
  eexists. split; [reflexivity|]. simpl. rewrite Hres. fold n.
  unfold on_search_result. simpl. rewrite Hres. fold n.
  repeat split; try done; lia.
Qed.

Lemma jump_empty d v :
  search_results v = [] -> jump_search_result d v = Some v.
Proof. unfold jump_search_result. by intros ->. Qed.

Variable line_matches : string -> string -> bool.
Variable formatted_lines : list string.

(** In every state of a viewer the search index is within the results,
    when there are any. *)
Lemma viewer_search_index_in_range v :
  viewer_state line_matches formatted_lines v ->
  search_results v = []
  \/ 0 <= search_index v < Py.len (search_results v).
Proof.
  induction 1 as [conv total height width|op v Hv IH|q v Hv IH
                  |v v' Hv IH Hjump|v v' Hv IH Hjump].
  - by left.
  - destruct op; exact IH.
  - unfold search. destruct (String.eqb q ""); [by left|].
    destruct (hits_from line_matches 0 q formatted_lines) as [|h hits];
      [by left|].
    right. cbn [search_results search_index set_current_line set_search].
    change (Py.len (h :: hits)) with (Z.of_nat (S (List.length hits))). lia.
  - unfold next_search_result in Hjump.
    destruct (search_results v) as [|r rs] eqn:Hres.
    + rewrite (jump_empty 1 v Hres) in Hjump. injection Hjump as <-.
      left. exact Hres.
    + destruct (jump_lands 1 v) as (v1 & Hj & Hr & Hi & _);
        [by rewrite Hres|].
      rewrite Hj in Hjump.
      injection Hjump as <-. right. rewrite Hr, Hi.
      apply Z.mod_pos_bound, len_nonempty. by rewrite Hres.
  - unfold prev_search_result in Hjump.
    destruct (search_results v) as [|r rs] eqn:Hres.
    + rewrite (jump_empty (-1) v Hres) in Hjump. injection Hjump as <-.
      left. exact Hres.
    + destruct (jump_lands (-1) v) as (v1 & Hj & Hr & Hi & _);
        [by rewrite Hres|].
      rewrite Hj in Hjump.
      injection Hjump as <-. right. rewrite Hr, Hi.
      apply Z.mod_pos_bound, len_nonempty. by rewrite Hres.
Qed.

End SearchResults.

(** C10.  In every state of a viewer with search results, [next] and [prev]
    return, leave the search index within the results and the view on the
    line of that result, and each undoes the other's change of the search
    index; without search results both leave the state as it is. *)
Theorem next_and_prev_search_result_are_inverse :
  forall (line_matches : string -> string -> bool)
         (formatted_lines : list string) (v : ViewerState),
    viewer_state line_matches formatted_lines v ->
    match search_results v with
    | [] => next_search_result v = Some v /\ prev_search_result v = Some v
    | _ :: _ =>
        exists vn vp,
          next_search_result v = Some vn
          /\ prev_search_result v = Some vp
          /\ on_search_result vn
          /\ on_search_result vp
          /\ search_results vn = search_results v
          /\ search_results vp = search_results v
          /\ (exists v', prev_search_result vn = Some v'
                         /\ search_index v' = search_index v)
          /\ (exists v', next_search_result vp = Some v'
                         /\ search_index v' = search_index v)
    end.
Proof.
  intros line_matches formatted_lines v Hv.
  pose proof (viewer_search_index_in_range _ _ v Hv) as Hrange.
  destruct (search_results v) as [|r rs] eqn:Hres.
  - split; apply jump_empty; exact Hres.
  - destruct Hrange as [Hnil|Hrange]; [discriminate|].
    assert (Hne : search_results v <> []) by (by rewrite Hres).
    rewrite <- Hres in *.
    destruct (jump_lands 1 v Hne) as (vn & Hn & Hrn & Hin & Hon).
    destruct (jump_lands (-1) v Hne) as (vp & Hp & Hrp & Hip & Hop).
    exists vn, vp. repeat (split; [assumption|]).
    set (n := Py.len (search_results v)) in *.
    split.
    + destruct (jump_lands (-1) vn) as (v' & Hj & _ & Hi & _);
        [by rewrite Hrn|].
      exists v'. split; [exact Hj|].
      rewrite Hi, Hrn, Hin. fold n.
      rewrite Zplus_mod_idemp_l.
      replace (search_index v + 1 + -1) with (search_index v) by lia.
      apply Z.mod_small. lia.
    + destruct (jump_lands 1 vp) as (v' & Hj & _ & Hi & _);
        [by rewrite Hrp|].
      exists v'. split; [exact Hj|].
      rewrite Hi, Hrp, Hip. fold n.
      rewrite Zplus_mod_idemp_l.
      replace (search_index v + -1 + 1) with (search_index v) by lia.
      apply Z.mod_small. lia.
Qed.

Lemma next_and_prev_search_result_are_inverse_witness :
  match search_results demo_viewer_found with
  | [] => next_search_result demo_viewer_found = Some demo_viewer_found
          /\ prev_search_result demo_viewer_found = Some demo_viewer_found
  | _ :: _ =>
      exists vn vp,
        next_search_result demo_viewer_found = Some vn
        /\ prev_search_result demo_viewer_found = Some vp
        /\ on_search_result vn
        /\ on_search_result vp
        /\ search_results vn = search_results demo_viewer_found
        /\ search_results vp = search_results demo_viewer_found
        /\ (exists v', prev_search_result vn = Some v'
                       /\ search_index v' = search_index demo_viewer_found)
        /\ (exists v', next_search_result vp = Some v'
                       /\ search_index v' = search_index demo_viewer_found)
  end.
Proof.
  apply (next_and_prev_search_result_are_inverse contains demo_lines
           demo_viewer_found).
  apply vs_search, vs_init.
Defined.

(** * Further properties *)

(** ** Slices of strings *)

Section Slices.

Lemma length_append (a b : string) :
  String.length (a ++ b) = (String.length a + String.length b)%nat.
Proof. induction a as [|c a IH]; simpl; [done|]. by rewrite IH. Qed.

Lemma append_assoc (a b c : string) : (a ++ b) ++ c = a ++ b ++ c.
Proof.
  induction a as [|x a IH]; [done|].
  change (String x ((a ++ b) ++ c) = String x (a ++ b ++ c)). by rewrite IH.
Qed.

Lemma length_substring (s : string) : forall n m : nat,
  String.length (substring n m s) = Nat.min m (String.length s - n).
Proof.
  induction s as [|c s IH]; intros [|n] [|m]; simpl; try done.
  by rewrite IH, Nat.sub_0_r.
Qed.

Lemma substring_full (s : string) : substring 0 (String.length s) s = s.
Proof. induction s as [|c s IH]; simpl; [done|]. by rewrite IH. Qed.

Lemma substring_split (s : string) : forall n : nat,
  (n <= String.length s)%nat ->
  substring 0 n s ++ substring n (String.length s - n) s = s.
Proof.
  induction s as [|c s IH]; intros [|n] Hn; simpl in *; try done; try lia.
  - by rewrite substring_full.
  - transitivity
      (String c (substring 0 n s ++ substring n (String.length s - n) s));
      [reflexivity|]. rewrite IH; [done|lia].
Qed.

Lemma substring_prefix_append (a b : string) :
  substring 0 (String.length a) (a ++ b) = a.
Proof. induction a as [|c a IH]; simpl; [by destruct b|]. by rewrite IH. Qed.

Lemma substring_suffix_append (a b : string) :
  substring (String.length a) (String.length b) (a ++ b) = b.
Proof.
  induction a as [|c a IH]; simpl; [apply substring_full|exact IH].
Qed.

Lemma slice_bound_in_range (n i : Z) :
  0 <= i <= n -> Py.slice_bound n i = Z.to_nat i.
Proof.
  intros Hi. unfold Py.slice_bound.
  destruct (Z.ltb_spec i 0); [lia|]. f_equal. lia.
Qed.

End Slices.

(** ** Editing the query *)

Section Editing.

Lemma key_effect_left es :
  key_effect "LEFT" es
  = (with_state
       (set_cursor_pos (Z.max 0 (cursor_pos (search_state es) - 1))) es,
     false, Some Redraw).
Proof. reflexivity. Qed.

Lemma key_effect_right es :
  key_effect "RIGHT" es
  = (with_state
       (set_cursor_pos
          (Z.min (Py.str_len (query (search_state es)))
                 (cursor_pos (search_state es) + 1))) es,
     false, Some Redraw).
Proof. reflexivity. Qed.

Lemma key_effect_backspace es :
  key_effect "BACKSPACE" es
  = if 0 <? cursor_pos (search_state es)
    then (with_state
            (set_query
               (Py.slice_to (query (search_state es))
                            (cursor_pos (search_state es) - 1)
                ++ Py.slice_from (query (search_state es))
                                 (cursor_pos (search_state es)))
               (cursor_pos (search_state es) - 1)) es,
          true, Some Redraw)
    else (es, false, None).
Proof. reflexivity. Qed.

Lemma key_effect_enter es :
  key_effect "ENTER" es
  = if nonempty (results (search_state es))
       && (0 <=? selected_index (search_state es))
       && (selected_index (search_state es)
           <? Py.len (results (search_state es)))
    then match Py.index (results (search_state es))
                        (selected_index (search_state es)) with
         | Some r => (es, false, Some (OpenConversation (file_path r)))
         | None => (es, false, None)
         end
    else (es, false, None).
Proof. reflexivity. Qed.

(** A key of one character is none of the named keys. *)
Lemma one_char_is_no_name c k1 k2 rest :
  String.eqb (String c "") (String k1 (String k2 rest)) = false.
Proof. simpl. by destruct (Ascii.eqb c k1). Qed.

Lemma printable_one_char key :
  printable key = true -> exists c, key = String c "".
Proof.
  destruct key as [|c [|c' rest]]; try discriminate. eauto.
Qed.

Lemma key_effect_printable c es :
  printable (String c "") = true ->
  key_effect (String c "") es
  = (with_state
       (set_query
          (Py.slice_to (query (search_state es)) (cursor_pos (search_state es))
           ++ String c ""
           ++ Py.slice_from (query (search_state es))
                            (cursor_pos (search_state es)))
          (cursor_pos (search_state es) + 1)) es,
     true, Some Redraw).
Proof.
  intros Hp. unfold key_effect.
  rewrite !one_char_is_no_name, Hp. reflexivity.
Qed.

Lemma slice_to_length q c :
  0 <= c <= Py.str_len q ->
  String.length (Py.slice_to q c) = Z.to_nat c.
Proof.
  intros Hc. unfold Py.slice_to. rewrite slice_bound_in_range by done.
  rewrite length_substring. unfold Py.str_len in Hc. lia.
Qed.

Lemma slice_from_length q c :
  0 <= c <= Py.str_len q ->
  String.length (Py.slice_from q c) = (String.length q - Z.to_nat c)%nat.
Proof.
  intros Hc. unfold Py.slice_from. rewrite slice_bound_in_range by done.
  rewrite length_substring. lia.
Qed.

Lemma slices_rejoin q c :
  0 <= c <= Py.str_len q -> Py.slice_to q c ++ Py.slice_from q c = q.
Proof.
  intros Hc. unfold Py.slice_to, Py.slice_from.
  rewrite slice_bound_in_range by done.
  apply substring_split. unfold Py.str_len in Hc. lia.
Qed.

Lemma key_effect_cursor key es es1 triggers ret :
  key_effect key es = (es1, triggers, ret) ->
  cursor_in_query (search_state es) ->
  cursor_in_query (search_state es1).
Proof.
  unfold cursor_in_query. intros Hk Hc.
  destruct (String.eqb_spec key "LEFT") as [->|Hleft].
  { rewrite key_effect_left in Hk. injection Hk as <- _ _. simpl. lia. }
  destruct (String.eqb_spec key "RIGHT") as [->|Hright].
  { rewrite key_effect_right in Hk. injection Hk as <- _ _. simpl. lia. }
  destruct (String.eqb_spec key "BACKSPACE") as [->|Hback].
  { rewrite key_effect_backspace in Hk.
    destruct (Z.ltb_spec 0 (cursor_pos (search_state es)));
      injection Hk as <- _ _; [|done].
    simpl. unfold Py.str_len in *. rewrite length_append.
    rewrite slice_to_length, slice_from_length by (unfold Py.str_len; lia).
    lia. }
  destruct (printable key) eqn:Hp.
  { destruct (printable_one_char _ Hp) as [c ->].
    rewrite key_effect_printable in Hk by done. injection Hk as <- _ _.
    simpl. unfold Py.str_len in *. rewrite !length_append.
    rewrite slice_to_length, slice_from_length by (unfold Py.str_len; lia).
    simpl. lia. }
  unfold key_effect in Hk.
  apply String.eqb_neq in Hleft, Hright, Hback.
  rewrite Hleft, Hright, Hback, Hp in Hk.
  repeat case_match; simplify_eq; simpl; done.
Qed.

End Editing.

Section EditingSteps.

Variable searcher : string -> search_outcome.

Lemma publish_keeps_text q p es :
  query (search_state (after_call (publish q p es))) = query (search_state es)
  /\ cursor_pos (search_state (after_call (publish q p es)))
     = cursor_pos (search_state es).
Proof. unfold publish. repeat case_match; simpl; auto. Qed.

Lemma step_keeps_cursor e s s' :
  step searcher e s = Some s' ->
  cursor_in_query (search_state (app s)) ->
  cursor_in_query (search_state (app s')).
Proof.
  destruct e as [key|now|now| |]; simpl.
  - destruct (trigger_due s); [discriminate|].
    destruct (key_effect key (app s)) as [[es1 tr] ret] eqn:Hk.
    intros [= <-]. simpl. by apply (key_effect_cursor _ _ _ _ _ Hk).
  - destruct (trigger_due s); [|discriminate]. by intros [= <-].
  - destruct (worker s); try discriminate.
    destruct (begin_request now (app s)) as [[q es1]|] eqn:Hb;
      intros [= <-]; [|done].
    apply begin_request_Some in Hb as (_ & _ & _ & ->). done.
  - destruct (worker s) as [|q|q p|]; try discriminate.
    destruct (compute searcher q (app s)) as [[p|exn] es1] eqn:Hc;
      intros [= <-]; simpl; by rewrite (compute_state _ _ _ _ _ Hc).
  - destruct (worker s) as [|q|q p|]; try discriminate.
    pose proof (publish_keeps_text q p (app s)) as [Hq Hcur].
    unfold cursor_in_query.
    destruct (publish q p (app s)); intros [= <-]; simpl in *;
      by rewrite Hq, Hcur.
Qed.

Lemma run_keeps_cursor evs : forall s s',
  run searcher evs s = Some s' ->
  cursor_in_query (search_state (app s)) ->
  cursor_in_query (search_state (app s')).
Proof.
  induction evs as [|e evs IH]; intros s s'; simpl.
  - by intros [= <-].
  - destruct (step searcher e s) as [s1|] eqn:Hstep; [|discriminate].
    intros Hrun Hc. eapply IH; [exact Hrun|].
    by apply (step_keeps_cursor _ _ _ Hstep).
Qed.

End EditingSteps.

(** X1.  In every state that keys and worker steps lead to from the initial
    state, in any interleaving, the cursor is within the query:
    [0 <= cursor_pos <= len(query)]. *)
Theorem cursor_stays_within_query :
  forall (searcher : string -> search_outcome) (evs : list event) (s : System),
    run searcher evs System_init = Some s ->
    0 <= cursor_pos (search_state (app s))
      <= Py.str_len (query (search_state (app s))).
Proof.
  intros searcher evs s Hrun.
  apply (run_keeps_cursor searcher evs System_init s Hrun).
  unfold cursor_in_query. simpl. unfold Py.str_len. simpl. lia.
Qed.

Lemma cursor_stays_within_query_witness :
  0 <= cursor_pos (search_state (app (state_after session_cached_requery)))
    <= Py.str_len
         (query (search_state (app (state_after session_cached_requery)))).
Proof.
  apply (cursor_stays_within_query demo_searcher session_cached_requery
           (state_after session_cached_requery)).
  vm_compute. reflexivity.
Defined.

(** X2.  With the cursor within the query, typing a printable character and
    then pressing BACKSPACE gives back the query and the cursor position
    there were before. *)
Theorem typed_character_is_undone_by_backspace :
  forall (now1 now2 : Z) (c : ascii) (es : EnhancedSearch),
    printable (String c "") = true ->
    0 <= cursor_pos (search_state es) <= Py.str_len (query (search_state es)) ->
    let es1 := fst (handle_search_input now1 (String c "") es) in
    let es2 := fst (handle_search_input now2 "BACKSPACE" es1) in
    Py.str_len (query (search_state es1))
    = Py.str_len (query (search_state es)) + 1
    /\ query (search_state es2) = query (search_state es)
    /\ cursor_pos (search_state es2) = cursor_pos (search_state es).
Proof.
  intros now1 now2 c es Hp Hc. unfold handle_search_input.
  rewrite key_effect_printable by done. cbn zeta. cbn [fst].
  rewrite key_effect_backspace. rewrite trigger_search_state.
  set (q := query (search_state es)) in *.
  set (cur := cursor_pos (search_state es)) in *.
  cbn [search_state with_state set_query set_pending query cursor_pos].
  destruct (Z.ltb_spec 0 (cur + 1)); [|lia].
  cbn [fst]. rewrite trigger_search_state.
  cbn [search_state with_state set_query set_pending query cursor_pos].
  replace (cur + 1 - 1) with cur by lia.
  assert (Hlen : String.length (Py.slice_to q cur) = Z.to_nat cur)
    by (by apply slice_to_length).
  set (a := Py.slice_to q cur) in *. set (b := Py.slice_from q cur).
  assert (Hq : a ++ b = q) by (by apply slices_rejoin).
  split; [|split; [|done]].
  - unfold Py.str_len. rewrite !length_append, <- Hq, length_append.
    simpl. lia.
  - unfold Py.slice_to, Py.slice_from.
    assert (Hb1 : Py.slice_bound (Py.str_len (a ++ String c "" ++ b)) cur
                  = String.length a).
    { rewrite slice_bound_in_range; [lia|].
      unfold Py.str_len. rewrite length_append. lia. }
    assert (Hb2 : Py.slice_bound (Py.str_len (a ++ String c "" ++ b)) (cur + 1)
                  = String.length (a ++ String c "")).
    { rewrite slice_bound_in_range.
      - rewrite length_append. simpl. lia.
      - unfold Py.str_len. rewrite !length_append. simpl. lia. }
    rewrite Hb1, Hb2, substring_prefix_append.
    replace (a ++ String c "" ++ b) with ((a ++ String c "") ++ b)
      by apply append_assoc.
    replace (String.length ((a ++ String c "") ++ b)
             - String.length (a ++ String c ""))%nat
      with (String.length b) by (rewrite (length_append (a ++ _) b); lia).
    by rewrite substring_suffix_append.
Qed.

Lemma typed_character_is_undone_by_backspace_witness :
  let es1 := fst (handle_search_input 10 "x" searched_err) in
  let es2 := fst (handle_search_input 20 "BACKSPACE" es1) in
  Py.str_len (query (search_state es1))
  = Py.str_len (query (search_state searched_err)) + 1
  /\ query (search_state es2) = query (search_state searched_err)
  /\ cursor_pos (search_state es2) = cursor_pos (search_state searched_err).
Proof.
  apply (typed_character_is_undone_by_backspace 10 20 "x" searched_err).
  - reflexivity.
  - vm_compute. split; discriminate.
Defined.

(** X3.  Whenever [handle_search_input] changes the query, it has called
    [trigger_search]: the search is pending and the time of the last update
    is the time of the key. *)
Theorem query_change_rearms_search :
  forall (now : Z) (key : string) (es : EnhancedSearch),
    query (search_state (fst (handle_search_input now key es)))
    <> query (search_state es) ->
    is_searching (search_state (fst (handle_search_input now key es))) = true
    /\ last_update (search_state (fst (handle_search_input now key es))) = now.
Proof.
  intros now key es. unfold handle_search_input.
  destruct (key_effect key es) as [[es1 triggers] ret] eqn:Hk.
  destruct (key_effect_frame _ _ _ _ _ Hk) as (_ & _ & _ & _ & Hq).
  destruct triggers; simpl; [auto|].
  intros Hne. exfalso. apply Hne, Hq. reflexivity.
Qed.

Lemma query_change_rearms_search_witness :
  is_searching
    (search_state (fst (handle_search_input 2000 "o" searched_err))) = true
  /\ last_update
       (search_state (fst (handle_search_input 2000 "o" searched_err))) = 2000.
Proof.
  apply (query_change_rearms_search 2000 "o" searched_err).
  vm_compute. discriminate.
Defined.

Section Typing.

Lemma append_nil_r (s : string) : s ++ "" = s.
Proof.
  induction s as [|c s IH]; [done|].
  change (String c (s ++ "") = String c s). by rewrite IH.
Qed.

Lemma concat_cons (x : string) (l : list string) :
  String.concat "" (x :: l) = x ++ String.concat "" l.
Proof. destruct l; simpl; [by rewrite append_nil_r|done]. Qed.

Lemma type_at_end now c es :
  printable (String c "") = true ->
  cursor_pos (search_state es) = Py.str_len (query (search_state es)) ->
  query (search_state (fst (handle_search_input now (String c "") es)))
  = query (search_state es) ++ String c ""
  /\ cursor_pos (search_state (fst (handle_search_input now (String c "") es)))
     = Py.str_len (query (search_state es) ++ String c "").
Proof.
  intros Hp Hc. unfold handle_search_input.
  rewrite key_effect_printable by done. cbn [fst].
  rewrite trigger_search_state.
  cbn [search_state with_state set_query set_pending query cursor_pos].
  set (q := query (search_state es)) in *.
  assert (Hin : 0 <= cursor_pos (search_state es) <= Py.str_len q)
    by (unfold Py.str_len in *; lia).
  pose proof (slices_rejoin q _ Hin) as Hjoin.
  pose proof (slice_to_length q _ Hin) as Hla.
  pose proof (slice_from_length q _ Hin) as Hlb.
  destruct (Py.slice_from q (cursor_pos (search_state es))) as [|x b];
    [|simpl in Hlb; unfold Py.str_len in Hc; lia].
  rewrite append_nil_r in Hjoin. rewrite Hjoin. split; [done|].
  rewrite Hc. unfold Py.str_len. rewrite length_append. simpl. lia.
Qed.

End Typing.

(** X4.  With the cursor at the end of the query, a run of printable keys
    appends them in order: afterwards the query is the old query followed
    by the keys, and the cursor is at its end again. *)
Theorem typing_appends_to_query :
  forall (now : Z) (keys : list string) (es : EnhancedSearch),
    Forall (fun k => printable k = true) keys ->
    cursor_pos (search_state es) = Py.str_len (query (search_state es)) ->
    query (search_state (press now keys es))
    = query (search_state es) ++ String.concat "" keys
    /\ cursor_pos (search_state (press now keys es))
       = Py.str_len (query (search_state (press now keys es))).
Proof.
  intros now keys. induction keys as [|k keys IH]; intros es Hp Hc.
  - simpl. by rewrite append_nil_r.
  - inversion Hp as [|? ? Hk Hp']; subst.
    destruct (printable_one_char _ Hk) as [c ->].
    destruct (type_at_end now c es Hk Hc) as [Hq Hcur].
    cbn [press]. rewrite <- Hq in Hcur.
    destruct (IH _ Hp' Hcur) as [Hq' Hcur'].
    split; [|exact Hcur'].
    by rewrite Hq', Hq, concat_cons, append_assoc.
Qed.

Lemma typing_appends_to_query_witness :
  query (search_state (press 5 ["o"; "r"] searched_err))
  = query (search_state searched_err) ++ String.concat "" ["o"; "r"]
  /\ cursor_pos (search_state (press 5 ["o"; "r"] searched_err))
     = Py.str_len (query (search_state (press 5 ["o"; "r"] searched_err))).
Proof.
  apply (typing_appends_to_query 5 ["o"; "r"] searched_err).
  - repeat constructor.
  - reflexivity.
Defined.

(** X5.  With results on display, DOWN leaves the selection at most at
    [min(9, len(results) - 1)] whatever it was, and within the bound when
    it was at least -1; UP leaves it at least at 0, and within the bound
    when it was at most one above the bound.  Neither key changes the
    results. *)
Theorem up_and_down_clamp_selection :
  forall (now : Z) (es : EnhancedSearch),
    results (search_state es) <> [] ->
    let down := search_state (fst (handle_search_input now "DOWN" es)) in
    let up := search_state (fst (handle_search_input now "UP" es)) in
    let bound := Z.min 9 (Py.len (results (search_state es)) - 1) in
    results down = results (search_state es)
    /\ results up = results (search_state es)
    /\ selected_index down <= bound
    /\ 0 <= selected_index up
    /\ (-1 <= selected_index (search_state es) -> selection_in_bounds down)
    /\ (selected_index (search_state es) <= bound + 1 ->
        selection_in_bounds up).
Proof.
  intros now es Hne. unfold handle_search_input.
  rewrite key_effect_up, key_effect_down. unfold selection_in_bounds.
  destruct (results (search_state es)) as [|r rs] eqn:Hr; [done|].
  cbn [nonempty fst search_state with_state set_selected_index results
       selected_index].
  rewrite Hr.
  assert (0 <= Py.len (r :: rs) - 1)
    by (unfold Py.len; cbn [List.length]; lia).
  repeat split; try lia.
Qed.

Lemma up_and_down_clamp_selection_witness :
  let es := state_after_cached_requery_app in
  let down := search_state (fst (handle_search_input 0 "DOWN" es)) in
  let up := search_state (fst (handle_search_input 0 "UP" es)) in
  let bound := Z.min 9 (Py.len (results (search_state es)) - 1) in
  results down = results (search_state es)
  /\ results up = results (search_state es)
  /\ selected_index down <= bound
  /\ 0 <= selected_index up
  /\ (-1 <= selected_index (search_state es) -> selection_in_bounds down)
  /\ (selected_index (search_state es) <= bound + 1 ->
      selection_in_bounds up).
Proof.
  apply (up_and_down_clamp_selection 0 state_after_cached_requery_app).
  vm_compute. discriminate.
Defined.

(** X6.  ENTER changes nothing in the search state.  It asks to open a
    conversation exactly when the selection is an index of the results,
    [0 <= selected_index < len(results)], and then it is the file of the
    selected result; with any other selection it returns nothing. *)
Theorem enter_opens_only_the_selected_result :
  forall (now : Z) (es : EnhancedSearch),
    fst (handle_search_input now "ENTER" es) = es
    /\ ((0 <= selected_index (search_state es)
           < Py.len (results (search_state es))
         /\ exists r,
              nth_error (results (search_state es))
                        (Z.to_nat (selected_index (search_state es)))
              = Some r
              /\ snd (handle_search_input now "ENTER" es)
                 = Some (OpenConversation (file_path r)))
        \/ (~ (0 <= selected_index (search_state es)
                 < Py.len (results (search_state es)))
            /\ snd (handle_search_input now "ENTER" es) = None)).
Proof.
  intros now es. unfold handle_search_input. rewrite key_effect_enter.
  set (sel := selected_index (search_state es)).
  set (rs := results (search_state es)).
  destruct (Z.leb_spec 0 sel) as [Hlo|Hlo];
    destruct (Z.ltb_spec sel (Py.len rs)) as [Hhi|Hhi];
    rewrite ?andb_false_r; simpl;
    try (split; [reflexivity|right; split; [lia|reflexivity]]).
  assert (Hne : nonempty rs = true)
    by (destruct rs; [unfold Py.len in Hhi; simpl in Hhi; lia|done]).
  rewrite Hne. simpl.
  destruct (index_in_range rs sel (conj Hlo Hhi)) as [r Hr].
  rewrite Hr. simpl. split; [reflexivity|]. left. split; [lia|].
  exists r. split; [|reflexivity].
  unfold Py.index in Hr.
  destruct (Z.leb_spec 0 sel); [|lia].
  destruct (Z.ltb_spec sel (Py.len rs)); [|lia]. exact Hr.
Qed.

(** ** The cache and the worker, further *)

Section CacheFurther.

Lemma prefix_refl (s : string) : String.prefix s s = true.
Proof.
  induction s as [|c s IH]; simpl; [done|].
  destruct (ascii_dec c c); [exact IH|done].
Qed.

Lemma prefix_empty (s : string) : String.prefix "" s = true.
Proof. by destruct s. Qed.

Variable searcher : string -> search_outcome.

Lemma process_keeps_text now es :
  query (search_state (after_call (process_search_request searcher now es)))
  = query (search_state es)
  /\ cursor_pos
       (search_state (after_call (process_search_request searcher now es)))
     = cursor_pos (search_state es).
Proof.
  unfold process_search_request.
  destruct (begin_request now es) as [[q es1]|] eqn:Hb; [|done].
  apply begin_request_Some in Hb as (_ & _ & _ & ->).
  destruct (compute searcher q _) as [[p|exn] es2] eqn:Hc.
  - destruct (publish_keeps_text q p es2) as [-> ->].
    by rewrite (compute_state _ _ _ _ _ Hc).
  - simpl. by rewrite (compute_state _ _ _ _ _ Hc).
Qed.

End CacheFurther.

(** X7.  In every state that keys and worker steps lead to from the initial
    state, in any interleaving, every cache entry is the answer of the
    searcher for its key, and no entry is stored under the empty query; a
    query on which the searcher raises is never cached. *)
Theorem cache_holds_searcher_answers :
  forall (searcher : string -> search_outcome) (evs : list event) (s : System)
         (k : string) (rs : list SearchResult),
    run searcher evs System_init = Some s ->
    results_cache (app s) !! k = Some rs ->
    k <> "" /\ searcher k = Returned rs.
Proof.
  intros searcher evs s k rs Hrun Hk.
  destruct (run_invariant searcher evs [] System_init s
              (init_invariant searcher) Hrun) as [Hc _].
  exact (Hc k rs Hk).
Qed.

Lemma cache_holds_searcher_answers_witness :
  "ab" <> ""
  /\ demo_searcher "ab" = Returned [mkResult "demo.jsonl" "human" "abacus" ""].
Proof.
  apply (cache_holds_searcher_answers demo_searcher session_cached_requery
           (state_after session_cached_requery) "ab").
  - vm_compute. reflexivity.
  - vm_compute. reflexivity.
Defined.

(** X8.  A searched query is served from the cache the next time.  After a
    cycle that called the searcher for the pending query and got [rs], the
    cache holds [rs] under that query; when [trigger_search] runs again with
    the query unchanged and the worker polls after the delay, the cycle
    writes [rs] again without calling the searcher. *)
Theorem searched_query_is_served_from_cache :
  forall (searcher : string -> search_outcome) (now1 now2 now3 : Z)
         (es : EnhancedSearch) (rs : list SearchResult),
    is_searching (search_state es) = true ->
    debounce_delay <= now1 - last_update (search_state es) ->
    query (search_state es) <> "" ->
    results_cache es !! query (search_state es) = None ->
    searcher (query (search_state es)) = Returned rs ->
    debounce_delay <= now3 - now2 ->
    let es1 := after_call (process_search_request searcher now1 es) in
    let es2 := trigger_search now2 es1 in
    results_cache es1 !! query (search_state es) = Some rs
    /\ exists es3,
         process_search_request searcher now3 es2 = Return true es3
         /\ results (search_state es3) = rs
         /\ worker_log es3
            = (worker_log es1
               ++ [CacheProbe (query (search_state es));
                   CacheRead (query (search_state es))])%list.
Proof.
  intros searcher now1 now2 now3 es rs Hs Hd Hq Hc Hret Hd3.
  set (q := query (search_state es)) in *.
  assert (H1 : process_search_request searcher now1 es
               = Return true
                   (with_state
                      (fun s => set_selected_index 0 (set_results rs s))
                      (log (CacheStore q)
                         (with_cache
                            (<[q := rs]> (results_cache es))
                            (log (SearchCall q)
                               (log (CacheProbe q)
                                  (with_state clear_is_searching es))))))).
  { unfold process_search_request.
    rewrite begin_request_due by assumption. fold q. unfold compute.
    destruct (String.eqb_spec q "") as [He|_]; [contradiction|].
    cbn [log results_cache with_state]. rewrite Hc, Hret. reflexivity. }
  cbn zeta. rewrite H1. cbn [after_call].
  split; [cbn; apply lookup_insert_eq|].
  match goal with |- context [trigger_search now2 ?e] => set (es1 := e) end.
  assert (Hq1 : query (search_state es1) = q) by reflexivity.
  assert (Hc2 : results_cache (trigger_search now2 es1) !! q = Some rs).
  { rewrite lookup_trigger_search, Hq1. unfold Py.startswith.
    rewrite prefix_refl. cbn. apply lookup_insert_eq. }
  unfold process_search_request.
  rewrite begin_request_due;
    [|reflexivity|rewrite trigger_search_state; simpl; exact Hd3].
  rewrite trigger_search_state.
  cbn [search_state with_state set_pending query]. rewrite Hq1.
  unfold compute.
  destruct (String.eqb_spec q "") as [He|_]; [contradiction|].
  cbn [log results_cache with_state]. rewrite Hc2.
  cbn [publish log results_cache with_state]. rewrite Hc2.
  eexists. split; [reflexivity|]. split; [reflexivity|].
  cbn. by rewrite <- app_assoc.
Qed.

Lemma searched_query_is_served_from_cache_witness :
  let es := press 0 ["a"; "b"] EnhancedSearch_init in
  let es1 := after_call (process_search_request demo_searcher 300 es) in
  let es2 := trigger_search 1000 es1 in
  results_cache es1 !! query (search_state es)
  = Some [mkResult "demo.jsonl" "human" "abacus" ""]
  /\ exists es3,
       process_search_request demo_searcher 1300 es2 = Return true es3
       /\ results (search_state es3)
          = [mkResult "demo.jsonl" "human" "abacus" ""]
       /\ worker_log es3
          = (worker_log es1
             ++ [CacheProbe (query (search_state es));
                 CacheRead (query (search_state es))])%list.
Proof.
  apply (searched_query_is_served_from_cache demo_searcher 300 1000 1300
           (press 0 ["a"; "b"] EnhancedSearch_init)
           [mkResult "demo.jsonl" "human" "abacus" ""]).
  - reflexivity.
  - vm_compute. discriminate.
  - vm_compute. discriminate.
  - reflexivity.
  - reflexivity.
  - vm_compute. discriminate.
Defined.

Section WorkerAlone.

Variable searcher : string -> search_outcome.

(** With no search pending, the worker polls to the stop event and
    changes nothing. *)
Lemma search_worker_idle polls es :
  is_searching (search_state es) = false ->
  search_worker searcher polls es = Stopped es.
Proof.
  intros Hs. induction polls as [|now polls IH]; [done|]. simpl.
  rewrite process_not_due by auto. exact IH.
Qed.

(** One call, run without interference: it raises only when the
    exception of the searcher escapes. *)
Lemma process_alone now es :
  match process_search_request searcher now es with
  | Return b es' =>
      query (search_state es') = query (search_state es)
      /\ cursor_pos (search_state es') = cursor_pos (search_state es)
      /\ (b = false -> es' = es)
      /\ (b = true -> is_searching (search_state es') = false)
  | Propagate exn es' =>
      is_searching (search_state es) = true
      /\ debounce_delay <= now - last_update (search_state es)
      /\ query (search_state es) <> ""
      /\ results_cache es !! query (search_state es) = None
      /\ searcher (query (search_state es)) = Escaped exn
      /\ search_state es' = clear_is_searching (search_state es)
      /\ results_cache es' = results_cache es
  end.
Proof.
  pose proof (process_keeps_text searcher now es) as [Hq Hcur].
  destruct (is_searching (search_state es)) eqn:Hs;
    [|rewrite process_not_due in * by auto; simpl;
      repeat split; auto; discriminate].
  destruct (Z.lt_ge_cases (now - last_update (search_state es))
                          debounce_delay) as [Hd|Hd];
    [rewrite process_not_due in * by auto; simpl;
     repeat split; auto; discriminate|].
  rewrite process_due in * by assumption.
  destruct (compute searcher (query (search_state es))
                    (with_state clear_is_searching es))
    as [[p|exn] es2] eqn:Hcomp.
  - destruct (computed_cycle_returns searcher _ _ _ _ Hcomp) as [es' Hret].
    pose proof (publish_frame (query (search_state es)) p es2)
      as (_ & Hs' & _).
    rewrite Hret in *. simpl in Hq, Hcur, Hs'.
    rewrite (compute_state _ _ _ _ _ Hcomp) in Hs'.
    repeat split; auto. discriminate.
  - destruct (compute_uncaught searcher _ _ _ _ Hcomp)
      as (Hne & Hnone & Hexn & ->).
    repeat split; auto.
Qed.

End WorkerAlone.

(** X9.  A cycle that nothing interferes with shows the current query, or
    ends with the exception of the searcher.  With a cache that holds
    answers of the searcher, a search pending and the delay passed,
    [_process_search_request] either returns [True], with the results the
    search result for the query, the query unchanged, the pending flag
    cleared and the cache still holding answers of the searcher; or it
    raises, which it does exactly when the query is not empty and the
    exception of the searcher escapes the handler: the results are then
    left as they were and the search is no longer pending. *)
Theorem undisturbed_cycle_writes_result_of_current_query :
  forall (searcher : string -> search_outcome) (now : Z) (es : EnhancedSearch),
    cache_sound searcher (results_cache es) ->
    is_searching (search_state es) = true ->
    debounce_delay <= now - last_update (search_state es) ->
    match process_search_request searcher now es with
    | Return b es' =>
        b = true
        /\ results (search_state es')
           = search_result_for searcher (query (search_state es))
        /\ query (search_state es') = query (search_state es)
        /\ is_searching (search_state es') = false
        /\ cache_sound searcher (results_cache es')
        /\ (query (search_state es) = ""
            \/ forall exn, searcher (query (search_state es)) <> Escaped exn)
    | Propagate exn es' =>
        query (search_state es) <> ""
        /\ searcher (query (search_state es)) = Escaped exn
        /\ search_state es' = clear_is_searching (search_state es)
        /\ results_cache es' = results_cache es
    end.
Proof.
  intros searcher now es Hc Hs Hd. rewrite process_due by assumption.
  set (q := query (search_state es)).
  destruct (compute searcher q (with_state clear_is_searching es))
    as [[p|exn] es2] eqn:Hcomp.
  - destruct (compute_sound searcher _ _ _ _ Hcomp Hc) as (Hst & Hc2 & Hp).
    pose proof (publish_sound searcher q p es2 Hc2 Hp) as Hpub.
    destruct (computed_cycle_returns searcher _ _ _ _ Hcomp) as [es' Hret].
    rewrite Hret in *. destruct Hpub as (Hres & Hq & Hs' & Hcache).
    rewrite Hres, Hq, Hs', Hcache, Hst.
    repeat (split; [done|]).
    destruct (compute_cases searcher q (with_state clear_is_searching es))
      as [(He & _)|[(_ & [rs Hhit] & _)|(_ & _ & Heq)]].
    + by left.
    + right. intros exn Hexn. destruct (Hc _ _ Hhit) as [_ Hret'].
      congruence.
    + right. intros exn Hexn. rewrite Hcomp, Hexn in Heq. discriminate.
  - destruct (compute_uncaught searcher _ _ _ _ Hcomp)
      as (Hq & _ & Hexn & ->).
    auto.
Qed.

Lemma undisturbed_cycle_writes_result_of_current_query_witness :
  results (search_state pending_requery)
  = [mkResult "demo.jsonl" "human" "abacus" ""]
  /\ is_Some (results_cache pending_requery !! "ab")
  /\ (exists es',
        process_search_request demo_searcher 1300 pending_requery
        = Return true es'
        /\ List.length (results (search_state es')) = 5%nat)
  /\ match process_search_request demo_searcher 1300 pending_requery with
     | Return b es' =>
         b = true
         /\ results (search_state es')
            = search_result_for demo_searcher
                (query (search_state pending_requery))
         /\ query (search_state es') = query (search_state pending_requery)
         /\ is_searching (search_state es') = false
         /\ cache_sound demo_searcher (results_cache es')
         /\ (query (search_state pending_requery) = ""
             \/ forall exn,
                  demo_searcher (query (search_state pending_requery))
                  <> Escaped exn)
     | Propagate exn es' =>
         query (search_state pending_requery) <> ""
         /\ demo_searcher (query (search_state pending_requery)) = Escaped exn
         /\ search_state es'
            = clear_is_searching (search_state pending_requery)
         /\ results_cache es' = results_cache pending_requery
     end.
Proof.
  split; [reflexivity|]. split; [vm_compute; eauto|].
  split; [eexists; split; [vm_compute; reflexivity|reflexivity]|].
  apply (undisturbed_cycle_writes_result_of_current_query demo_searcher 1300
           pending_requery).
  - replace (results_cache pending_requery)
      with (<["ab" := [mkResult "demo.jsonl" "human" "abacus" ""]]>
              (∅ : gmap string (list SearchResult)))
      by (vm_compute; reflexivity).
    intros k rs. rewrite lookup_insert. case_decide as Hk.
    + intros [= <-]. subst k. split; [discriminate|reflexivity].
    + rewrite lookup_empty. discriminate.
  - reflexivity.
  - vm_compute. discriminate.
Defined.

(** X10.  A worker that nothing interferes with dies only of an exception
    of the searcher that escapes the handler, never of the [KeyError] of
    the second cache read.  When [search_worker] runs to the stop event it
    leaves the query and the cursor as they were.  It dies exactly when a
    search is pending, one of its polls comes when the delay has passed,
    the query is neither empty nor cached, and the exception of the
    searcher for it escapes; the thread then ends with the results as they
    were and the search no longer pending. *)
Theorem worker_alone_dies_only_of_escaping_exception :
  forall (searcher : string -> search_outcome) (polls : list Z)
         (es : EnhancedSearch),
    match search_worker searcher polls es with
    | Stopped es' =>
        query (search_state es') = query (search_state es)
        /\ cursor_pos (search_state es') = cursor_pos (search_state es)
    | Died exn es' =>
        is_searching (search_state es) = true
        /\ Exists (fun now =>
                     debounce_delay <= now - last_update (search_state es))
                  polls
        /\ query (search_state es) <> ""
        /\ results_cache es !! query (search_state es) = None
        /\ searcher (query (search_state es)) = Escaped exn
        /\ search_state es' = clear_is_searching (search_state es)
        /\ results_cache es' = results_cache es
    end
    /\ (forall exn,
          is_searching (search_state es) = true ->
          Exists (fun now =>
                    debounce_delay <= now - last_update (search_state es))
                 polls ->
          query (search_state es) <> "" ->
          results_cache es !! query (search_state es) = None ->
          searcher (query (search_state es)) = Escaped exn ->
          exists es', search_worker searcher polls es = Died exn es').
Proof.
  intros searcher polls. induction polls as [|now polls IH]; intros es.
  - split; [simpl; auto|]. intros exn _ Hex. inversion Hex.
  - pose proof (process_alone searcher now es) as Hone.
    cbn [search_worker].
    destruct (process_search_request searcher now es) as [b es1|exn es1]
      eqn:Hcall.
    + destruct Hone as (Hq & Hcur & Hfalse & Htrue).
      destruct b.
      * rewrite (search_worker_idle searcher polls es1 (Htrue eq_refl)).
        split; [auto|].
        intros exn Hs Hex Hne Hnone Hesc. exfalso.
        destruct (is_searching (search_state es)) eqn:Hs'; [|discriminate].
        destruct (Z.lt_ge_cases (now - last_update (search_state es))
                                debounce_delay) as [Hd|Hd].
        -- rewrite process_not_due in Hcall by auto. discriminate.
        -- rewrite process_due in Hcall by assumption.
           destruct (compute_cases searcher (query (search_state es))
                       (with_state clear_is_searching es))
             as [(He & _)|[(_ & [rs Hhit] & _)|(_ & _ & Heq)]].
           ++ contradiction.
           ++ simpl in Hhit. congruence.
           ++ rewrite Heq, Hesc in Hcall. discriminate.
      * rewrite (Hfalse eq_refl) in *. destruct (IH es) as [IH1 IH2].
        split.
        -- destruct (search_worker searcher polls es) as [es'|exn es'];
             [exact IH1|].
           destruct IH1 as (? & ? & ?). auto using Exists_cons_tl.
        -- intros exn Hs Hex Hne Hnone Hesc.
           apply IH2; try assumption.
           inversion Hex as [? ? Hd|]; subst; [|assumption]. exfalso.
           rewrite process_due in Hcall by assumption.
           destruct (compute_cases searcher (query (search_state es))
                       (with_state clear_is_searching es))
             as [(He & _)|[(_ & [rs Hhit] & _)|(_ & _ & Heq)]].
           ++ contradiction.
           ++ simpl in Hhit. congruence.
           ++ rewrite Heq, Hesc in Hcall. discriminate.
    + destruct Hone as (Hs & Hd & Hne & Hnone & Hesc & Hst & Hcache).
      split; [auto 10 using Exists_cons_hd|].
      intros exn' _ _ _ _ Hesc'. exists es1. congruence.
Qed.

(** X12.  The cache is read a second time under the lock, and the key may be
    gone by then.  When the worker has found its snapshot [q] in the cache
    and, before it reads the entry, the controller calls [trigger_search]
    with a query that [q] does not start with, the read raises [KeyError]:
    the worker thread ends, the results stay as they were, the search stays
    pending, and no worker step is possible any more. *)
Theorem eviction_between_probe_and_read_kills_worker :
  forall (searcher : string -> search_outcome) (s : System) (q : string)
         (now : Z),
    worker s = WPublish q PendCached ->
    trigger_due s = true ->
    Py.startswith q (query (search_state (app s))) = false ->
    exists s1 s2,
      step searcher (UiTrigger now) s = Some s1
      /\ step searcher WorkerPublish s1 = Some s2
      /\ worker s2 = WCrashed
      /\ results (search_state (app s2)) = results (search_state (app s))
      /\ is_searching (search_state (app s2)) = true
      /\ forall e, is_worker_event e = true -> step searcher e s2 = None.
Proof.
  intros searcher s q now Hpc Hdue Hpre.
  assert (Hgone : results_cache (trigger_search now (app s)) !! q = None)
    by (by rewrite lookup_trigger_search, Hpre).
  eexists. eexists. split; [simpl; rewrite Hdue; reflexivity|].
  split.
  { cbn [step worker app trigger_due]. rewrite Hpc.
    cbn [publish log results_cache]. rewrite Hgone. reflexivity. }
  cbn [worker app]. split; [reflexivity|]. split; [reflexivity|].
  split; [reflexivity|].
  intros [key|t|t| |] He; try discriminate; reflexivity.
Qed.

Lemma eviction_between_probe_and_read_kills_worker_witness :
  exists s1 s2,
    step demo_searcher (UiTrigger 2500) (state_after session_before_eviction)
    = Some s1
    /\ step demo_searcher WorkerPublish s1 = Some s2
    /\ worker s2 = WCrashed
    /\ results (search_state (app s2))
       = results (search_state (app (state_after session_before_eviction)))
    /\ is_searching (search_state (app s2)) = true
    /\ forall e, is_worker_event e = true -> step demo_searcher e s2 = None.
Proof.
  apply (eviction_between_probe_and_read_kills_worker demo_searcher
           (state_after session_before_eviction) "err" 2500).
  - vm_compute. reflexivity.
  - vm_compute. reflexivity.
  - vm_compute. reflexivity.
Defined.

(** X13.  [trigger_search] never adds or changes a cache entry; it keeps the
    entry of the new query itself; with the empty query it keeps the whole
    cache; and calling it again with the same query removes nothing more. *)
Theorem trigger_search_only_shrinks_cache :
  forall (now now' : Z) (es : EnhancedSearch),
    (forall k rs,
       results_cache (trigger_search now es) !! k = Some rs ->
       results_cache es !! k = Some rs)
    /\ results_cache (trigger_search now es) !! query (search_state es)
       = results_cache es !! query (search_state es)
    /\ (query (search_state es) = "" ->
        results_cache (trigger_search now es) = results_cache es)
    /\ results_cache (trigger_search now' (trigger_search now es))
       = results_cache (trigger_search now es).
Proof.
  intros now now' es. repeat split.
  - intros k rs. rewrite lookup_trigger_search.
    by destruct (Py.startswith k _).
  - rewrite lookup_trigger_search. unfold Py.startswith.
    by rewrite prefix_refl.
  - intros Hq. apply map_eq. intros k.
    rewrite lookup_trigger_search, Hq. unfold Py.startswith.
    by rewrite prefix_empty.
  - apply map_eq. intros k.
    rewrite (lookup_trigger_search now'), trigger_search_state.
    cbn [query set_pending].
    destruct (Py.startswith k (query (search_state es))) eqn:Hpre; [done|].
    by rewrite lookup_trigger_search, Hpre.
Qed.

(** ** Drawing the results *)

Section Drawing.

Lemma len_cons {A : Type} (x : A) (l : list A) : Py.len (x :: l) = Py.len l + 1.
Proof. unfold Py.len. cbn [List.length]. lia. Qed.

Lemma len_nil {A : Type} : Py.len (@nil A) = 0.
Proof. reflexivity. Qed.

Lemma len_nonneg {A : Type} (l : list A) : 0 <= Py.len l.
Proof. unfold Py.len. lia. Qed.







End Drawing.

(** X14.  [_draw_enhanced_results] returns only when there are results.
    With an empty result list, as in the initial state, it clears the old
    rows, prints the placeholder line and then raises [UnboundLocalError]
    without updating [last_result_count]; with results it returns and
    leaves [last_result_count] at the number of rows drawn, doubled when
    the preview is on. *)
Theorem draw_raises_exactly_without_results :
  forall (preview_lines : Z) (d : TerminalDisplay) (es : EnhancedSearch),
    match results (search_state es) with
    | [] =>
        exists ops,
          draw_enhanced_results preview_lines d es
          = DrawRaised "UnboundLocalError" ops
          /\ last ops
             = Some (PrintLine
                       (if String.eqb (query (search_state es)) ""
                        then "Start typing to search..."
                        else "No results found for '"
                             ++ query (search_state es) ++ "'"))
    | _ :: _ =>
        exists ops d',
          draw_enhanced_results preview_lines d es = Drawn ops d'
          /\ header_lines d' = header_lines d
          /\ last_result_count d'
             = (if show_preview es then 2 else 1)
               * Z.min 10 (Py.len (results (search_state es)))
    end.
Proof.
  intros preview_lines d es. unfold draw_enhanced_results.
  destruct (results (search_state es)) as [|r rs] eqn:Hr.
  - eexists. split; [reflexivity|].
    rewrite last_app. reflexivity.
  - eexists. eexists. split; [reflexivity|]. split; [reflexivity|].
    cbn [last_result_count]. destruct (show_preview es); lia.
Qed.



(** ** Navigation between the views *)

Section Navigation.

Lemma nth_error_pred_last {A : Type} (l : list A) :
  nth_error l (pred (List.length l)) = last l.
Proof.
  induction l as [|x l IH]; [done|].
  destruct l as [|y l]; [done|].
  rewrite last_cons_cons, <- IH. reflexivity.
Qed.

Lemma index_last {A : Type} (l : list A) :
  l <> [] -> Py.index l (-1) = last l.
Proof.
  intros Hne. unfold Py.index.
  pose proof (len_nonempty l Hne) as Hlen.
  destruct (Z.leb_spec 0 (-1)); [lia|].
  destruct (Z.ltb_spec (-1) 0); [|lia].
  destruct (Z.leb_spec (- Py.len l) (-1)); [|lia].
  cbn [andb]. unfold Py.len in *.
  replace (Z.to_nat (Z.of_nat (List.length l) + -1))
    with (pred (List.length l)) by lia.
  apply nth_error_pred_last.
Qed.

Lemma pop_view_returns ns :
  exists ns',
    pop_view ns = Some ns'
    /\ viewer ns' = viewer ns
    /\ selected_file ns' = selected_file ns
    /\ (Py.len (history ns) <= 1 -> ns' = ns)
    /\ (1 < Py.len (history ns) ->
        history ns' = removelast (history ns)
        /\ Some (current_view ns') = last (removelast (history ns))).
Proof.
  unfold pop_view.
  destruct (Z.ltb_spec 1 (Py.len (history ns))) as [Hlen|Hlen].
  - assert (Hne : removelast (history ns) <> []).
    { destruct (history ns) as [|x [|y l]]; unfold Py.len in Hlen;
        simpl in Hlen; try lia. simpl. discriminate. }
    rewrite (index_last _ Hne).
    destruct (last (removelast (history ns))) as [view|] eqn:Hlast.
    + eexists. split; [reflexivity|]. simpl. repeat split; auto; lia.
    + apply last_None in Hlast. contradiction.
  - exists ns. repeat split; auto; lia.
Qed.

Lemma jump_frame d v v' :
  jump_search_result d v = Some v' ->
  conversation v' = conversation v
  /\ total_lines v' = total_lines v
  /\ viewport_height v' = viewport_height v
  /\ viewport_width v' = viewport_width v
  /\ search_query v' = search_query v
  /\ search_results v' = search_results v.
Proof.
  unfold jump_search_result.
  destruct (search_results v) eqn:Hr; [by intros [= <-]|].
  destruct (Py.index _ _); [|discriminate]. intros [= <-]. simpl. auto 10.
Qed.

Lemma search_frame line_matches formatted_lines q v :
  conversation (search line_matches formatted_lines q v) = conversation v
  /\ total_lines (search line_matches formatted_lines q v) = total_lines v
  /\ viewport_height (search line_matches formatted_lines q v)
     = viewport_height v
  /\ viewport_width (search line_matches formatted_lines q v)
     = viewport_width v.
Proof. unfold search. repeat case_match; simpl; auto. Qed.

Lemma jump_returns d v : exists v', jump_search_result d v = Some v'.
Proof.
  destruct (search_results v) as [|r rs] eqn:Hr.
  - exists v. by apply jump_empty.
  - destruct (jump_lands d v) as (v' & Hj & _); [by rewrite Hr|]. eauto.
Qed.

End Navigation.

(** X16.  On a history that is not empty, [pop_view] undoes [push_view]:
    the history is as before, and the current view is its last entry. *)
Theorem pop_view_undoes_push_view :
  forall (view : string) (ns : NavigationState),
    history ns <> [] ->
    exists ns',
      pop_view (push_view view ns) = Some ns'
      /\ history ns' = history ns
      /\ Some (current_view ns') = last (history ns)
      /\ viewer ns' = viewer ns
      /\ selected_file ns' = selected_file ns.
Proof.
  intros view ns Hne.
  destruct (pop_view_returns (push_view view ns))
    as (ns' & Hpop & Hv & Hf & _ & Hlong).
  assert (Hlen : 1 < Py.len (history (push_view view ns))).
  { simpl. unfold Py.len. rewrite List.length_app. simpl.
    destruct (history ns); [done|]. simpl. lia. }
  destruct (Hlong Hlen) as [Hh Hcur].
  simpl in Hh, Hcur. rewrite List.removelast_last in Hh, Hcur.
  exists ns'. auto.
Qed.

Lemma pop_view_undoes_push_view_witness :
  exists ns',
    pop_view (push_view "viewer" NavigationState_init) = Some ns'
    /\ history ns' = history NavigationState_init
    /\ Some (current_view ns') = last (history NavigationState_init)
    /\ viewer ns' = viewer NavigationState_init
    /\ selected_file ns' = selected_file NavigationState_init.
Proof.
  apply (pop_view_undoes_push_view "viewer" NavigationState_init).
  discriminate.
Defined.

(** X17.  [pop_view] never raises and never takes the last view away: it
    returns for every state, a history of at most one view is left as it
    is, and a longer one loses exactly its last entry, the one before
    becoming the current view. *)
Theorem pop_view_keeps_the_first_view :
  forall ns : NavigationState,
    exists ns',
      pop_view ns = Some ns'
      /\ (if Py.len (history ns) <=? 1
          then ns' = ns
          else exists view,
                 history ns = (history ns' ++ [view])%list
                 /\ history ns' <> []
                 /\ Some (current_view ns') = last (history ns')).
Proof.
  intros ns.
  destruct (pop_view_returns ns) as (ns' & Hpop & _ & _ & Hshort & Hlong).
  exists ns'. split; [exact Hpop|].
  destruct (Z.leb_spec (Py.len (history ns)) 1) as [Hle|Hgt]; [auto|].
  destruct (Hlong Hgt) as [Hh Hcur].
  assert (Hne : history ns <> [])
    by (intros E; rewrite E in Hgt; unfold Py.len in Hgt; simpl in Hgt; lia).
  destruct (exists_last Hne) as (h & view & Heq).
  rewrite Heq, List.removelast_last in Hh, Hcur.
  exists view. rewrite Hh. split; [exact Heq|]. split; [|exact Hcur].
  intros E. rewrite Heq, E in Hgt. unfold Py.len in Hgt. simpl in Hgt. lia.
Qed.

(** X18.  [next_search_result] and [prev_search_result] never raise, in any
    state of the viewer record, whatever the search index is: they return,
    leave the search results as they are, and with results they put the
    search index within the results and the view on the line of that
    result. *)
Theorem search_result_jumps_never_raise :
  forall v : ViewerState,
    exists vn vp,
      next_search_result v = Some vn
      /\ prev_search_result v = Some vp
      /\ search_results vn = search_results v
      /\ search_results vp = search_results v
      /\ match search_results v with
         | [] => vn = v /\ vp = v
         | _ :: _ => on_search_result vn /\ on_search_result vp
         end.
Proof.
  intros v. unfold next_search_result, prev_search_result.
  destruct (search_results v) as [|r rs] eqn:Hr.
  - exists v, v. rewrite !jump_empty by done. repeat split; assumption.
  - destruct (jump_lands 1 v) as (vn & Hn & Hrn & _ & Hon);
      [by rewrite Hr|].
    destruct (jump_lands (-1) v) as (vp & Hp & Hrp & _ & Hop);
      [by rewrite Hr|].
    exists vn, vp. rewrite Hr in *. auto 10.
Qed.

(** X19.  [handle_viewer_input] raises only at the prompt of the key
    ["/"]: with a viewer open, that key and a prompt that raises, the
    exception leaves the handler and nothing has changed; in every other
    case the handler returns.  A key that returns nothing changes nothing;
    without a viewer every key returns ["search"] and changes nothing;
    with a viewer, no key changes its conversation, its number of lines or
    its viewport. *)
Theorem viewer_keys_raise_only_at_the_prompt :
  forall (line_matches : string -> string -> bool)
         (formatted_lines : list string) (reply : prompt) (key : string)
         (ns : NavigationState),
    match handle_viewer_input line_matches formatted_lines reply key ns with
    | Handled ns' ret =>
        (viewer ns <> None -> key = "/" -> exists typed, reply = Typed typed)
        /\ match viewer ns, viewer ns' with
           | Some v, Some v' =>
               conversation v' = conversation v
               /\ total_lines v' = total_lines v
               /\ viewport_height v' = viewport_height v
               /\ viewport_width v' = viewport_width v
               /\ (ret = None -> ns' = ns)
           | None, None => ns' = ns /\ ret = Some "search"
           | _, _ => False
           end
    | KeyRaised exn ns' =>
        viewer ns <> None /\ key = "/" /\ reply = PromptRaised exn /\ ns' = ns
    end.
Proof.
  intros line_matches formatted_lines reply key ns.
  unfold handle_viewer_input.
  destruct (viewer ns) as [v|] eqn:Hv;
    [|rewrite Hv; split; [congruence|auto]].
  destruct (pop_view_returns ns) as (np & Hpop & Hvp & _).
  destruct (jump_returns 1 v) as [vn Hn].
  destruct (jump_returns (-1) v) as [vp Hp].
  destruct (jump_frame _ _ _ Hn) as (? & ? & ? & ? & _).
  destruct (jump_frame _ _ _ Hp) as (? & ? & ? & ? & _).
  unfold next_search_result, prev_search_result.
  rewrite Hpop, Hn, Hp.
  destruct (String.eqb_spec key "/") as [->|Hkey].
  - cbn [String.eqb Ascii.eqb Bool.eqb orb].
    destruct reply as [typed|exn]; [|repeat split; discriminate].
    pose proof (search_frame line_matches formatted_lines typed v)
      as (? & ? & ? & ?).
    split; [eauto|]. cbn [viewer set_viewer].
    destruct (String.eqb typed ""); repeat split; auto; intros; discriminate.
  - repeat match goal with
           | |- context [if ?b then _ else _] => destruct b eqn:?
           end;
      (split; [intros; contradiction|]); cbn [viewer set_viewer push_view];
      rewrite ?Hvp, ?Hv;
      cbn [conversation total_lines viewport_height viewport_width
           scroll_down scroll_up go_to_top go_to_bottom page_up page_down
           set_current_line];
      repeat split; try assumption; try reflexivity; intros; discriminate.
Qed.

(** ** Searching within a conversation *)

Section ViewerSearchFacts.

Variable line_matches : string -> string -> bool.

Lemma hits_from_spec q (lines : list string) : forall start i,
  In i (hits_from line_matches start q lines)
  <-> start <= i
      /\ exists line,
           nth_error lines (Z.to_nat (i - start)) = Some line
           /\ line_matches q line = true.
Proof.
  induction lines as [|line rest IH]; intros start i.
  - simpl. split; [done|]. intros (_ & l & Hl & _).
    by destruct (Z.to_nat (i - start)).
  - cbn [hits_from].
    assert (Hrest : In i (hits_from line_matches (start + 1) q rest)
                    <-> start < i
                        /\ exists l,
                             nth_error (line :: rest) (Z.to_nat (i - start))
                             = Some l
                             /\ line_matches q l = true).
    { rewrite IH. split.
      - intros (Hi & l & Hl & Hm). split; [lia|]. exists l. split; [|done].
        replace (Z.to_nat (i - start)) with (S (Z.to_nat (i - (start + 1))))
          by lia. exact Hl.
      - intros (Hi & l & Hl & Hm). split; [lia|]. exists l. split; [|done].
        replace (Z.to_nat (i - start)) with (S (Z.to_nat (i - (start + 1))))
          in Hl by lia. exact Hl. }
    destruct (line_matches q line) eqn:Hm.
    + cbn [In]. rewrite Hrest. split.
      * intros [<-|(Hi & l & Hl & Hml)].
        -- split; [lia|]. exists line. by rewrite Z.sub_diag.
        -- split; [lia|]. eauto.
      * intros (Hi & l & Hl & Hml).
        destruct (Z.eq_dec start i) as [->|Hne]; [by left|].
        right. split; [lia|]. eauto.
    + rewrite Hrest. split.
      * intros (Hi & l & Hl & Hml). split; [lia|]. eauto.
      * intros (Hi & l & Hl & Hml). split; [|eauto].
        destruct (Z.eq_dec start i) as [->|Hne]; [|lia].
        rewrite Z.sub_diag in Hl. simpl in Hl. congruence.
Qed.

Lemma hits_from_sorted q (lines : list string) : forall start,
  StronglySorted Z.lt (hits_from line_matches start q lines).
Proof.
  induction lines as [|line rest IH]; intros start; cbn [hits_from];
    [constructor|].
  destruct (line_matches q line); [|apply IH].
  constructor; [apply IH|].
  apply Forall_forall. intros i Hi%list_elem_of_In.
  apply hits_from_spec in Hi as [Hi _]. lia.
Qed.

End ViewerSearchFacts.

(** X20.  [search] with a query that is not empty finds exactly the matching
    lines: the search results are the indices of the formatted lines that
    match, in increasing order.  With a match the view jumps to the first
    one and the search index is 0; without one the view and the search
    index stay where they were. *)
Theorem search_finds_exactly_the_matching_lines :
  forall (line_matches : string -> string -> bool)
         (formatted_lines : list string) (q : string) (v : ViewerState),
    q <> "" ->
    let v' := search line_matches formatted_lines q v in
    (forall i,
       In i (search_results v')
       <-> 0 <= i
           /\ exists line,
                nth_error formatted_lines (Z.to_nat i) = Some line
                /\ line_matches q line = true)
    /\ StronglySorted Z.lt (search_results v')
    /\ search_query v' = q
    /\ match search_results v' with
       | [] => current_line v' = current_line v
               /\ search_index v' = search_index v
       | first :: _ => current_line v' = first /\ search_index v' = 0
       end.
Proof.
  intros line_matches formatted_lines q v Hq. cbn zeta.
  assert (Hres : search_results (search line_matches formatted_lines q v)
                 = hits_from line_matches 0 q formatted_lines).
  { unfold search. destruct (String.eqb_spec q ""); [done|].
    by destruct (hits_from line_matches 0 q formatted_lines). }
  rewrite Hres. split; [|split; [apply hits_from_sorted|]].
  - intros i. rewrite hits_from_spec, Z.sub_0_r. reflexivity.
  - unfold search. destruct (String.eqb_spec q ""); [done|].
    destruct (hits_from line_matches 0 q formatted_lines); simpl; auto.
Qed.

Lemma search_finds_exactly_the_matching_lines_witness :
  let v' := search contains demo_lines "needle" demo_viewer in
  (forall i,
     In i (search_results v')
     <-> 0 <= i
         /\ exists line,
              nth_error demo_lines (Z.to_nat i) = Some line
              /\ contains "needle" line = true)
  /\ StronglySorted Z.lt (search_results v')
  /\ search_query v' = "needle"
  /\ match search_results v' with
     | [] => current_line v' = current_line demo_viewer
             /\ search_index v' = search_index demo_viewer
     | first :: _ => current_line v' = first /\ search_index v' = 0
     end.
Proof.
  apply (search_finds_exactly_the_matching_lines contains demo_lines "needle"
           demo_viewer).
  discriminate.
Defined.

(** X21.  With search results, pressing [n] (or [N]) [k + 1] times never
    raises and moves the search index by [k + 1] (or [-(k + 1)]) modulo
    the number of results, with the view on the line of that result; so
    [n] visits the results in order and wraps around, and after as many
    presses as there are results a search index that was within the
    results is back where it was. *)
Theorem repeated_jumps_walk_round_the_results :
  forall (d : Z) (k : nat) (v : ViewerState),
    search_results v <> [] ->
    exists vk,
      repeat_jump d (S k) v = Some vk
      /\ search_results vk = search_results v
      /\ search_index vk
         = (search_index v + d * Z.of_nat (S k))
           mod Py.len (search_results v)
      /\ on_search_result vk
      /\ (Z.of_nat (S k) = Py.len (search_results v) ->
          0 <= search_index v < Py.len (search_results v) ->
          search_index vk = search_index v).
Proof.
  intros d k. induction k as [|k IH]; intros v Hne.
  - destruct (jump_lands d v Hne) as (v1 & Hj & Hr & Hi & Hon).
    exists v1. cbn [repeat_jump]. rewrite Hj.
    split; [done|]. split; [done|]. split; [by rewrite Hi, Z.mul_1_r|].
    split; [done|]. intros Hn Hin. rewrite Hi, <- Hn.
    change (Z.of_nat 1) with 1 in *. replace (search_index v) with 0 by lia.
    by rewrite Z.mod_1_r.
  - destruct (jump_lands d v Hne) as (v1 & Hj & Hr & Hi & Hon).
    destruct (IH v1) as (vk & Hrep & Hrk & Hik & Honk & _);
      [by rewrite Hr|].
    exists vk. change (repeat_jump d (S (S k)) v)
      with (match jump_search_result d v with
            | Some v' => repeat_jump d (S k) v'
            | None => None
            end).
    rewrite Hj, Hrep. split; [done|]. split; [congruence|].
    assert (Hidx : search_index vk
                   = (search_index v + d * Z.of_nat (S (S k)))
                     mod Py.len (search_results v)).
    { rewrite Hik, Hr, Hi, Zplus_mod_idemp_l. f_equal. lia. }
    split; [exact Hidx|]. split; [done|].
    intros Hn Hin. rewrite Hidx, Hn.
    rewrite Z.mod_add by lia. apply Z.mod_small. lia.
Qed.

Lemma repeated_jumps_walk_round_the_results_witness :
  exists vk,
    repeat_jump 1 2 demo_viewer_found = Some vk
    /\ search_results vk = search_results demo_viewer_found
    /\ search_index vk
       = (search_index demo_viewer_found + 1 * Z.of_nat 2)
         mod Py.len (search_results demo_viewer_found)
    /\ on_search_result vk
    /\ (Z.of_nat 2 = Py.len (search_results demo_viewer_found) ->
        0 <= search_index demo_viewer_found
          < Py.len (search_results demo_viewer_found) ->
        search_index vk = search_index demo_viewer_found).
Proof.
  apply (repeated_jumps_walk_round_the_results 1 1 demo_viewer_found).
  vm_compute. discriminate.
Defined.

(** ** Scrolling and drawing the viewport *)

Section ViewportFacts.

Lemma set_current_line_same v : set_current_line (current_line v) v = v.
Proof. by destruct v. Qed.

Lemma set_current_line_twice a b v :
  set_current_line a (set_current_line b v) = set_current_line a v.
Proof. reflexivity. Qed.

Lemma range_between_bounds a b i :
  In i (range_between a b) -> a <= i < b.
Proof.
  unfold range_between. rewrite in_map_iff.
  intros (k & <- & Hk). apply in_seq in Hk. lia.
Qed.

Lemma length_range_between a b :
  a <= b -> Py.len (range_between a b) = b - a.
Proof.
  intros Hab. unfold range_between, Py.len.
  rewrite List.length_map, List.length_seq. lia.
Qed.

Lemma truncate_line_width width line :
  3 <= width -> Py.str_len (truncate_line width line) <= width.
Proof.
  intros Hw. unfold truncate_line.
  destruct (Z.ltb_spec width (Py.str_len line)) as [Hlong|Hshort]; [|done].
  unfold Py.str_len at 1. rewrite length_append, slice_to_length by lia.
  simpl. lia.
Qed.

Variable highlight : string -> string -> string.
Variable formatted_lines : list string.

Lemma draw_lines_within v indices :
  Forall (fun i => 0 <= i < Py.len formatted_lines) indices ->
  exists shown,
    draw_lines highlight formatted_lines v indices = Some shown
    /\ Py.len shown = Py.len indices
    /\ (3 <= viewport_width v ->
        Forall (fun l => Py.str_len l <= viewport_width v) shown).
Proof.
  induction 1 as [|i indices Hi _ IH].
  - exists []. repeat split; auto.
  - destruct IH as (more & Hmore & Hlen & Hwide).
    cbn [draw_lines]. unfold draw_line.
    destruct (Z.ltb_spec i (Py.len formatted_lines)); [|lia].
    destruct (index_in_range formatted_lines i Hi) as [line ->].
    rewrite Hmore. eexists. split; [reflexivity|].
    match goal with
    | |- context [([?x] ++ more)%list] =>
        change ([x] ++ more)%list with (x :: more)
    end.
    rewrite !len_cons, Hlen. split; [done|].
    intros Hw. constructor; [by apply truncate_line_width|auto].
Qed.

End ViewportFacts.

(** X22.  Scrolling back and forth.  For [k >= 0] and a current line
    within the scroll range: at the bottom [scroll_down(k)] stays at the
    bottom and at the top [scroll_up(k)] stays at the top;
    [scroll_down(k)] followed by [scroll_up(k)] returns to the starting
    state when the bottom was not passed, and [scroll_up(k)] followed by
    [scroll_down(k)] does when the top was not passed. *)
Theorem scrolling_back_and_forth :
  forall (k : Z) (v : ViewerState),
    0 <= k ->
    0 <= current_line v <= max_scroll v ->
    scroll_down k (go_to_bottom v) = go_to_bottom v
    /\ scroll_up k (go_to_top v) = go_to_top v
    /\ (current_line v + k <= max_scroll v ->
        scroll_up k (scroll_down k v) = v)
    /\ (k <= current_line v ->
        scroll_down k (scroll_up k v) = v).
Proof.
  intros k v Hk Hc.
  unfold scroll_down, scroll_up, go_to_bottom, go_to_top.
  rewrite !set_current_line_twice.
  change (max_scroll (set_current_line ?a v)) with (max_scroll v).
  cbn [current_line set_current_line].
  assert (0 <= max_scroll v) by (unfold max_scroll; lia).
  repeat split.
  - f_equal. lia.
  - f_equal. lia.
  - intros Hfit.
    transitivity (set_current_line (current_line v) v);
      [f_equal; lia|apply set_current_line_same].
  - intros Hfit.
    transitivity (set_current_line (current_line v) v);
      [f_equal; lia|apply set_current_line_same].
Qed.

Lemma scrolling_back_and_forth_witness :
  scroll_down 3 (go_to_bottom demo_tall_viewer) = go_to_bottom demo_tall_viewer
  /\ scroll_up 3 (go_to_top demo_tall_viewer) = go_to_top demo_tall_viewer
  /\ (current_line demo_tall_viewer + 3 <= max_scroll demo_tall_viewer ->
      scroll_up 3 (scroll_down 3 demo_tall_viewer) = demo_tall_viewer)
  /\ (3 <= current_line demo_tall_viewer ->
      scroll_down 3 (scroll_up 3 demo_tall_viewer) = demo_tall_viewer).
Proof.
  apply (scrolling_back_and_forth 3 demo_tall_viewer).
  - lia.
  - vm_compute. split; discriminate.
Defined.

(** X23.  [draw] fills the viewport exactly.  When the current line is
    between 0 and the number of lines, the number of lines is that of the
    formatted lines and the viewport height is not negative, the lines
    printed between header and footer are exactly [viewport_height], and
    no subscript raises; with a viewport at least three columns wide, none
    of them is wider than the viewport. *)
Theorem draw_fills_the_viewport :
  forall (highlight : string -> string -> string)
         (formatted_lines : list string) (v : ViewerState),
    total_lines v = Py.len formatted_lines ->
    0 <= current_line v <= total_lines v ->
    0 <= viewport_height v ->
    exists printed,
      draw_content highlight formatted_lines v = Some printed
      /\ Py.len printed = viewport_height v
      /\ (3 <= viewport_width v ->
          Forall (fun l => Py.str_len l <= viewport_width v) printed).
Proof.
  intros highlight formatted_lines v Htotal Hcur Hh. unfold draw_content.
  set (start_line := current_line v) in *.
  set (end_line := Z.min (start_line + viewport_height v) (total_lines v)).
  assert (Hse : start_line <= end_line) by (unfold end_line; lia).
  destruct (draw_lines_within highlight formatted_lines v
              (range_between start_line end_line))
    as (shown & Hshown & Hlen & Hwide).
  { apply Forall_forall. intros i Hi%list_elem_of_In.
    apply range_between_bounds in Hi. unfold end_line in Hi. lia. }
  rewrite Hshown. eexists. split; [reflexivity|].
  rewrite length_range_between in Hlen by done.
  split.
  - unfold Py.len in *. rewrite List.length_app, List.repeat_length.
    unfold end_line in *. lia.
  - intros Hw. apply Forall_app. split; [auto|].
    apply Forall_forall. intros l Hl%list_elem_of_In.
    apply List.repeat_spec in Hl. subst l. unfold Py.str_len. simpl. lia.
Qed.

Lemma draw_fills_the_viewport_witness :
  exists printed,
    draw_content demo_highlight demo_lines demo_small_window = Some printed
    /\ Py.len printed = viewport_height demo_small_window
    /\ (3 <= viewport_width demo_small_window ->
        Forall (fun l => Py.str_len l <= viewport_width demo_small_window)
               printed).
Proof.
  apply (draw_fills_the_viewport demo_highlight demo_lines demo_small_window).
  - reflexivity.
  - vm_compute. split; discriminate.
  - vm_compute. discriminate.
Defined.

(** ** Loading and extracting, further *)

Section LoadingFurther.

Lemma read_lines_exact lines : forall conv,
  read_lines lines conv
  = match first_exception lines with
    | Some exn => Aborted exn (conv ++ messages_of (before_end lines))
    | None => Loaded (conv ++ messages_of lines)
    end.
Proof.
  unfold messages_of.
  induction lines as [|d lines IH]; intros conv.
  - simpl. by rewrite app_nil_r.
  - destruct d as [|v|exn|exn];
      [exact (IH conv)| |simpl; by rewrite app_nil_r..].
    destruct v; try (simpl; by rewrite app_nil_r).
    cbn [read_lines first_exception ends_loading before_end
         List.filter message_line].
    destruct (is_message fields); [|exact (IH conv)].
    rewrite IH. cbn [List.flat_map decoded_value].
    destruct (first_exception lines); by rewrite <- app_assoc.
Qed.

(** No turn before the first that ends the loading ends it. *)
Lemma before_end_goes_on lines :
  Forall (fun d => ends_loading d = None) (before_end lines).
Proof.
  induction lines as [|d lines IH]; [constructor|]. simpl.
  destruct (ends_loading d) eqn:Hd; constructor; assumption.
Qed.

(** The turns are those before the end, the turn that ends the loading,
    and what the loop never comes to. *)
Lemma first_exception_split lines exn :
  first_exception lines = Some exn ->
  exists d rest,
    lines = (before_end lines ++ d :: rest)%list
    /\ ends_loading d = Some exn.
Proof.
  induction lines as [|d lines IH]; [discriminate|]. simpl.
  destruct (ends_loading d) as [e|] eqn:Hd.
  - intros [= ->]. exists d, lines. auto.
  - intros Hex. destruct (IH Hex) as (d' & rest & Heq & Hd').
    exists d', rest. split; [|exact Hd']. simpl. by rewrite <- Heq.
Qed.

Lemma messages_of_are_messages lines :
  Forall (fun e => exists fields, e = JObject fields
                                  /\ is_message fields = true)
         (messages_of lines).
Proof.
  unfold messages_of. induction lines as [|d lines IH]; [constructor|].
  cbn [List.filter]. destruct (message_line d) eqn:Hd; [|exact IH].
  destruct d as [|v|exn|exn]; try discriminate.
  destruct v; try discriminate.
  cbn [List.flat_map decoded_value]. constructor; [eauto|exact IH].
Qed.

End LoadingFurther.

(** X24.  [load_conversation] loads exactly the message records that its
    loop meets before the first turn that raises past the inner handler: a
    line that decodes to something other than an object
    ([AttributeError]), a line on which [json.loads] raises something else
    than [json.JSONDecodeError], or a read that raises
    ([UnicodeDecodeError] on bytes that are not UTF-8).  When no turn does,
    these are all the message records of the file, in order; when one
    does, the loading ends there with that exception and the turns are
    those before it, the one that raises, and a rest the loop never comes
    to.  Lines that are not JSON and objects of another type are passed
    over, and whatever is loaded is an object of type ["user"] or
    ["assistant"].  A file that cannot be opened, or whose first read
    raises, loads nothing. *)
Theorem load_conversation_loads_messages_before_first_raise :
  forall lines : list decoded,
    load_conversation (Some lines)
    = match first_exception lines with
      | Some exn => Aborted exn (messages_of (before_end lines))
      | None => Loaded (messages_of lines)
      end
    /\ match first_exception lines with
       | Some exn =>
           exists d rest,
             lines = (before_end lines ++ d :: rest)%list
             /\ ends_loading d = Some exn
             /\ Forall (fun d' => ends_loading d' = None) (before_end lines)
       | None => Forall (fun d' => ends_loading d' = None) lines
       end
    /\ Forall (fun e => exists fields, e = JObject fields
                                       /\ is_message fields = true)
              (conversation_of (load_conversation (Some lines)))
    /\ conversation_of (load_conversation None) = []
    /\ (forall exn rest,
          conversation_of (load_conversation (Some (ReadRaised exn :: rest)))
          = []).
Proof.
  intros lines. cbn [load_conversation]. rewrite read_lines_exact.
  cbn [app]. split; [reflexivity|]. split; [|split; [|split]].
  - destruct (first_exception lines) as [exn|] eqn:Hex.
    + destruct (first_exception_split lines exn Hex) as (d & rest & Heq & Hd).
      exists d, rest. split; [exact Heq|]. split; [exact Hd|].
      apply before_end_goes_on.
    + clear -Hex. induction lines as [|d lines IH]; [constructor|].
      simpl in Hex. destruct (ends_loading d) eqn:Hd; [discriminate|].
      constructor; auto.
  - destruct (first_exception lines); apply messages_of_are_messages.
  - reflexivity.
  - reflexivity.
Qed.

Section Extracting.

Lemma strings_of_None parts :
  strings_of parts = None <-> exists v, In v parts /\ is_string v = false.
Proof.
  induction parts as [|v parts IH]; simpl.
  - split; [discriminate|]. by intros (? & [] & _).
  - destruct v; try (split; [intros _; eexists; split; [by left|done]|done]).
    destruct (strings_of parts) as [ss|].
    + split; [discriminate|]. intros (v & [<-|Hin] & Hv); [discriminate|].
      destruct IH as [_ IH].
      specialize (IH (ex_intro _ v (conj Hin Hv))). discriminate.
    + split; [|done]. intros _.
      destruct IH as [IH _]. destruct (IH eq_refl) as (v & Hin & Hv). eauto.
Qed.

Lemma text_parts_non_string item v :
  In v (text_parts item) -> is_string v = false ->
  exists fields,
    item = JObject fields
    /\ dict_get "type" fields = Some (JString "text")
    /\ dict_get "text" fields = Some v.
Proof.
  unfold text_parts. intros Hin Hv.
  destruct item; try (by destruct Hin).
  - destruct Hin as [<-|[]]. discriminate.
  - destruct (dict_get "type" fields) as [[]|] eqn:Ht; try (by destruct Hin).
    destruct (String.eqb_spec s "text") as [->|]; [|by destruct Hin].
    destruct (dict_get "text" fields) as [t|] eqn:Htext;
      destruct Hin as [<-|[]]; [eauto|discriminate].
Qed.


End Extracting.

(** X25.  [_extract_content] raises in one case only: the entry has no
    string under ["content"], its ["message"] is an object whose
    ["content"] is a list, and some block of type ["text"] in that list
    carries a ["text"] that is not a string, so that the join raises
    [TypeError].  On every other entry it returns a string. *)
Theorem extract_content_raises_only_on_text_that_is_no_string :
  forall entry : list (string * json),
    extract_content entry = None
    <-> (forall s, dict_get "content" entry <> Some (JString s))
        /\ exists msg items fields v,
             dict_get "message" entry = Some (JObject msg)
             /\ dict_get "content" msg = Some (JArray items)
             /\ In (JObject fields) items
             /\ dict_get "type" fields = Some (JString "text")
             /\ dict_get "text" fields = Some v
             /\ is_string v = false.
Proof.
  intros entry. unfold extract_content. split.
  - intros Hnone.
    assert (Hflat : forall s, dict_get "content" entry <> Some (JString s)).
    { intros s Hs. rewrite Hs in Hnone. discriminate. }
    split; [exact Hflat|].
    destruct (dict_get "message" entry) as [[| | | | |msg]|] eqn:Hm;
      try (repeat case_match; discriminate).
    destruct (dict_get "content" msg) as [[| | | |items|]|] eqn:Hc;
      try (repeat case_match; discriminate).
    destruct (strings_of (List.flat_map text_parts items)) eqn:Hs;
      [repeat case_match; discriminate|].
    apply strings_of_None in Hs as (v & Hin & Hv).
    apply in_flat_map in Hin as (item & Hitem & Hin).
    destruct (text_parts_non_string _ _ Hin Hv) as (fields & -> & Ht & Htext).
    exists msg, items, fields, v. auto 10.
  - intros (Hflat & msg & items & fields & v & Hm & Hc & Hin & Ht & Htext & Hv).
    assert (Hs : strings_of (List.flat_map text_parts items) = None).
    { apply strings_of_None. exists v. split; [|exact Hv].
      apply in_flat_map. exists (JObject fields). split; [exact Hin|].
      unfold text_parts. rewrite Ht, Htext. by left. }
    rewrite Hm, Hc, Hs.
    destruct (dict_get "content" entry) as [[]|] eqn:Hcontent; try done.
    exfalso. by eapply Hflat.
Qed.


(** ** Wrapping text *)

Section Wrapping.

Lemma no_space_app a b :
  no_space (a ++ b) = no_space a && no_space b.
Proof.
  induction a as [|c a IH]; [done|].
  change (no_space (String c (a ++ b))
          = no_space (String c a) && no_space b).
  cbn [no_space]. rewrite IH. by rewrite andb_assoc.
Qed.

Lemma split_ws_from_word w : forall cur s,
  no_space w = true ->
  split_ws_from cur (w ++ s) = split_ws_from (cur ++ w) s.
Proof.
  induction w as [|c w IH]; intros cur s Hw.
  - by rewrite append_nil_r.
  - cbn [no_space] in Hw. apply andb_prop in Hw as [Hc Hw].
    change (String c w ++ s) with (String c (w ++ s)).
    cbn [split_ws_from]. destruct (is_space c); [discriminate|].
    rewrite IH by done. by rewrite append_assoc.
Qed.

Lemma split_ws_from_pad n s :
  split_ws_from "" (repeat_string " " n ++ s) = split_ws_from "" s.
Proof.
  induction n as [|n IH]; [done|].
  cbn [repeat_string]. rewrite append_assoc. exact IH.
Qed.

Lemma is_word_inv w :
  is_word w = true -> w <> "" /\ no_space w = true.
Proof.
  unfold is_word. intros [Hne Hns]%andb_prop. split; [|done].
  by destruct (String.eqb_spec w "").
Qed.

Lemma flush_word_word w : w <> "" -> flush_word w = [w].
Proof.
  intros Hw. unfold flush_word. by destruct (String.eqb_spec w "").
Qed.

Lemma split_ws_from_words s : forall cur,
  no_space cur = true ->
  Forall (fun w => is_word w = true) (split_ws_from cur s).
Proof.
  assert (Hflush : forall cur, no_space cur = true ->
            Forall (fun w => is_word w = true) (flush_word cur)).
  { intros cur Hcur. unfold flush_word, is_word.
    destruct (String.eqb_spec cur "") as [|Hne]; [constructor|].
    constructor; [|constructor].
    destruct (String.eqb_spec cur ""); [done|]. exact Hcur. }
  induction s as [|c s IH]; intros cur Hcur; cbn [split_ws_from];
    [by apply Hflush|].
  destruct (is_space c) eqn:Hc.
  - apply Forall_app. split; [by apply Hflush|by apply IH].
  - apply IH. rewrite no_space_app, Hcur. cbn [no_space]. by rewrite Hc.
Qed.

Lemma concat_words_cons w words :
  words <> [] ->
  String.concat " " (w :: words) = w ++ " " ++ String.concat " " words.
Proof. by destruct words. Qed.

Lemma concat_words_empty words :
  Forall (fun w => is_word w = true) words ->
  String.concat " " words = "" -> words = [].
Proof.
  intros Hw Hc. destruct words as [|w words]; [done|]. exfalso.
  inversion Hw as [|? ? Hword _]; subst.
  apply is_word_inv in Hword as [Hne _].
  destruct words as [|w' words]; simpl in Hc; [done|].
  destruct w; [done|discriminate].
Qed.

Lemma split_ws_concat_words words :
  Forall (fun w => is_word w = true) words ->
  split_ws_from "" (String.concat " " words) = words.
Proof.
  induction 1 as [|w words Hw Hwords IH]; [done|].
  apply is_word_inv in Hw as [Hne Hns].
  destruct words as [|w' words].
  - cbn [String.concat]. rewrite <- (append_nil_r w) at 1.
    rewrite split_ws_from_word by done. cbn [split_ws_from String.append].
    by apply flush_word_word.
  - rewrite concat_words_cons by done.
    rewrite split_ws_from_word by done.
    change (" " ++ String.concat " " (w' :: words))
      with (String " "%char (String.concat " " (w' :: words))).
    cbn [split_ws_from]. change (is_space " ") with true. cbn iota.
    change ("" ++ w) with w. rewrite flush_word_word by done.
    by rewrite IH.
Qed.

Lemma concat_words_snoc words w :
  Forall (fun w => is_word w = true) words ->
  String.concat " " (words ++ [w])
  = if String.eqb (String.concat " " words) "" then w
    else String.concat " " words ++ " " ++ w.
Proof.
  induction 1 as [|x words Hx Hwords IH]; [done|].
  apply is_word_inv in Hx as [Hne _].
  assert (Hnon : String.concat " " (x :: words) <> "").
  { destruct words; simpl; [done|]. destruct x; [done|discriminate]. }
  destruct (String.eqb_spec (String.concat " " (x :: words)) "");
    [contradiction|].
  destruct words as [|y words].
  - reflexivity.
  - change ((x :: y :: words) ++ [w])%list with (x :: (y :: words) ++ [w])%list.
    rewrite concat_words_cons by done. rewrite IH.
    assert (Hy : String.concat " " (y :: words) <> "").
    { inversion Hwords as [|? ? Hyw _]; subst.
      apply is_word_inv in Hyw as [Hyne _].
      destruct words; simpl; [done|]. destruct y; [done|discriminate]. }
    destruct (String.eqb_spec (String.concat " " (y :: words)) "");
      [contradiction|].
    rewrite (concat_words_cons x (y :: words)) by done.
    rewrite append_assoc. reflexivity.
Qed.

Lemma wrap_words_keeps_words max_width indent words : forall line_words,
  Forall (fun w => is_word w = true) words ->
  Forall (fun w => is_word w = true) line_words ->
  List.flat_map split_ws
    (wrap_words max_width indent words (String.concat " " line_words))
  = (line_words ++ words)%list.
Proof.
  assert (Hline : forall line_words,
            Forall (fun w => is_word w = true) line_words ->
            List.flat_map split_ws
              (if String.eqb (String.concat " " line_words) "" then []
               else [str_mul " " indent ++ String.concat " " line_words])
            = line_words).
  { intros line_words Hlw.
    destruct (String.eqb_spec (String.concat " " line_words) "") as [He|_].
    - by rewrite (concat_words_empty _ Hlw He).
    - cbn [List.flat_map]. rewrite app_nil_r. unfold split_ws, str_mul.
      rewrite split_ws_from_pad. by apply split_ws_concat_words. }
  induction words as [|w words IH]; intros line_words Hw Hlw.
  - cbn [wrap_words]. rewrite app_nil_r. by apply Hline.
  - inversion Hw as [|? ? Hword Hwords]; subst. cbn [wrap_words].
    destruct (_ <=? max_width).
    + rewrite <- concat_words_snoc by done.
      rewrite IH; [by rewrite <- app_assoc|done|].
      apply Forall_app. split; [done|]. by constructor.
    + rewrite flat_map_app, Hline by done.
      change w with (String.concat " " [w]) at 1.
      rewrite IH; [done|done|]. by constructor.
Qed.

Lemma length_repeat_string s n :
  String.length (repeat_string s n) = (n * String.length s)%nat.
Proof.
  induction n as [|n IH]; [done|].
  cbn [repeat_string]. rewrite length_append, IH. lia.
Qed.

Lemma wrap_words_width max_width indent words : forall current_line,
  0 <= indent ->
  Forall (fun w => Py.str_len w <= max_width) words ->
  Py.str_len current_line <= max_width ->
  Forall (fun l => Py.str_len l <= indent + max_width)
         (wrap_words max_width indent words current_line).
Proof.
  intros current_line Hind.
  assert (Hline : forall line, Py.str_len line <= max_width ->
            Forall (fun l => Py.str_len l <= indent + max_width)
                   (if String.eqb line "" then []
                    else [str_mul " " indent ++ line])).
  { intros line Hl. destruct (String.eqb line ""); constructor; [|done].
    unfold Py.str_len, str_mul in *.
    rewrite length_append, length_repeat_string. simpl. lia. }
  revert current_line.
  induction words as [|w words IH]; intros current_line Hw Hcur.
  - cbn [wrap_words]. by apply Hline.
  - inversion Hw as [|? ? Hword Hwords]; subst. cbn [wrap_words].
    destruct (Z.leb_spec (Py.str_len current_line + Py.str_len w + 1)
                         max_width) as [Hfit|Hover].
    + apply IH; [done|].
      destruct (String.eqb current_line ""); [done|].
      unfold Py.str_len in *. rewrite !length_append. simpl. lia.
    + apply Forall_app. split; [by apply Hline|by apply IH].
Qed.

End Wrapping.

(** X27.  [_wrap_text] loses no word, adds none and keeps their order: the
    words of the lines it returns are the words of the paragraphs of the
    text, one paragraph after the other, for every width and indent. *)
Theorem wrap_text_keeps_the_words :
  forall (viewport_width indent : Z) (text : string),
    List.flat_map split_ws (wrap_text viewport_width indent text)
    = List.flat_map split_ws (split_lines text).
Proof.
  intros viewport_width indent text. unfold wrap_text.
  induction (split_lines text) as [|p ps IH]; [done|].
  cbn [List.flat_map]. rewrite flat_map_app, IH. f_equal.
  unfold wrap_paragraph.
  destruct (String.eqb_spec p "") as [->|_]; [done|].
  change "" with (String.concat " " []) at 1.
  rewrite wrap_words_keeps_words; [done| |constructor].
  by apply split_ws_from_words.
Qed.

(** X28.  When no word of the text is longer than
    [viewport_width - indent - 2], every line that [_wrap_text] returns
    fits: with the indent it is at most [viewport_width - 2] characters
    long. *)
Theorem wrap_text_lines_fit_the_viewport :
  forall (viewport_width indent : Z) (text : string),
    0 <= indent ->
    2 <= viewport_width ->
    Forall (fun p =>
              Forall (fun w => Py.str_len w <= viewport_width - indent - 2)
                     (split_ws p))
           (split_lines text) ->
    Forall (fun l => Py.str_len l <= viewport_width - 2)
           (wrap_text viewport_width indent text).
Proof.
  intros viewport_width indent text Hind Hvw Hwords. unfold wrap_text.
  induction Hwords as [|p ps Hp _ IH]; [constructor|].
  cbn [List.flat_map]. apply Forall_app. split; [|exact IH].
  unfold wrap_paragraph. destruct (String.eqb p "").
  - constructor; [|constructor]. unfold Py.str_len. simpl. lia.
  - destruct (split_ws p) as [|w ws] eqn:Hsplit.
    + constructor.
    + replace (viewport_width - 2)
        with (indent + (viewport_width - indent - 2)) by lia.
      apply wrap_words_width; [done|done|].
      inversion Hp as [|? ? Hw _]; subst.
      pose proof (len_nonneg (list_ascii_of_string w)).
      unfold Py.str_len in *. simpl. lia.
Qed.

Lemma wrap_text_lines_fit_the_viewport_witness :
  Forall (fun l => Py.str_len l <= 14 - 2)
         (wrap_text 14 0 "the quick brown fox jumps over the lazy dog").
Proof.
  apply (wrap_text_lines_fit_the_viewport 14 0
           "the quick brown fox jumps over the lazy dog").
  - lia.
  - lia.
  - vm_compute. repeat constructor; discriminate.
Defined.

(** ** The centred heading of the menu *)

(** X29.  [print_centered] with a padding character of length one: when the
    text and its two spaces fit the terminal width, the line printed has
    the same padding on both sides and is as wide as the terminal, or one
    column less when an odd number of columns is left; when they do not
    fit, the line is the text between two spaces, without padding. *)
Theorem centered_line_fills_the_terminal :
  forall (terminal_width : Z) (text char : string),
    Py.str_len char = 1 ->
    if Py.str_len text + 2 <=? terminal_width
    then terminal_width - 1
         <= Py.str_len (print_centered terminal_width text char)
         <= terminal_width
         /\ Py.str_len (print_centered terminal_width text char)
            = 2 * ((terminal_width - Py.str_len text - 2) / 2)
              + Py.str_len text + 2
    else print_centered terminal_width text char = " " ++ text ++ " ".
Proof.
  intros terminal_width text char Hchar. unfold print_centered.
  set (padding := (terminal_width - Py.str_len text - 2) / 2).
  destruct (Z.leb_spec (Py.str_len text + 2) terminal_width) as [Hfit|Hwide].
  - assert (Hpad : 0 <= padding /\ 2 * padding <= terminal_width
                                                  - Py.str_len text - 2
                   /\ terminal_width - Py.str_len text - 2 <= 2 * padding + 1).
    { unfold padding. Z.div_mod_to_equations. lia. }
    assert (Hlen : Py.str_len (str_mul char padding) = padding).
    { unfold Py.str_len, str_mul in *. rewrite length_repeat_string. lia. }
    assert (Hline : Py.str_len
                      (str_mul char padding ++ " " ++ text ++ " "
                       ++ str_mul char padding)
                    = 2 * padding + Py.str_len text + 2).
    { unfold Py.str_len in *. rewrite !length_append.
      cbn [String.length]. lia. }
    rewrite Hline. repeat split; lia.
  - assert (Hneg : padding < 0)
      by (unfold padding; Z.div_mod_to_equations; lia).
    unfold str_mul. replace (Z.to_nat padding) with 0%nat by lia.
    cbn [repeat_string]. by rewrite append_nil_r.
Qed.

Lemma centered_line_fills_the_terminal_witness :
  if Py.str_len "Menu" + 2 <=? 20
  then 20 - 1 <= Py.str_len (print_centered 20 "Menu" "=") <= 20
       /\ Py.str_len (print_centered 20 "Menu" "=")
          = 2 * ((20 - Py.str_len "Menu" - 2) / 2) + Py.str_len "Menu" + 2
  else print_centered 20 "Menu" "=" = " " ++ "Menu" ++ " ".
Proof.
  apply (centered_line_fills_the_terminal 20 "Menu" "=").
  reflexivity.
Defined.

(** ** Keys that are ignored *)

(** X30.  A key of one character that is not printable (a control
    character, DEL, or a character from 127 on) is ignored by
    [handle_search_input]: nothing changes, [trigger_search] is not called
    and nothing is returned. *)
Theorem unprintable_character_is_ignored :
  forall (now : Z) (c : ascii) (es : EnhancedSearch),
    printable (String c "") = false ->
    handle_search_input now (String c "") es = (es, None).
Proof.
  intros now c es Hp. unfold handle_search_input, key_effect.
  rewrite !one_char_is_no_name, Hp. reflexivity.
Qed.

Lemma unprintable_character_is_ignored_witness :
  handle_search_input 7 (String (ascii_of_nat 1) "") searched_err
  = (searched_err, None).
Proof.
  apply (unprintable_character_is_ignored 7 (ascii_of_nat 1) searched_err).
  reflexivity.
Defined.
